(** * gatsby-transformer-video: conversion cache, filter graph and profiles

    A shallow embedding of the TypeScript sources of the plugin
    (ffmpeg.ts, helpers.ts, gatsby-node.ts and the codec profiles) together
    with the properties stated about them.

    Conventions.
    - JavaScript values that may be [undefined] or [null] are of type
      [nullable A]; optional fields of probe records ([field?: T]) are
      [option T], [None] standing for [undefined].
    - The duration of a probed stream is what fluent-ffmpeg hands over: a
      number where the prober printed a plain decimal, a string otherwise
      ([ProbeValue]).
    - GraphQL [Int] arguments and the integers produced by [parseInt] are
      mathematical integers ([Z]); they stand for IEEE doubles in the range
      where integer arithmetic is exact.  [NaN] is kept apart ([number]).
    - The quotient computed for the time-remap stage is a binary64 float
      ([PrimFloat]), and [toFixed] is computed exactly from its mantissa and
      exponent.
    - The file system is a finite map from paths to nodes; asynchronous code
      is sequential state passing with exceptions ([M]).  Messages sent to
      the reporter are not part of the state. *)

From Stdlib Require Import ZArith Floats Ascii String.
From stdpp Require Import base option list strings gmap sorting pretty.

(** ** JavaScript values *)

Inductive nullable (A : Type) : Type :=
| undefined
| null
| val (a : A).
Arguments undefined {A}.
Arguments null {A}.
Arguments val {A} a.

(** The result of [parseInt] and of integer arithmetic on it. *)
Inductive number : Type :=
| NaN
| Int (z : Z).

(** ECMAScript [Number::toString] on doubles that are not handled by the
    integer model: a service of the runtime, not of this program. *)
Class Runtime : Type := Number_toString : float → string.

(** Truthiness, as tested by [if (x)], [x && y], [x || y] and [!x]. *)
Class Truthy (A : Type) : Type := truthy : A → bool.

#[global] Instance truthy_Z : Truthy Z := λ z, negb (z =? 0)%Z.
#[global] Instance truthy_string : Truthy string :=
  λ s, match s with EmptyString => false | String _ _ => true end.
#[global] Instance truthy_float : Truthy float :=
  λ x, match Prim2SF x with
       | S754_zero _ | S754_nan => false
       | _ => true
       end.
#[global] Instance truthy_number : Truthy number :=
  λ n, match n with NaN => false | Int z => truthy z end.
#[global] Instance truthy_nullable {A} `{Truthy A} : Truthy (nullable A) :=
  λ x, match x with val a => truthy a | _ => false end.
#[global] Instance truthy_option {A} `{Truthy A} : Truthy (option A) :=
  λ x, match x with Some a => truthy a | None => false end.

(** Conversion to string inside a template literal. *)
Class Show (A : Type) : Type := show : A → string.

#[global] Instance show_Z : Show Z := λ z, pretty z.
#[global] Instance show_string : Show string := λ s, s.
#[global] Instance show_float `{Runtime} : Show float := Number_toString.
#[global] Instance show_number : Show number :=
  λ n, match n with NaN => "NaN" | Int z => show z end.
#[global] Instance show_nullable {A} `{Show A} : Show (nullable A) :=
  λ x, match x with
       | undefined => "undefined"
       | null => "null"
       | val a => show a
       end.

(** [Array.prototype.join()] with its default separator. *)
Fixpoint join (l : list string) : string :=
  match l with
  | [] => ""
  | [s] => s
  | s :: l' => s +:+ "," +:+ join l'
  end.

(** *** parseInt *)

Definition is_space (a : ascii) : bool :=
  let n := nat_of_ascii a in
  (n =? 32)%nat || ((9 <=? n)%nat && (n <=? 13)%nat).

Fixpoint trim_start (s : string) : string :=
  match s with
  | String a s' => if is_space a then trim_start s' else s
  | EmptyString => s
  end.

Definition digit_value (radix : Z) (a : ascii) : option Z :=
  let n := Z.of_nat (nat_of_ascii a) in
  let d :=
    if (48 <=? n)%Z && (n <=? 57)%Z then Some (n - 48)%Z
    else if (97 <=? n)%Z && (n <=? 122)%Z then Some (n - 87)%Z
    else if (65 <=? n)%Z && (n <=? 90)%Z then Some (n - 55)%Z
    else None in
  match d with
  | Some v => if (v <? radix)%Z then Some v else None
  | None => None
  end.

(** The longest prefix of digits, most significant first. *)
Fixpoint parse_digits (radix : Z) (s : string) (acc : option Z) : option Z :=
  match s with
  | String a s' =>
      match digit_value radix a with
      | Some d =>
          parse_digits radix s'
            (Some (match acc with Some n => n * radix + d | None => d end)%Z)
      | None => acc
      end
  | EmptyString => acc
  end.

Definition parseInt (input : string) : number :=
  let s := trim_start input in
  let '(sign, s) :=
    match s with
    | String "-" s' => ((-1)%Z, s')
    | String "+" s' => (1%Z, s')
    | _ => (1%Z, s)
    end in
  let '(radix, s) :=
    match s with
    | String "0" (String "x" s') | String "0" (String "X" s') => (16%Z, s')
    | _ => (10%Z, s)
    end in
  match parse_digits radix s None with
  | Some n => Int (sign * n)
  | None => NaN
  end.

(** [String.prototype.startsWith] *)
Fixpoint starts_with (prefix s : string) : bool :=
  match prefix with
  | EmptyString => true
  | String a prefix' =>
      match s with
      | String b s' => Ascii.eqb a b && starts_with prefix' s'
      | EmptyString => false
      end
  end.

(** [String.prototype.split(sep)[0]] for a one-character separator. *)
Fixpoint split_head (sep : ascii) (s : string) : string :=
  match s with
  | String a s' => if Ascii.eqb a sep then "" else String a (split_head sep s')
  | EmptyString => ""
  end.

(** *** Doubles *)

Definition float_of_Z (z : Z) : float :=
  SF2Prim (binary_normalize prec emax z 0 false).

Definition float_of_number (n : number) : float :=
  match n with
  | NaN => PrimFloat.nan
  | Int z => float_of_Z z
  end.

(** [ToNumber] on an integer argument that may be missing. *)
Definition to_number (x : nullable Z) : float :=
  match x with
  | undefined => PrimFloat.nan
  | null => float_of_Z 0
  | val z => float_of_Z z
  end.

Fixpoint zeros (n : nat) : string :=
  match n with
  | O => ""
  | S n' => String "0" (zeros n')
  end.

(** The digits of [n / 10^6] with exactly six decimals, [0 <= n]. *)
Definition fixed6 (n : Z) : string :=
  let frac := pretty (n mod 1000000)%Z in
  pretty (n / 1000000)%Z +:+ "." +:+ zeros (6 - String.length frac) +:+ frac.

(** [Number.prototype.toFixed(6)]: the integer [n] with [n / 10^6] nearest
    to the double (the larger one on a tie), then its decimal digits. *)
Definition toFixed6 `{Runtime} (x : float) : string :=
  match Prim2SF x with
  | S754_nan => "NaN"
  | S754_infinity s => if s then "-Infinity" else "Infinity"
  | S754_zero _ => "0.000000"
  | S754_finite s m e =>
      let m := Z.pos m in
      if (0 <=? e)%Z && (10 ^ 21 <=? m * 2 ^ e)%Z then Number_toString x
      else
        let n :=
          if (0 <=? e)%Z then (m * 2 ^ e * 1000000)%Z
          else ((2 * m * 1000000 + 2 ^ (- e)) / 2 ^ (1 - e))%Z in
        (if s then "-" else "") +:+ fixed6 n
  end.

(** ** Exceptions and results *)

Inductive exn : Type :=
| Error (message : string)
| TypeError (message : string)
| WrongFileTypeError.

Inductive result (A : Type) : Type :=
| Ok (a : A)
| Throw (e : exn).
Arguments Ok {A} a.
Arguments Throw {A} e.

Definition result_bind {A B} (r : result A) (k : A → result B) : result B :=
  match r with
  | Ok a => k a
  | Throw e => Throw e
  end.

(** ** Probe data and field arguments (types.ts, fluent-ffmpeg) *)

(** A field of the probe output as fluent-ffmpeg hands it over: a value
    written as a plain decimal has become a number, every other value
    (["N/A"], ["30/1"]) is still a string.  As elsewhere, a number that is an
    integer is kept apart from the other doubles. *)
Inductive ProbeValue : Type :=
| probe_int (z : Z)
| probe_float (x : float)
| probe_string (s : string).

#[global] Instance truthy_ProbeValue : Truthy ProbeValue :=
  λ v, match v with
       | probe_int z => truthy z
       | probe_float x => truthy x
       | probe_string s => truthy s
       end.

#[global] Instance show_ProbeValue `{Runtime} : Show ProbeValue :=
  λ v, match v with
       | probe_int z => show z
       | probe_float x => show x
       | probe_string s => s
       end.

Record FfprobeStream : Type := {
  codec_type : option string;
  r_frame_rate : option string;
  duration : option ProbeValue;
  width : option Z;
  height : option Z;
}.

Record FfprobeData : Type := {
  streams : list FfprobeStream;
}.

Record VideoStreamMetadata : Type := {
  videoStream : FfprobeStream;
  currentFps : number;
}.

Record DefaultTransformerFieldArgs : Type := {
  maxWidth : nullable Z;
  maxHeight : nullable Z;
  fa_duration : nullable Z;
  fps : nullable Z;
  saturation : nullable float;
  overlay : nullable string;
  overlayX : nullable string;
  overlayY : nullable string;
  overlayPadding : nullable Z;
  publicPath : nullable string;
}.

(** ** Filter graph (ffmpeg.ts) *)

Definition generateScaleFilter (maxWidth maxHeight : nullable Z) : string :=
  if negb (truthy maxHeight) then
    "'min(" +:+ show maxWidth +:+ ",iw)':-2:flags=lanczos"
  else
    "'min(iw*min(1\,min(" +:+ show maxWidth +:+ "/iw\," +:+ show maxHeight
      +:+ "/ih)), iw)':-2:flags=lanczos".

(** [padding.toString()]: a method call, so it throws on [null]. *)
Definition padding_toString (padding : nullable Z) : result string :=
  match padding with
  | val z => Ok (show z)
  | _ => Throw (TypeError "Cannot read properties of null (reading 'toString')")
  end.

Definition strict_eq (x : nullable string) (s : string) : bool :=
  match x with
  | val t => String.eqb t s
  | _ => false
  end.

(** One overlay coordinate: the three consecutive [if]s on [x] (or [y]). *)
Definition overlay_coordinate (axis : string) (padding : nullable Z)
    (requested : nullable string) : result (nullable string) :=
  let x := match requested with undefined => val "center" | _ => requested end in
  result_bind
    (if strict_eq x "start"
     then result_bind (padding_toString padding) (λ s, Ok (val s))
     else Ok x)
    (λ x,
      let x :=
        if strict_eq x "center"
        then val ("(main_" +:+ axis +:+ "-overlay_" +:+ axis +:+ ")/2")
        else x in
      let x :=
        if strict_eq x "end"
        then val ("main_" +:+ axis +:+ "-overlay_" +:+ axis +:+ "-"
                    +:+ show padding)
        else x in
      Ok x).

Definition createFilters `{Runtime} (fieldArgs : DefaultTransformerFieldArgs)
    (info : FfprobeData) : result (list string) :=
  match streams info with
  | [] =>
      Throw (TypeError
        "Cannot destructure property 'duration' of 'info.streams[0]' as it is undefined.")
  | stream0 :: _ =>
      let sourceDuration := duration stream0 in
      let filters : list string := [] in
      let filters :=
        if truthy (fa_duration fieldArgs) && truthy sourceDuration then
          filters ++
            ["setpts=" +:+
               toFixed6
                 (PrimFloat.div (to_number (fa_duration fieldArgs))
                    (float_of_number
                       (parseInt (from_option show "undefined" sourceDuration))))
               +:+ "*PTS"]
        else filters in
      let filters :=
        if truthy (fps fieldArgs) then
          filters ++ ["fps=" +:+ show (fps fieldArgs)]
        else filters in
      let filters :=
        if truthy (maxWidth fieldArgs) || truthy (maxHeight fieldArgs) then
          filters ++
            ["scale=" +:+
               generateScaleFilter (maxWidth fieldArgs) (maxHeight fieldArgs)]
        else filters in
      let filters :=
        match saturation fieldArgs with
        | val s =>
            if PrimFloat.eqb s 1 then filters
            else filters ++ ["eq=saturation=" +:+ show (saturation fieldArgs)]
        | _ => filters ++ ["eq=saturation=" +:+ show (saturation fieldArgs)]
        end in
      if truthy (overlay fieldArgs) then
        let padding :=
          match overlayPadding fieldArgs with
          | undefined => val 10%Z
          | p => p
          end in
        result_bind (overlay_coordinate "w" padding (overlayX fieldArgs)) (λ x,
        result_bind (overlay_coordinate "h" padding (overlayY fieldArgs)) (λ y,
          Ok (filters ++ ["overlay=x=" +:+ show x +:+ ":y=" +:+ show y])))
      else Ok filters
  end.

(** The stage a filter expression belongs to, read off its name. *)
Inductive stage : Type :=
| TimeRemap
| FrameRate
| Scale
| Saturation
| Overlay.

Definition stage_of (filter : string) : option stage :=
  if starts_with "setpts=" filter then Some TimeRemap
  else if starts_with "fps=" filter then Some FrameRate
  else if starts_with "scale=" filter then Some Scale
  else if starts_with "eq=saturation=" filter then Some Saturation
  else if starts_with "overlay=" filter then Some Overlay
  else None.

(** The option set of the filter-ordering example. *)
Definition example_fieldArgs : DefaultTransformerFieldArgs := {|
  maxWidth := val 600%Z;
  maxHeight := null;
  fa_duration := val 2%Z;
  fps := val 4%Z;
  saturation := val 1%float;
  overlay := null;
  overlayX := val "center";
  overlayY := val "center";
  overlayPadding := val 10%Z;
  publicPath := val "static/videos";
|}.

Definition example_info : FfprobeData := {|
  streams := [ {| codec_type := Some "video";
                  r_frame_rate := Some "30/1";
                  duration := Some (probe_int 10);
                  width := Some 1280%Z;
                  height := Some 720%Z |} ];
|}.

(** Locates the video stream and returns its metadata. *)
Definition parseVideoStream (streams : list FfprobeStream)
    : result VideoStreamMetadata :=
  let videoStream :=
    List.find (λ stream, bool_decide (codec_type stream = Some "video"))
      streams in
  match videoStream with
  | Some vs =>
      if negb (truthy (r_frame_rate vs)) then
        Throw (Error "Could not parse video")
      else
        Ok {| videoStream := vs;
              currentFps :=
                parseInt (split_head "/" (default "" (r_frame_rate vs))) |}
  | None => Throw (Error "Could not parse video")
  end.

(** ** The transcoder session (fluent-ffmpeg's [FfmpegCommand]) *)

Record FfmpegCommand : Type := {
  inputs : list string;
  videoCodec : option string;
  complexFilter : list string;
  outputOptions : list string;
  audioCodec : option string;
  audioQuality : option Z;
  audioChannels : option Z;
  noAudio : bool;
  outputDuration : option Z;
}.

Definition new_session (sourcePath : string) : FfmpegCommand := {|
  inputs := [sourcePath];
  videoCodec := None;
  complexFilter := [];
  outputOptions := [];
  audioCodec := None;
  audioQuality := None;
  audioChannels := None;
  noAudio := false;
  outputDuration := None;
|}.

(** [[...].filter(Boolean).map(v => v.toString())] on an array whose entries
    are either a falsy operand of [&&] ([None]) or a template string. *)
Definition filter_Boolean (entries : list (option string)) : list string :=
  omap id entries.

(** [c && s] where [s] is a non-empty template string. *)
Definition and_then (c : bool) (s : string) : option string :=
  if c then Some s else None.

(** [fps || currentFps] *)
Definition or_number (a : nullable Z) (b : number) : number :=
  match a with
  | val z => if truthy z then Int z else b
  | _ => b
  end.

(** [Math.floor(x / 2)] *)
Definition floor_half (x : number) : number :=
  match x with
  | NaN => NaN
  | Int z => Int (z / 2)
  end.

(** ** Profiles *)

Record H264TransformerFieldArgs : Type := {
  h264_base : DefaultTransformerFieldArgs;
  h264_crf : nullable Z;
  h264_preset : nullable string;
  h264_maxRate : nullable string;
  h264_bufSize : nullable string;
}.

Record H265TransformerFieldArgs : Type := {
  h265_base : DefaultTransformerFieldArgs;
  h265_crf : nullable Z;
  h265_preset : nullable string;
  h265_maxRate : nullable string;
  h265_bufSize : nullable string;
}.

Record VP9TransformerFieldArgs : Type := {
  vp9_base : DefaultTransformerFieldArgs;
  vp9_crf : nullable Z;
  bitRate : nullable string;
  minRate : nullable string;
  maxRate : nullable string;
  cpuUsed : nullable Z;
}.

Definition tab : string := String (ascii_of_nat 9) "".

Definition h264_outputOptions (fieldArgs : H264TransformerFieldArgs)
    (currentFps : number) : list string :=
  let crf := h264_crf fieldArgs in
  let preset := h264_preset fieldArgs in
  let maxRate := h264_maxRate fieldArgs in
  let bufSize := h264_bufSize fieldArgs in
  let fps := fps (h264_base fieldArgs) in
  filter_Boolean [
    and_then (truthy crf) ("-crf " +:+ show crf);
    and_then (truthy preset) ("-preset " +:+ show preset);
    and_then (negb (truthy crf) && truthy maxRate) ("-maxrate " +:+ show maxRate);
    and_then (negb (truthy crf) && truthy bufSize) ("-bufsize " +:+ show bufSize);
    Some "-movflags +faststart";
    Some "-profile:v high";
    Some ("-bf 2" +:+ tab);
    Some ("-g " +:+ show (floor_half (or_number fps currentFps)));
    Some "-coder 1";
    Some "-pix_fmt yuv420p"
  ].

Definition profileH264 (ffmpegSession : FfmpegCommand) (filters : list string)
    (fieldArgs : H264TransformerFieldArgs)
    (videoStreamMetadata : VideoStreamMetadata) : FfmpegCommand :=
  {| inputs := inputs ffmpegSession;
     videoCodec := Some "libx264";
     complexFilter := [join filters];
     outputOptions :=
       outputOptions ffmpegSession ++
       h264_outputOptions fieldArgs (currentFps videoStreamMetadata);
     audioCodec := Some "aac";
     audioQuality := Some 5%Z;
     audioChannels := Some 2%Z;
     noAudio := noAudio ffmpegSession;
     outputDuration := outputDuration ffmpegSession |}.

Definition h265_outputOptions (fieldArgs : H265TransformerFieldArgs)
    (currentFps : number) : list string :=
  let crf := h265_crf fieldArgs in
  let preset := h265_preset fieldArgs in
  let maxRate := h265_maxRate fieldArgs in
  let bufSize := h265_bufSize fieldArgs in
  let fps := fps (h265_base fieldArgs) in
  filter_Boolean [
    and_then (truthy crf) ("-crf " +:+ show crf);
    and_then (truthy preset) ("-preset " +:+ show preset);
    and_then (negb (truthy crf) && truthy maxRate && truthy bufSize)
      ("-x265-params vbv-maxrate=" +:+ show maxRate +:+ ":vbv-bufsize="
         +:+ show bufSize);
    Some "-movflags +faststart";
    Some "-bf 2";
    Some ("-g " +:+ show (floor_half (or_number fps currentFps)));
    Some "-pix_fmt yuv420p";
    Some "-tag:v hvc1"
  ].

Definition profileH265 (ffmpegSession : FfmpegCommand) (filters : list string)
    (fieldArgs : H265TransformerFieldArgs)
    (videoStreamMetadata : VideoStreamMetadata) : FfmpegCommand :=
  {| inputs := inputs ffmpegSession;
     videoCodec := Some "libx265";
     complexFilter := [join filters];
     outputOptions :=
       outputOptions ffmpegSession ++
       h265_outputOptions fieldArgs (currentFps videoStreamMetadata);
     audioCodec := Some "aac";
     audioQuality := Some 5%Z;
     audioChannels := Some 2%Z;
     noAudio := noAudio ffmpegSession;
     outputDuration := outputDuration ffmpegSession |}.

(** *** VP9 *)

(** Target, minimum and maximum bitrate of one bucket. *)
Definition BitRate : Type := list (Z * (string * string * string)).

(** The object literal [bitrateMap]; [Object.keys] enumerates its integer
    keys in ascending order, which is the order written here. *)
Definition bitrateMap : list (Z * BitRate) := [
  (240, [(30, ("150k", "75k", "218k"))]);
  (360, [(30, ("276k", "138k", "400k"))]);
  (480, [(30, ("750k", "375k", "1088k"))]);
  (720, [(30, ("1024k", "512k", "1485k")); (60, ("1800k", "900k", "2610k"))]);
  (1080, [(30, ("1800k", "900k", "2610k")); (60, ("3000k", "1500k", "4350k"))]);
  (1440, [(30, ("6000k", "3000k", "8700k")); (60, ("9000k", "4500k", "13050k"))]);
  (2160, [(30, ("12000k", "6000k", "17400k")); (60, ("18000k", "9000k", "26100k"))])
]%Z.

(** Property access [obj[key]]; [None] is [undefined]. *)
Fixpoint get {V} (obj : list (Z * V)) (key : Z) : option V :=
  match obj with
  | [] => None
  | (k, v) :: rest => if (k =? key)%Z then Some v else get rest key
  end.

Definition Object_keys {V} (obj : option (list (Z * V))) : result (list Z) :=
  match obj with
  | Some o => Ok (o.*1)
  | None => Throw (TypeError "Cannot convert undefined or null to object")
  end.

(** [Math.abs(curr - target) < Math.abs(prev - target)]; a comparison with
    [NaN] is false. *)
Definition closer (target : number) (curr prev : Z) : bool :=
  match target with
  | NaN => false
  | Int t => (Z.abs (curr - t) <? Z.abs (prev - t))%Z
  end.

(** [keys.reduce((prev, curr) => closer ? curr : prev, seed)] *)
Definition closest_from (target : number) (seed : Z) (keys : list Z) : Z :=
  foldl (λ prev curr, if closer target curr prev then curr else prev) seed keys.

Definition closest (target : number) (keys : list Z) : Z :=
  closest_from target 0%Z keys.

(** [explicit || bitrateMap[resolution][fps][i]] *)
Definition applied_rate (explicit : nullable string) (resolution fps : Z)
    (pick : string * string * string → string) : result string :=
  let fallback :=
    match get bitrateMap resolution ≫= λ bucket, get bucket fps with
    | Some rates => Ok (pick rates)
    | None =>
        Throw (TypeError "Cannot read properties of undefined (reading '0')")
    end in
  match explicit with
  | val s => if truthy s then Ok s else fallback
  | _ => fallback
  end.

(** [appliedFps * 8] *)
Definition times8 (x : number) : number :=
  match x with
  | NaN => NaN
  | Int z => Int (z * 8)
  end.

Record VP9Selection : Type := {
  dimensionMin : Z;
  appliedFps : number;
  closestResolution : Z;
  closestFps : Z;
  appliedBitrate : string;
  appliedMinrate : string;
  appliedMaxrate : string;
}.

(** The body of [profileVP9] up to the bitrate triplet. *)
Definition vp9_select (fieldArgs : VP9TransformerFieldArgs)
    (videoStreamMetadata : VideoStreamMetadata) : result VP9Selection :=
  let currentFps := currentFps videoStreamMetadata in
  let videoStream := videoStream videoStreamMetadata in
  let dimensionMin :=
    Z.min (default 0%Z (width videoStream)) (default 0%Z (height videoStream)) in
  let appliedFps := or_number (fps (vp9_base fieldArgs)) currentFps in
  result_bind (Object_keys (Some bitrateMap)) (λ resolutions,
  let closestResolution := closest (Int dimensionMin) resolutions in
  result_bind (Object_keys (get bitrateMap closestResolution)) (λ rates,
  let closestFps := closest appliedFps rates in
  result_bind
    (applied_rate (bitRate fieldArgs) closestResolution closestFps (λ r, r.1.1))
    (λ appliedBitrate,
  result_bind
    (applied_rate (minRate fieldArgs) closestResolution closestFps (λ r, r.1.2))
    (λ appliedMinrate,
  result_bind
    (applied_rate (maxRate fieldArgs) closestResolution closestFps (λ r, r.2))
    (λ appliedMaxrate,
  Ok {| dimensionMin := dimensionMin;
        appliedFps := appliedFps;
        closestResolution := closestResolution;
        closestFps := closestFps;
        appliedBitrate := appliedBitrate;
        appliedMinrate := appliedMinrate;
        appliedMaxrate := appliedMaxrate |}))))).

Definition vp9_outputOptions (fieldArgs : VP9TransformerFieldArgs)
    (sel : VP9Selection) : list string :=
  let crf := vp9_crf fieldArgs in
  filter_Boolean [
    and_then (truthy crf) ("-crf " +:+ show crf);
    Some ("-b:v " +:+ appliedBitrate sel);
    Some ("-minrate " +:+ appliedMinrate sel);
    Some ("-maxrate " +:+ appliedMaxrate sel);
    Some ("-cpu-used " +:+ show (cpuUsed fieldArgs));
    Some ("-g " +:+ show (times8 (appliedFps sel)));
    Some "-pix_fmt yuv420p"
  ].

Definition profileVP9 (ffmpegSession : FfmpegCommand) (filters : list string)
    (fieldArgs : VP9TransformerFieldArgs)
    (videoStreamMetadata : VideoStreamMetadata) : result FfmpegCommand :=
  result_bind (vp9_select fieldArgs videoStreamMetadata) (λ sel,
  Ok {| inputs := inputs ffmpegSession;
        videoCodec := Some "libvpx-vp9";
        complexFilter := [join filters];
        outputOptions :=
          outputOptions ffmpegSession ++ vp9_outputOptions fieldArgs sel;
        audioCodec := Some "libopus";
        audioQuality := audioQuality ffmpegSession;
        audioChannels := audioChannels ffmpegSession;
        noAudio := noAudio ffmpegSession;
        outputDuration := outputDuration ffmpegSession |}).

(** ** File system (fs-extra) and sequential effects *)

Definition path : Type := list string.

Inductive node : Type :=
| Dir
| File (content : string).

(** The state of the disk.  Failures that do not follow from which paths
    exist (permissions, full disks) are not modelled. *)
Abbreviation disk := (gmap path node).

(** An asynchronous function: it runs to completion on the disk and either
    resolves with a value or rejects with an exception; what it wrote before
    rejecting stays written. *)
Definition M (A : Type) : Type := disk → disk * result A.

Definition ret {A} (a : A) : M A := λ σ, (σ, Ok a).

Definition bind {A B} (m : M A) (k : A → M B) : M B := λ σ,
  match m σ with
  | (σ', Ok a) => k a σ'
  | (σ', Throw e) => (σ', Throw e)
  end.

Notation "'let!' x ':=' m 'in' k" := (bind m (λ x, k))
  (at level 10, x name, m at level 100, k at level 200,
   format "'[v' 'let!'  x  ':='  m  'in' '/' k ']'").
Notation "m ';;' k" := (bind m (λ _, k))
  (at level 100, k at level 200, right associativity,
   format "'[v' m  ';;' '/' k ']'").

Definition throw {A} (e : exn) : M A := λ σ, (σ, Throw e).

Definition lift {A} (r : result A) : M A := λ σ, (σ, r).

(** [try { body } catch (err) { handler(err) }] *)
Definition try_catch {A} (body : M A) (handler : exn → M A) : M A := λ σ,
  match body σ with
  | (σ', Ok a) => (σ', Ok a)
  | (σ', Throw e) => handler e σ'
  end.

Definition under (root : path) (p : path) : bool :=
  bool_decide (root `prefix_of` p).

(** All ancestors of a path, the root and the path itself included. *)
Definition ancestors (p : path) : list path :=
  (λ n, take n p) <$> seq 0 (S (length p)).

(** [path.dirname] *)
Definition dirname (p : path) : path := take (length p - 1) p.

(** The disk without the subtree at [root] ([rm -rf]). *)
Definition remove_tree (root : path) (σ : disk) : disk :=
  filter (λ entry, ¬ root `prefix_of` entry.1) σ.

(** [mkdir -p]: every missing ancestor becomes a directory. *)
Definition mkdirs (p : path) (σ : disk) : disk :=
  foldr (λ d σ, match σ !! d with Some _ => σ | None => <[d := Dir]> σ end)
    σ (ancestors p).

(** Re-rooting of paths: below [src] to below [dest], and conversely, so
    that it is a bijection on paths when neither contains the other. *)
Definition reroot (src dest : path) (p : path) : path :=
  if under src p then dest ++ drop (length src) p
  else if under dest p then src ++ drop (length dest) p
  else p.

(** [rename(2)]: the subtree at [src] becomes the subtree at [dest],
    replacing what was there. *)
Definition rename_tree (src dest : path) (σ : disk) : disk :=
  kmap (reroot src dest) (remove_tree dest σ).

(** The subtree at [src] copied over [dest], existing entries overwritten. *)
Definition copy_tree (src dest : path) (σ : disk) : disk :=
  kmap (reroot src dest) (filter (λ entry, src `prefix_of` entry.1) σ) ∪ σ.

Definition modify (f : disk → disk) : M () := λ σ, (f σ, Ok ()).

Definition pathExists (p : path) : M bool := λ σ,
  (σ, Ok (bool_decide (is_Some (σ !! p)))).

Definition remove (p : path) : M () := modify (remove_tree p).

Definition ensureDir (p : path) : M () := modify (mkdirs p).

(** The checks shared by [move] and [copy] ([stat.checkPaths]). *)
Definition checkPaths (src dest : path) : M () := λ σ,
  match σ !! src with
  | None => (σ, Throw (Error "ENOENT: no such file or directory"))
  | Some _ =>
      if bool_decide (src = dest) then
        (σ, Throw (Error "Source and destination must not be the same."))
      else if under src dest then
        (σ, Throw (Error "Cannot move or copy to a subdirectory of itself"))
      else (σ, Ok ())
  end.

(** [move(src, dest)] with the default [overwrite: false]. *)
Definition move (src dest : path) : M () :=
  checkPaths src dest;;
  ensureDir (dirname dest);;
  let! destExists := pathExists dest in
  if destExists then throw (Error "dest already exists.")
  else modify (rename_tree src dest).

(** [copy(src, dest)]; [overwrite] defaults to [true], which is also what
    the one explicit option passed in this program asks for. *)
Definition copy (src dest : path) : M () :=
  checkPaths src dest;;
  ensureDir (dirname dest);;
  modify (copy_tree src dest).

(** [stat(p).size]; the size reported for a directory depends on the
    platform and is taken to be zero. *)
Definition stat_size (p : path) : M nat := λ σ,
  match σ !! p with
  | Some (File content) => (σ, Ok (String.length content))
  | Some Dir => (σ, Ok 0)
  | None => (σ, Throw (Error "ENOENT: no such file or directory"))
  end.

(** ** The cache tiers *)

(** Restore file either from active or rolling cache directory. *)
Definition restoreFromCache (activePath rollingPath : path) : M bool :=
  let! inActiveCache := pathExists activePath in
  if negb inActiveCache then
    let! inRollingCached := pathExists rollingPath in
    if inRollingCached then
      move rollingPath activePath;;
      ret true
    else ret inActiveCache
  else ret inActiveCache.

(** Prepare rolling cache (the part of [onPreInit] before the binaries). *)
Definition onPreInit (NODE_ENV : option string)
    (cachePathActive cachePathRolling : path) : M () :=
  if bool_decide (NODE_ENV = Some "production") then
    let! hasActiveCache := pathExists cachePathActive in
    let! hasRollingCache := pathExists cachePathRolling in
    (if hasRollingCache && hasActiveCache then remove cachePathRolling
     else ret ());;
    if hasActiveCache then move cachePathActive cachePathRolling
    else ret ()
  else ret ().

(** Clean up rolling cache. *)
Definition onPostBuild (NODE_ENV : option string)
    (cachePathActive cachePathRolling : path) : M () :=
  let! hasActiveCache := pathExists cachePathActive in
  let! hasRollingCache := pathExists cachePathRolling in
  (if negb hasActiveCache && hasRollingCache
      && bool_decide (NODE_ENV = Some "production")
   then move cachePathRolling cachePathActive
   else ret ());;
  if hasActiveCache && hasRollingCache
     && bool_decide (NODE_ENV = Some "production")
  then remove cachePathRolling
  else ret ().

(** ** Paths (Node's [path] module) *)

(** [String.prototype.split(sep)] *)
Fixpoint split_on (sep : ascii) (s : string) : list string :=
  match s with
  | EmptyString => [""]
  | String a s' =>
      if Ascii.eqb a sep then "" :: split_on sep s'
      else
        match split_on sep s' with
        | first :: rest => String a first :: rest
        | [] => [String a ""]
        end
  end.

Definition normalize_step (p : path) (component : string) : path :=
  if String.eqb component "" || String.eqb component "." then p
  else if String.eqb component ".." then removelast p
  else p ++ [component].

(** [path.resolve(base, ...segments)] for an absolute [base]: a segment
    that starts with a slash starts again from the root. *)
Definition resolve (base : path) (segments : list string) : path :=
  foldl (λ p segment,
           foldl normalize_step
             (if starts_with "/" segment then [] else p)
             (split_on "/" segment))
    base segments.

Fixpoint path_string (p : path) : string :=
  match p with
  | [] => ""
  | component :: rest => "/" +:+ component +:+ path_string rest
  end.

(** ** Conversion (ffmpeg.ts) *)

(** What the transcoder process had done when fluent-ffmpeg fired [end] or
    [error]: the output is written by the process itself, at the path given
    to [save]. *)
Inductive ProcessExit : Type :=
| ProcessEnd (output : string)
| ProcessError (err : exn) (written : option string).

(** The external transcoder. *)
Class Transcoder : Type :=
  spawn_ffmpeg : FfmpegCommand → path → disk → ProcessExit.

(** Execute FFMPEG: the promise resolves on [end] and rejects on [error]. *)
Definition executeFfmpeg `{Transcoder} (ffmpegSession : FfmpegCommand)
    (cachePath : path) : M () := λ σ,
  match spawn_ffmpeg ffmpegSession cachePath σ with
  | ProcessEnd output => (<[cachePath := File output]> σ, Ok ())
  | ProcessError err written =>
      (match written with
       | Some partial => <[cachePath := File partial]> σ
       | None => σ
       end, Throw err)
  end.

Record FFMPEG : Type := {
  cachePathActive : path;
  cachePathRolling : path;
  rootDir : path;
}.

(** Apply required changes from some filters to the session. *)
Definition enhanceFfmpegForFilters (self : FFMPEG)
    (fieldArgs : DefaultTransformerFieldArgs) (ffmpegSession : FfmpegCommand)
    : FfmpegCommand :=
  let ffmpegSession :=
    match fa_duration fieldArgs with
    | val d =>
        if truthy d then
          {| inputs := inputs ffmpegSession;
             videoCodec := videoCodec ffmpegSession;
             complexFilter := complexFilter ffmpegSession;
             outputOptions := outputOptions ffmpegSession;
             audioCodec := None;
             audioQuality := None;
             audioChannels := None;
             noAudio := true;
             outputDuration := Some d |}
        else ffmpegSession
    | _ => ffmpegSession
    end in
  match overlay fieldArgs with
  | val o =>
      if truthy o then
        {| inputs :=
             inputs ffmpegSession ++ [path_string (resolve (rootDir self) [o])];
           videoCodec := videoCodec ffmpegSession;
           complexFilter := complexFilter ffmpegSession;
           outputOptions := outputOptions ffmpegSession;
           audioCodec := audioCodec ffmpegSession;
           audioQuality := audioQuality ffmpegSession;
           audioChannels := audioChannels ffmpegSession;
           noAudio := noAudio ffmpegSession;
           outputDuration := outputDuration ffmpegSession |}
      else ffmpegSession
  | _ => ffmpegSession
  end.

(** A profile configures the session from the filters, the field arguments
    and the stream metadata; it may throw. *)
Definition Profile (T : Type) : Type :=
  FfmpegCommand → list string → T → VideoStreamMetadata → result FfmpegCommand.

(** [T extends DefaultTransformerFieldArgs] *)
Class Extends (T : Type) : Type := defaults : T → DefaultTransformerFieldArgs.

#[global] Instance extends_default : Extends DefaultTransformerFieldArgs := id.
#[global] Instance extends_h264 : Extends H264TransformerFieldArgs := h264_base.
#[global] Instance extends_h265 : Extends H265TransformerFieldArgs := h265_base.
#[global] Instance extends_vp9 : Extends VP9TransformerFieldArgs := vp9_base.

Record ConvertVideoArgs (T : Type) : Type := {
  profile : Profile T;
  filename : string;
  sourcePath : string;
  publicDir : path;
  fieldArgs : T;
  info : FfprobeData;
}.
Arguments profile {T} _.
Arguments filename {T} _.
Arguments sourcePath {T} _.
Arguments publicDir {T} _.
Arguments fieldArgs {T} _.
Arguments info {T} _.

Record ConvertVideoResult : Type := {
  publicPath_of : path;
}.

(** Converts a video based on a given profile, populates cache and public
    dir. *)
Definition convertVideo {T} `{Extends T, Runtime, Transcoder} (self : FFMPEG)
    (args : ConvertVideoArgs T) : M ConvertVideoResult :=
  let activePath := resolve (cachePathActive self) ["videos"; filename args] in
  let rollingPath := resolve (cachePathRolling self) ["videos"; filename args] in
  let! restoredFromCache := restoreFromCache activePath rollingPath in
  (if negb restoredFromCache then
     let cachePath := activePath in
     let dir := dirname activePath in
     ensureDir dir;;
     let ffmpegSession := new_session (sourcePath args) in
     let! filters := lift (createFilters (defaults (fieldArgs args)) (info args)) in
     let! videoStreamMetadata := lift (parseVideoStream (streams (info args))) in
     let! ffmpegSession :=
       lift (profile args ffmpegSession filters (fieldArgs args)
               videoStreamMetadata) in
     let ffmpegSession :=
       enhanceFfmpegForFilters self (defaults (fieldArgs args)) ffmpegSession in
     executeFfmpeg ffmpegSession cachePath
   else ret ());;
  let publicPath := resolve (publicDir args) ["videos"; filename args] in
  let! publicExists := pathExists publicPath in
  (if negb publicExists then copy activePath publicPath else ret ());;
  let! cacheFileStats := stat_size activePath in
  let! publicFileStats := stat_size publicPath in
  (if publicExists && negb (cacheFileStats =? publicFileStats)
   then copy activePath publicPath
   else ret ());;
  ret {| publicPath_of := publicPath |}.

(** ** Source analysis and cache keys *)

(** The values held by a GraphQL argument object or a node field. *)
Inductive scalar : Type :=
| s_undefined
| s_null
| s_int (z : Z)
| s_float (x : float)
| s_string (s : string).

(** A JavaScript object literal: its own properties in insertion order. *)
Definition JsObject : Type := list (string * scalar).

Inductive JsValue : Type :=
| JsArray (items : list scalar)
| JsObj (entries : JsObject).

#[global] Instance show_scalar `{Runtime} : Show scalar :=
  λ v, match v with
       | s_undefined => "undefined"
       | s_null => "null"
       | s_int z => show z
       | s_float x => show x
       | s_string s => s
       end.

Definition key_le : relation (string * scalar) :=
  λ e1 e2, String.leb e1.1 e2.1 = true.

#[global] Instance key_le_dec : RelDecision key_le.
Proof. intros e1 e2. unfold key_le. apply _. Defined.

(** Modelled from the spec: the object hasher behind [createContentDigest]
    (gatsby-core-utils) is not part of the sources; an option map is
    canonicalized, its entries put in the order of their keys, before it is
    serialized, and arrays keep their order. *)
Definition canonicalize `{Runtime} (input : JsValue) : string :=
  match input with
  | JsArray items => "[" +:+ join (show <$> items) +:+ "]"
  | JsObj entries =>
      "{" +:+
        join ((λ e, e.1 +:+ ":" +:+ show e.2) <$> merge_sort key_le entries)
      +:+ "}"
  end.

Record ParsedPath : Type := {
  parsed_name : string;
  parsed_ext : string;
}.

(** Collaborators outside the sources: the digest function, [path.parse],
    the queued remote fetch and the prober. *)
Class Host : Type := {
  md5 : string → string;
  parse : string → ParsedPath;
  queueFetchRemoteFile : string → string → M string;
  executeFfprobe : string → M FfprobeData;
}.

(** Modelled from the spec: [createContentDigest] hashes the canonical
    form of its argument. *)
Definition createContentDigest `{Runtime, Host} (input : JsValue) : string :=
  md5 (canonicalize input).

Record VideoNodeContentfulFile : Type := {
  url : string;
  fileName : string;
  details_size : string;
  contentType : string;
}.

Record VideoNode : Type := {
  internal_type : string;
  internal_contentDigest : string;
  internal_mediaType : option string;
  id : string;
  absolutePath : option string;
  file : option VideoNodeContentfulFile;
  contentful_id : option string;
  base : option string;
}.

Record VideoMetadata : Type := {
  md_path : string;
  md_filename : string;
  md_info : FfprobeData;
}.

(** Property access on a field that may be missing: [video.file.x]. *)
Definition member {A B} (what : string) (o : option A) (f : A → B) : M B :=
  match o with
  | Some a => ret (f a)
  | None =>
      throw (TypeError ("Cannot read properties of undefined (reading '"
                          +:+ what +:+ "')"))
  end.

Definition of_option (o : option string) : scalar :=
  match o with
  | Some s => s_string s
  | None => s_undefined
  end.

(** Analyze video and download if neccessary. *)
Definition analyzeAndFetchVideo `{Runtime, Host} (video : VideoNode)
    (fieldArgs : JsObject) (type : string) : M VideoMetadata :=
  let path : option string := None in
  let contentDigest := internal_contentDigest video in
  let! basename :=
    (if truthy (base video) then ret (default "" (base video))
     else member "fileName" (file video) fileName) in
  let name := parsed_name (parse basename) in
  let path := if String.eqb type "File" then absolutePath video else path in
  let! located :=
    (if String.eqb type "ContentfulAsset" then
       let! fileName := member "fileName" (file video) fileName in
       let ext := parsed_ext (parse fileName) in
       let! url := member "url" (file video) url in
       let! fetched := queueFetchRemoteFile ("https:" +:+ url) ext in
       let! size := member "details" (file video) details_size in
       ret (Some fetched,
            createContentDigest
              (JsArray [of_option (contentful_id video); s_string url;
                        s_string size]))
     else ret (path, contentDigest)) in
  let path := located.1 in
  let contentDigest := located.2 in
  if negb (truthy path) then
    throw (Error ("Unable to locate video file for " +:+ type +:+ " ("
                    +:+ id video +:+ ")"))
  else
    let optionsHash := createContentDigest (JsObj fieldArgs) in
    let filename := name +:+ "-" +:+ contentDigest +:+ "-" +:+ optionsHash in
    let! info := executeFfprobe (default "" path) in
    ret {| md_path := default "" path; md_filename := filename;
           md_info := info |}.

(** ** Resolution (helpers.ts, gatsby-node.ts) *)

Record PreparedVideo : Type := {
  pv_publicDir : path;
  pv_path : string;
  pv_name : string;
  pv_info : FfprobeData;
}.

(** [obj[key]] on an object literal. *)
Fixpoint property (obj : JsObject) (key : string) : scalar :=
  match obj with
  | [] => s_undefined
  | (k, v) :: rest => if String.eqb k key then v else property rest key
  end.

(** [fileType.indexOf(needle) === -1] *)
Definition lacks (needle fileType : string) : bool :=
  match String.index 0 needle fileType with
  | Some _ => false
  | None => true
  end.

(** Get source videos metadata and download the file if required. *)
Definition prepareAndAnalyzeVideo `{Runtime, Host} (rootDir : path)
    (video : VideoNode) (fieldArgs : JsObject) : M PreparedVideo :=
  let type := internal_type video in
  let fileType : option string := None in
  let fileType :=
    if String.eqb type "File" then internal_mediaType video else fileType in
  let! fileType :=
    (if String.eqb type "ContentfulAsset"
     then member "contentType" (file video) (λ f, Some (contentType f))
     else ret fileType) in
  if negb (truthy fileType) then
    throw (Error ("Unable to extract asset file type for " +:+ type +:+ " ("
                    +:+ id video +:+ ")"))
  else if lacks "video/" (default "" fileType) then
    throw WrongFileTypeError
  else
    let! metadata := analyzeAndFetchVideo video fieldArgs type in
    match property fieldArgs "publicPath" with
    | s_string publicPath =>
        let publicDir := resolve rootDir ["public"; publicPath] in
        ensureDir publicDir;;
        ret {| pv_publicDir := publicDir; pv_path := md_path metadata;
               pv_name := md_filename metadata; pv_info := md_info metadata |}
    | _ =>
        throw (TypeError "The paths[2] argument must be of type string.")
    end.

Record VideoTransformerArgs : Type := {
  ta_video : VideoNode;
  ta_publicDir : path;
  ta_path : string;
  ta_name : string;
  ta_fieldArgs : JsObject;
  ta_info : FfprobeData;
}.

(** [err instanceof WrongFileTypeError] *)
Definition instanceof_WrongFileTypeError (err : exn) : bool :=
  match err with
  | WrongFileTypeError => true
  | _ => false
  end.

(** Resolves a video with a given transformer; [R] is the type of the
    field values computed by [processResult]. *)
Definition resolveVideo `{Runtime, Host} {R : Type} (rootDir : path)
    (transformer : VideoTransformerArgs → M ConvertVideoResult)
    (processResult : ConvertVideoResult → M R)
    (video : VideoNode) (fieldArgs : JsObject) : M (nullable R) :=
  try_catch
    (let! prepared := prepareAndAnalyzeVideo rootDir video fieldArgs in
     let! videoData :=
       transformer {| ta_video := video;
                      ta_publicDir := pv_publicDir prepared;
                      ta_path := pv_path prepared;
                      ta_name := pv_name prepared;
                      ta_fieldArgs := fieldArgs;
                      ta_info := pv_info prepared |} in
     let! fields := processResult videoData in
     ret (val fields))
    (λ err,
       if negb (instanceof_WrongFileTypeError err) then throw err
       else ret null).

(** ** Notions used in the statements, and sample data *)

(** Two directories neither of which lies inside the other. *)
Definition separate (a b : path) : Prop :=
  under a b = false ∧ under b a = false.

Definition tier_active : path := ["site"; ".cache-video"].
Definition tier_rolling : path := ["site"; ".cache-video-rolling"].

(** A disk whose only artifact is in the rolling tier. *)
Definition disk_rolling_only : disk :=
  <[tier_rolling ++ ["videos"; "clip-h264.mp4"] := File "mp4 data"]>
    (mkdirs (tier_rolling ++ ["videos"]) ∅).

(** A disk with both tiers: the active tier of the last build and a stale
    rolling tier from the build before. *)
Definition disk_both_tiers : disk :=
  <[tier_active ++ ["videos"; "clip-h264.mp4"] := File "new mp4"]>
    (mkdirs (tier_active ++ ["videos"])
       (<[tier_rolling ++ ["videos"; "old-h264.mp4"] := File "old mp4"]>
          (mkdirs (tier_rolling ++ ["videos"]) ∅))).

(** [saturation !== 1] *)
Definition saturation_differs (saturation : nullable float) : bool :=
  match saturation with
  | val s => negb (PrimFloat.eqb s 1)
  | _ => true
  end.

(** The stages requested by the field arguments, in graph order. *)
Definition requested_stages (fieldArgs : DefaultTransformerFieldArgs)
    (sourceDuration : option ProbeValue) : list (option stage) :=
  (if truthy (fa_duration fieldArgs) && truthy sourceDuration
   then [Some TimeRemap] else []) ++
  (if truthy (fps fieldArgs) then [Some FrameRate] else []) ++
  (if truthy (maxWidth fieldArgs) || truthy (maxHeight fieldArgs)
   then [Some Scale] else []) ++
  (if saturation_differs (saturation fieldArgs) then [Some Saturation] else []) ++
  (if truthy (overlay fieldArgs) then [Some Overlay] else []).

(** A stand-in for the runtime's printing of non-integral doubles in the
    examples below; none of them prints one. *)
Definition sample_runtime : Runtime := λ _, "1.5".

Definition resolutions : list Z := bitrateMap.*1.

Definition vp9_default_args : VP9TransformerFieldArgs := {|
  vp9_base := {| maxWidth := val 1920%Z; maxHeight := null;
                 fa_duration := null; fps := null;
                 saturation := val 1%float; overlay := null;
                 overlayX := val "center"; overlayY := val "center";
                 overlayPadding := val 10%Z;
                 publicPath := val "static/videos" |};
  vp9_crf := val 31%Z;
  bitRate := undefined;
  minRate := undefined;
  maxRate := undefined;
  cpuUsed := val 1%Z;
|}.

Definition probed (w h : Z) (rate : string) : list FfprobeStream :=
  [ {| codec_type := Some "video"; r_frame_rate := Some rate;
       duration := Some (probe_int 10); width := Some w; height := Some h |} ].

Definition h264_args (crf : nullable Z) (maxRate bufSize : nullable string)
    (fps : nullable Z) : H264TransformerFieldArgs := {|
  h264_base := {| maxWidth := val 1920%Z; maxHeight := null;
                  fa_duration := null; fps := fps;
                  saturation := val 1%float; overlay := null;
                  overlayX := val "center"; overlayY := val "center";
                  overlayPadding := val 10%Z;
                  publicPath := val "static/videos" |};
  h264_crf := crf;
  h264_preset := val "medium";
  h264_maxRate := maxRate;
  h264_bufSize := bufSize;
|}.

Definition h265_args (crf : nullable Z) (maxRate bufSize : nullable string)
    (fps : nullable Z) : H265TransformerFieldArgs := {|
  h265_base := h264_base (h264_args crf maxRate bufSize fps);
  h265_crf := crf;
  h265_preset := val "medium";
  h265_maxRate := maxRate;
  h265_bufSize := bufSize;
|}.

(** [targetFps]: the requested frame rate or, without one, the current
    frame rate of the source. *)
Definition targetFps (requested : nullable Z) (currentFps : number) : number :=
  match requested with
  | val z => if (z =? 0)%Z then currentFps else Int z
  | _ => currentFps
  end.

(** The digest of the source as the cache key has it. *)
Definition source_digest `{Runtime, Host} (video : VideoNode) (type : string)
    : string :=
  if String.eqb type "ContentfulAsset" then
    match file video with
    | Some f =>
        createContentDigest
          (JsArray [of_option (contentful_id video); s_string (url f);
                    s_string (details_size f)])
    | None => internal_contentDigest video
    end
  else internal_contentDigest video.

(** Stand-ins for the collaborators in the examples below. *)
Definition sample_host : Host := {|
  md5 := λ s, "md5(" +:+ s +:+ ")";
  parse := λ s, {| parsed_name := s; parsed_ext := "" |};
  queueFetchRemoteFile := λ _ _, ret "/site/.cache/remote/clip";
  executeFfprobe := λ _, ret example_info;
|}.

Definition local_video (mediaType : option string) : VideoNode := {|
  internal_type := "File";
  internal_contentDigest := "0123abcd";
  internal_mediaType := mediaType;
  id := "node-1";
  absolutePath := Some "/site/content/clip";
  file := None;
  contentful_id := None;
  base := Some "clip";
|}.

(** The file type [prepareAndAnalyzeVideo] resolves for a node. *)
Definition resolved_fileType (video : VideoNode) (fileType : string) : Prop :=
  (internal_type video = "File" ∧ internal_mediaType video = Some fileType) ∨
  (internal_type video = "ContentfulAsset" ∧
   ∃ f, file video = Some f ∧ contentType f = fileType).

Definition is_video (stream : FfprobeStream) : bool :=
  bool_decide (codec_type stream = Some "video").

(** A transcoder that gives up after it has written part of its output. *)
Definition failing_transcoder : Transcoder :=
  λ _ _ _, ProcessError (Error "ffmpeg exited with code 1") (Some "partial").

Definition sample_ffmpeg : FFMPEG := {|
  cachePathActive := tier_active;
  cachePathRolling := tier_rolling;
  rootDir := ["site"];
|}.

Definition sample_job : ConvertVideoArgs H264TransformerFieldArgs := {|
  profile := λ session filters fieldArgs metadata,
    Ok (profileH264 session filters fieldArgs metadata);
  filename := "clip-0123abcd-h264.mp4";
  sourcePath := "/site/content/clip.mov";
  publicDir := ["site"; "public"; "static"; "videos"];
  fieldArgs := h264_args (val 28%Z) undefined undefined null;
  info := example_info;
|}.

(** The disk after the failed run of [sample_job] on an empty disk. *)
Definition disk_after_failure : disk :=
  (convertVideo (H0 := sample_runtime) (H1 := failing_transcoder)
     sample_ffmpeg sample_job ∅).1.

(** A transcoder that fails before it has opened its output. *)
Definition refusing_transcoder : Transcoder :=
  λ _ _ _, ProcessError (Error "Invalid data found when processing input") None.

(** The second half of [convertVideo]: the cached file is copied to the
    public directory when it is missing there or differs in size. *)
Definition publish (activePath publicPath : path) : M ConvertVideoResult :=
  let! publicExists := pathExists publicPath in
  (if negb publicExists then copy activePath publicPath else ret ());;
  let! cacheFileStats := stat_size activePath in
  let! publicFileStats := stat_size publicPath in
  (if publicExists && negb (cacheFileStats =? publicFileStats)
   then copy activePath publicPath
   else ret ());;
  ret {| publicPath_of := publicPath |}.

(** Whether some output option starts with the given option name. *)
Definition has_option (name : string) (options : list string) : bool :=
  existsb (starts_with name) options.

(** Field arguments that ask for an overlay and nothing else special. *)
Definition overlay_fieldArgs : DefaultTransformerFieldArgs := {|
  maxWidth := val 600%Z; maxHeight := null; fa_duration := null;
  fps := null; saturation := val 1%float; overlay := val "logo.png";
  overlayX := val "end"; overlayY := val "start";
  overlayPadding := val 10%Z; publicPath := val "static/videos" |}.

(** ** The gif profile (profiles/gif.ts) *)

(** High quality gif: the palette is generated from one copy of the stream
    and applied to the other. *)
Definition profileGif (ffmpegSession : FfmpegCommand) (filters : list string)
    (fieldArgs : DefaultTransformerFieldArgs)
    (videoStreamMetadata : VideoStreamMetadata) : FfmpegCommand :=
  let filters :=
    filters ++ ["split [a][b]"; "[a] palettegen [p]"; "[b][p] paletteuse"] in
  {| inputs := inputs ffmpegSession;
     videoCodec := Some "gif";
     complexFilter := [join filters];
     outputOptions := outputOptions ffmpegSession;
     audioCodec := None;
     audioQuality := None;
     audioChannels := None;
     noAudio := true;
     outputDuration := outputDuration ffmpegSession |}.

(** The other version of the gif profile in the sources,
    [[filters, ...].join(`,`)]: the array of filters is one element of the
    array that is joined, and [join] turns it into a string by joining
    it. *)
Definition profileGif_nested (ffmpegSession : FfmpegCommand)
    (filters : list string) : FfmpegCommand :=
  let filters :=
    join [join filters; "split [a][b]"; "[a] palettegen [p]";
          "[b][p] paletteuse"] in
  {| inputs := inputs ffmpegSession;
     videoCodec := Some "gif";
     complexFilter := [filters];
     outputOptions := outputOptions ffmpegSession;
     audioCodec := None;
     audioQuality := None;
     audioChannels := None;
     noAudio := true;
     outputDuration := outputDuration ffmpegSession |}.

(** ** The custom profile field (gatsby-node.ts, createResolvers) *)

(** What a transformer receives, with the field arguments at the type of
    its field. *)
Record TransformerArgs (T : Type) : Type := {
  tr_publicDir : path;
  tr_path : string;
  tr_name : string;
  tr_fieldArgs : T;
  tr_info : FfprobeData;
}.
Arguments tr_publicDir {T} _.
Arguments tr_path {T} _.
Arguments tr_name {T} _.
Arguments tr_fieldArgs {T} _.
Arguments tr_info {T} _.

(** The argument of [queueConvertVideo]; the queue has concurrency one, so
    that queueing a conversion is running it. *)
Definition queued {T} (args : TransformerArgs T) (profile : Profile T)
    (filename : string) : ConvertVideoArgs T := {|
  profile := profile;
  filename := filename;
  sourcePath := tr_path args;
  publicDir := tr_publicDir args;
  fieldArgs := tr_fieldArgs args;
  info := tr_info args;
|}.

(** A profile of the plugin options; either field may be missing. *)
Record ProfileConfig (T : Type) : Type := {
  extension : nullable string;
  converter : option (Profile T);
}.
Arguments extension {T} _.
Arguments converter {T} _.

Record CustomFieldArgs : Type := {
  custom_base : DefaultTransformerFieldArgs;
  custom_profile : nullable string;
}.

#[global] Instance extends_custom : Extends CustomFieldArgs := custom_base.

(** The names every object inherits from [Object.prototype]. *)
Definition Object_prototype : list string :=
  ["constructor"; "__defineGetter__"; "__defineSetter__"; "hasOwnProperty";
   "__lookupGetter__"; "__lookupSetter__"; "isPrototypeOf";
   "propertyIsEnumerable"; "toString"; "valueOf"; "__proto__";
   "toLocaleString"].

(** [ffmpeg.profiles[profileName]]: an own property of the plugin option,
    else an inherited member, which has neither an extension nor a
    converter, else [undefined]. *)
Definition profile_named {T} (profiles : gmap string (ProfileConfig T))
    (profileName : nullable string) : option (ProfileConfig T) :=
  match profiles !! show profileName with
  | Some profile => Some profile
  | None =>
      if bool_decide (show profileName ∈ Object_prototype)
      then Some {| extension := undefined; converter := None |}
      else None
  end.

Definition videoProfile `{Runtime, Transcoder} (ffmpeg : FFMPEG)
    (profiles : gmap string (ProfileConfig CustomFieldArgs))
    (args : TransformerArgs CustomFieldArgs) : M ConvertVideoResult :=
  let profileName := custom_profile (tr_fieldArgs args) in
  match profile_named profiles profileName with
  | None =>
      throw (Error ("Unable to locate FFMPEG profile " +:+ show profileName))
  | Some profile =>
      if negb (truthy (extension profile)) then
        throw (Error ("FFMPEG profile " +:+ show profileName
                        +:+ " has no extension specified"))
      else
        match converter profile with
        | None =>
            throw (Error ("FFMPEG profile " +:+ show profileName
                            +:+ " has no converter function specified"))
        | Some converter =>
            let filename :=
              tr_name args +:+ "-" +:+ show profileName +:+ "."
                +:+ show (extension profile) in
            convertVideo ffmpeg (queued args converter filename)
        end
  end.

(** ** The cache directories (helpers.ts) *)

Record CacheDirs : Type := {
  cachePathBin_of : path;
  cachePathActive_of : path;
  cachePathRolling_of : path;
}.

(** [cwd] is the working directory against which [resolve] completes
    relative paths; [platform] and [arch] are what the [os] module says. *)
Definition getCacheDirs (cwd : path) (platform arch : string)
    (cacheDirectory cacheDirectoryBin : option string) : CacheDirs :=
  let DEFAULT_BIN := resolve cwd [".bin"; "gatsby-transformer-video"] in
  let cacheDirectory := default ".cache-video" cacheDirectory in
  let cachePathBin :=
    match cacheDirectoryBin with
    | Some directory => resolve cwd [directory; platform +:+ "-" +:+ arch]
    | None => resolve DEFAULT_BIN [platform +:+ "-" +:+ arch]
    end in
  let cachePathActive := resolve cwd [cacheDirectory] in
  let cachePathRolling := resolve cwd [cacheDirectory +:+ "-rolling"] in
  {| cachePathBin_of := cachePathBin;
     cachePathActive_of := cachePathActive;
     cachePathRolling_of := cachePathRolling |}.

(** A name that [resolve] appends as one component. *)
Definition plain (name : string) : Prop :=
  split_on "/" name = [name] ∧ name ≠ "" ∧ name ≠ "." ∧ name ≠ "..".

(** ** The download of a Contentful video (helpers.ts) *)

(** One request for the file and the writing of the response to [path],
    outside the sources; [request] counts the requests made before. *)
Class Downloader : Type := download : nat → string → path → M ().

Definition newline : string := String (ascii_of_nat 10) "".

(** [`${e}`] for an error. *)
Definition exn_toString (e : exn) : string :=
  match e with
  | Error message =>
      if String.eqb message "" then "Error" else "Error: " +:+ message
  | TypeError message =>
      if String.eqb message "" then "TypeError"
      else "TypeError: " +:+ message
  | WrongFileTypeError => "Error"
  end.

(** The loop of [queuedDownload] runs until a request succeeded; [fuel]
    bounds its iterations, and [None] says that the bound was reached.
    [target] is the [path] of the enclosing function. *)
Fixpoint queuedDownload `{Downloader} (fuel : nat) (tries : nat)
    (url : string) (target : path) : M (option path) :=
  match fuel with
  | 0 => ret None
  | S fuel =>
      try_catch
        (download tries ("https:" +:+ url) target;;
         ret (Some target))
        (λ e,
           let tries := S tries in
           if tries =? 3 then
             throw (Error ("Download of " +:+ url
                             +:+ " failed after three times:"
                             +:+ newline +:+ newline +:+ exn_toString e))
           else queuedDownload fuel tries url target)
  end.

(** [downloadCache] maps a url to a path or to the promise of a download;
    between two calls the promise has settled. *)
Abbreviation DownloadCache := (gmap string (result path)).

Definition cacheContentfulVideo `{Host, Downloader} (fuel : nat)
    (video : VideoNode) (cacheDir : path) (contentDigest : string)
    (downloadCache : DownloadCache) (σ : disk)
    : disk * DownloadCache * result (option path) :=
  match file video with
  | None =>
      (σ, downloadCache,
       Throw (TypeError "Cannot read properties of undefined (reading 'url')"))
  | Some file =>
      let path :=
        resolve cacheDir
          [contentDigest +:+ "." +:+ parsed_ext (parse (fileName file))] in
      if bool_decide (is_Some (σ !! path)) then
        (σ, <[url file := Ok path]> downloadCache, Ok (Some path))
      else
        match downloadCache !! url file with
        | Some downloadPromise =>
            (σ, downloadCache,
             result_bind downloadPromise (λ path, Ok (Some path)))
        | None =>
            match queuedDownload fuel 0 (url file) path σ with
            | (σ', Ok (Some path)) =>
                (σ', <[url file := Ok path]> downloadCache, Ok (Some path))
            | (σ', Ok None) => (σ', downloadCache, Ok None)
            | (σ', Throw e) =>
                (σ', <[url file := Throw e]> downloadCache, Throw e)
            end
        end
  end.

(** Where [cacheContentfulVideo] keeps the download of a file. *)
Definition download_path `{Host} (cacheDir : path) (contentDigest : string)
    (file : VideoNodeContentfulFile) : path :=
  resolve cacheDir
    [contentDigest +:+ "." +:+ parsed_ext (parse (fileName file))].

(** A downloader whose every request is refused, and one for which the
    second request succeeds. *)
Definition offline : Downloader :=
  λ _ _ _, throw (Error "connect ECONNREFUSED").

Definition flaky : Downloader :=
  λ request _ path,
    if request =? 1 then modify (λ σ, <[path := File "video"]> σ)
    else throw (Error "socket hang up").

Definition contentful_video : VideoNode := {|
  internal_type := "ContentfulAsset";
  internal_contentDigest := "0123abcd";
  internal_mediaType := None;
  id := "node-2";
  absolutePath := None;
  file := Some {| url := "//videos.ctfassets.net/clip.mp4";
                  fileName := "clip.mp4";
                  details_size := "1024";
                  contentType := "video/mp4" |};
  contentful_id := Some "asset-1";
  base := None;
|}.

(** A node of another source plugin. *)
Definition foreign_video : VideoNode := {|
  internal_type := "SanityAsset";
  internal_contentDigest := "0123abcd";
  internal_mediaType := Some "video/mp4";
  id := "node-3";
  absolutePath := Some "/site/content/clip";
  file := None;
  contentful_id := None;
  base := Some "clip";
|}.

(** ** Screenshots (ffmpeg.ts, takeScreenshots) *)

Record ScreenshotTransformerFieldArgs : Type := {
  timestamps : list string;
  shot_width : nullable Z;
}.

Record ScreenshotsConfig : Type := {
  config_filename : string;
  config_folder : path;
  config_timestamps : list string;
  config_size : string;
}.

(** What the transcoder had done when fluent-ffmpeg fired [end] or [error]
    for a screenshots job: the names announced with [filenames], and the
    files the process wrote into the folder, by name. *)
Inductive ScreenshotsExit : Type :=
| ScreenshotsEnd (filenames : list string) (written : list (string * string))
| ScreenshotsError (err : exn) (written : list (string * string)).

(** Collaborators outside the sources.  The host gives the digest of the
    screenshot options, [createContentDigest({ screenshotsOptions })], and
    [os.tmpdir()]. *)
Class ScreenshotHost : Type := {
  digest_screenshotsOptions : list string → string → string;
  tmpdir : path;
}.

(** The tools, for nodes of type [N]: the transcoder taking screenshots,
    [sharp(..).jpeg(..).toBuffer()], which reads a file, [imagemin.buffer]
    and the creation of a file node. *)
Class ScreenshotTools (N : Type) : Type := {
  spawn_screenshots : option string → ScreenshotsConfig → disk → ScreenshotsExit;
  sharp_jpeg : path → disk → result string;
  imagemin_buffer : string → result string;
  createFileNodeFromBuffer : string → string → string → M N;
}.

(** The entries of a directory, in the order of the map, which stands for
    the order of the file system. *)
Definition children (p : path) (σ : disk) : list string :=
  omap (λ entry : path, if bool_decide (dirname entry = p) then last entry
                        else None)
    (map_to_list σ).*1.

Definition readdir (p : path) : M (list string) := λ σ,
  match σ !! p with
  | Some Dir => (σ, Ok (children p σ))
  | Some (File _) => (σ, Throw (Error "ENOTDIR: not a directory"))
  | None => (σ, Throw (Error "ENOENT: no such file or directory"))
  end.

Definition readFile (p : path) : M string := λ σ,
  match σ !! p with
  | Some (File content) => (σ, Ok content)
  | Some Dir => (σ, Throw (Error "EISDIR: illegal operation on a directory"))
  | None => (σ, Throw (Error "ENOENT: no such file or directory"))
  end.

Definition writeFile (p : path) (data : string) : M () := λ σ,
  match σ !! dirname p with
  | Some Dir =>
      match σ !! p with
      | Some Dir =>
          (σ, Throw (Error "EISDIR: illegal operation on a directory"))
      | _ => (<[p := File data]> σ, Ok ())
      end
  | Some (File _) => (σ, Throw (Error "ENOTDIR: not a directory"))
  | None => (σ, Throw (Error "ENOENT: no such file or directory"))
  end.

Definition write_files (folder : path) (written : list (string * string))
    (σ : disk) : disk :=
  foldl (λ σ file, <[folder ++ [file.1] := File file.2]> σ) σ written.

(** Take raw screenshots and store to tmpDir: the promise resolves with the
    announced names on [end] and rejects on [error]. *)
Definition takeRawScreenshots {N} `{ScreenshotTools N} (source : option string)
    (screenshotsConfig : ScreenshotsConfig) : M (list string) := λ σ,
  match spawn_screenshots source screenshotsConfig σ with
  | ScreenshotsEnd filenames written =>
      (write_files (config_folder screenshotsConfig) written σ, Ok filenames)
  | ScreenshotsError err written =>
      (write_files (config_folder screenshotsConfig) written σ, Throw err)
  end.

Definition generateTaskLabel (video : VideoNode) (profileName : string)
    : M string :=
  let! basename :=
    (if truthy (base video) then ret (default "" (base video))
     else member "fileName" (file video) fileName) in
  ret ("Video " +:+ basename +:+ ":"
         +:+ (if truthy (contentful_id video)
              then default "" (contentful_id video) else id video)
         +:+ " (" +:+ profileName +:+ ")").

(** Process raw screenshots and store to cache (the first loop). *)
Fixpoint processScreenshots {N} `{Host, ScreenshotTools N} (self : FFMPEG)
    (tmpDir activePath : path) (screenshotRawNames : list string)
    (screenshotPaths : list path) : M (list path) :=
  match screenshotRawNames with
  | [] => ret screenshotPaths
  | screenshotRawName :: rest =>
      let screenshotRawPath := resolve tmpDir [screenshotRawName] in
      let! jpgBuffer := (λ σ, (σ, sharp_jpeg screenshotRawPath σ)) in
      let! optimizedBuffer := lift (imagemin_buffer jpgBuffer) in
      ensureDir (cachePathActive self);;
      let name := parsed_name (parse screenshotRawName) in
      let cachePath := resolve activePath [name +:+ ".jpg"] in
      writeFile cachePath optimizedBuffer;;
      processScreenshots self tmpDir activePath rest
        (screenshotPaths ++ [cachePath])
  end.

(** The second loop: a file node for every screenshot. *)
Fixpoint createScreenshotNodes {N} `{Host, ScreenshotTools N}
    (video : VideoNode) (screenshotPaths : list path)
    (screenshotNodes : list N) : M (list N) :=
  match screenshotPaths with
  | [] => ret screenshotNodes
  | screenshotPath :: rest =>
      let! screenshotBuffer := readFile screenshotPath in
      let name := parsed_name (parse (path_string screenshotPath)) in
      let! node := createFileNodeFromBuffer name screenshotBuffer (id video) in
      createScreenshotNodes video rest (screenshotNodes ++ [node])
  end.

Definition takeScreenshots {N}
    `{Runtime, Host, ScreenshotHost, ScreenshotTools N}
    (self : FFMPEG) (video : VideoNode)
    (fieldArgs : ScreenshotTransformerFieldArgs) : M (nullable (list N)) :=
  let type := internal_type video in
  let! label := generateTaskLabel video "Screenshots" in
  let contentDigest := internal_contentDigest video in
  let! basename :=
    (if truthy (base video) then ret (default "" (base video))
     else member "fileName" (file video) fileName) in
  let parentName := parsed_name (parse basename) in
  let fileType : option string := None in
  let fileType :=
    if String.eqb type "File" then internal_mediaType video else fileType in
  let! fileType :=
    (if String.eqb type "ContentfulAsset"
     then member "contentType" (file video) (λ f, Some (contentType f))
     else ret fileType) in
  (* Resolve videos only *)
  if negb (truthy fileType) || lacks "video/" (default "" fileType) then
    ret null
  else
    let path : option string := None in
    let path := if String.eqb type "File" then absolutePath video else path in
    let! located :=
      (if String.eqb type "ContentfulAsset" then
         let! fileName := member "fileName" (file video) fileName in
         let ext := parsed_ext (parse fileName) in
         let! url := member "url" (file video) url in
         let! fetched := queueFetchRemoteFile ("https:" +:+ url) ext in
         let! size := member "details" (file video) details_size in
         ret (Some fetched,
              createContentDigest
                (JsArray [of_option (contentful_id video); s_string url;
                          s_string size]))
       else ret (path, contentDigest)) in
    let path := located.1 in
    let contentDigest := located.2 in
    let size := show (shot_width fieldArgs) +:+ "x?" in
    let foldername :=
      parentName +:+ "-" +:+ contentDigest +:+ "-"
        +:+ digest_screenshotsOptions (timestamps fieldArgs) size in
    let activePath :=
      resolve (cachePathActive self) ["screenshots"; foldername] in
    let rollingPath :=
      resolve (cachePathRolling self) ["screenshots"; foldername] in
    let! screenshotPaths :=
      try_catch
        (restoreFromCache activePath rollingPath;;
         let! screenshotNames := readdir activePath in
         ret ((λ name, resolve activePath [name]) <$> screenshotNames))
        (λ err,
           let tmpDir :=
             resolve tmpdir ["gatsby-transformer-video"; foldername] in
           let screenshotsConfig :=
             {| config_filename := "%ss.png";
                config_folder := tmpDir;
                config_timestamps := timestamps fieldArgs;
                config_size := size |} in
           ensureDir tmpDir;;
           let! screenshotRawNames :=
             takeRawScreenshots path screenshotsConfig in
           ensureDir activePath;;
           processScreenshots self tmpDir activePath screenshotRawNames []) in
    let! screenshotNodes := createScreenshotNodes video screenshotPaths [] in
    ret (val screenshotNodes).

(** The folders [takeScreenshots] uses for a local file. *)
Definition screenshots_foldername `{Host, ScreenshotHost}
    (video : VideoNode) (fieldArgs : ScreenshotTransformerFieldArgs)
    : string :=
  parsed_name (parse (default "" (base video))) +:+ "-"
    +:+ internal_contentDigest video +:+ "-"
    +:+ digest_screenshotsOptions (timestamps fieldArgs)
          (show (shot_width fieldArgs) +:+ "x?").

Definition screenshots_folder `{Host, ScreenshotHost} (tier : path)
    (video : VideoNode) (fieldArgs : ScreenshotTransformerFieldArgs) : path :=
  resolve tier ["screenshots"; screenshots_foldername video fieldArgs].

Definition screenshots_tmpDir `{Host, ScreenshotHost}
    (video : VideoNode) (fieldArgs : ScreenshotTransformerFieldArgs) : path :=
  resolve tmpdir
    ["gatsby-transformer-video"; screenshots_foldername video fieldArgs].

(** A local file that is a video and has a name. *)
Definition local_video_file (video : VideoNode) : Prop :=
  internal_type video = "File" ∧ truthy (base video) = true ∧
  ∃ fileType, internal_mediaType video = Some fileType ∧ fileType ≠ "" ∧
              lacks "video/" fileType = false.

Definition sample_screenshot_host : ScreenshotHost := {|
  digest_screenshotsOptions := λ _ size, "md5(" +:+ size +:+ ")";
  tmpdir := ["tmp"];
|}.

(** Tools whose transcoder announces and writes two screenshots and whose
    image library fails, tools that work, and tools without transcoder. *)
Definition broken_sharp : ScreenshotTools string := {|
  spawn_screenshots := λ _ _ _,
    ScreenshotsEnd ["1s.png"; "2s.png"] [("1s.png", "raw1"); ("2s.png", "raw2")];
  sharp_jpeg := λ _ _,
    Throw (Error "Input file contains unsupported image format");
  imagemin_buffer := λ buffer, Ok buffer;
  createFileNodeFromBuffer := λ name _ _, ret name;
|}.

Definition working_tools : ScreenshotTools string := {|
  spawn_screenshots := λ _ _ _,
    ScreenshotsEnd ["1s.png"; "2s.png"] [("1s.png", "raw1"); ("2s.png", "raw2")];
  sharp_jpeg := λ p σ,
    match σ !! p with
    | Some (File content) => Ok ("jpg:" +:+ content)
    | _ => Throw (Error "Input file is missing")
    end;
  imagemin_buffer := λ buffer, Ok buffer;
  createFileNodeFromBuffer := λ name _ _, ret name;
|}.

Definition no_transcoder : ScreenshotTools string := {|
  spawn_screenshots := λ _ _ _,
    ScreenshotsError (Error "Cannot find ffmpeg") [];
  sharp_jpeg := λ _ _, Throw (Error "Input file is missing");
  imagemin_buffer := λ buffer, Ok buffer;
  createFileNodeFromBuffer := λ name _ _, ret name;
|}.

Definition screenshot_args : ScreenshotTransformerFieldArgs := {|
  timestamps := ["1"; "2"];
  shot_width := val 600%Z;
|}.

(** A disk whose rolling tier lies inside the active tier, as for the cache
    directory option ["cache/"]. *)
Definition disk_nested_tiers : disk :=
  <[["site"; "cache"; "-rolling"; "videos"; "old-h264.mp4"] := File "old mp4"]>
    (mkdirs ["site"; "cache"; "-rolling"; "videos"]
       (<[["site"; "cache"; "videos"; "clip-h264.mp4"] := File "new mp4"]>
          (mkdirs ["site"; "cache"; "videos"] ∅))).

(** Membership in, and a property of all of, a list of options that is
    written out. *)
Ltac options_solve :=
  lazymatch goal with
  | |- _ ∈ _ =>
      rewrite ?elem_of_cons; repeat first [left; reflexivity | right]
  | |- Forall _ _ =>
      repeat (apply Forall_cons;
              split; [first [ by split | reflexivity | by intros _
                            | by intros [=] ]|]);
      by apply Forall_nil
  end.

(** * Properties *)

(** ** The file system *)

Lemma under_spec (root p : path) : under root p = true ↔ root `prefix_of` p.
Proof. unfold under. apply bool_decide_eq_true. Qed.

Lemma under_app (root q : path) : under root (root ++ q) = true.
Proof. apply under_spec. by exists q. Qed.

Lemma under_false (root p : path) :
  under root p = false ↔ ¬ root `prefix_of` p.
Proof. unfold under. apply bool_decide_eq_false. Qed.

Lemma separate_sym (a b : path) : separate a b → separate b a.
Proof. intros [??]. by split. Qed.

Lemma separate_under (a b q : path) :
  separate a b → under a (b ++ q) = false.
Proof.
  intros [Hab Hba]. apply under_false. intros Ha.
  destruct (prefix_weak_total a b (b ++ q)) as [H|H]; [done|by exists q|..].
  - by apply under_false in Hab.
  - by apply under_false in Hba.
Qed.

Lemma under_drop (root p : path) :
  under root p = true → p = root ++ drop (length root) p.
Proof.
  intros [k ->]%under_spec. by rewrite drop_app_length.
Qed.

Lemma lookup_remove_tree (root p : path) (σ : disk) :
  remove_tree root σ !! p = if under root p then None else σ !! p.
Proof.
  unfold remove_tree. destruct (under root p) eqn:Hu.
  - apply map_lookup_filter_None. right. intros x _ Hn. simpl in Hn.
    by apply under_spec in Hu.
  - apply under_false in Hu. destruct (σ !! p) as [x|] eqn:Hp.
    + by apply map_lookup_filter_Some.
    + apply map_lookup_filter_None. by left.
Qed.

Lemma elem_of_ancestors (d p : path) : d ∈ ancestors p ↔ d `prefix_of` p.
Proof.
  unfold ancestors. rewrite list_elem_of_fmap. split.
  - intros (n & -> & _). apply prefix_take.
  - intros [k ->]. exists (length d). split.
    + by rewrite take_app_length.
    + apply elem_of_seq. rewrite length_app. lia.
Qed.

Lemma lookup_mkdirs_list (l : list path) (p : path) (σ : disk) :
  foldr (λ d σ, match σ !! d with Some _ => σ | None => <[d := Dir]> σ end)
    σ l !! p =
  match σ !! p with
  | Some n => Some n
  | None => if bool_decide (p ∈ l) then Some Dir else None
  end.
Proof.
  induction l as [|d l IH]; simpl.
  - by destruct (σ !! p).
  - set (σ' := foldr _ σ l) in *.
    destruct (decide (d = p)) as [->|Hne].
    + rewrite bool_decide_eq_true_2 by left.
      destruct (σ' !! p) as [n|] eqn:Hp.
      * rewrite Hp. rewrite IH in Hp.
        destruct (σ !! p); [done|]. by case_bool_decide.
      * rewrite lookup_insert_eq. rewrite IH in Hp.
        destruct (σ !! p); [done|]. by case_bool_decide.
    + assert (σ' !! p = match σ' !! d with
                        | Some _ => σ'
                        | None => <[d:=Dir]> σ'
                        end !! p) as <-.
      { destruct (σ' !! d); [done|]. by rewrite lookup_insert_ne. }
      rewrite IH. destruct (σ !! p); [done|].
      rewrite (bool_decide_ext (p ∈ d :: l) (p ∈ l)); [done|].
      rewrite elem_of_cons. split; [intros [?|?]; [congruence|done]|by right].
Qed.

Lemma lookup_mkdirs (d p : path) (σ : disk) :
  mkdirs d σ !! p =
  match σ !! p with
  | Some n => Some n
  | None => if under p d then Some Dir else None
  end.
Proof.
  unfold mkdirs. rewrite lookup_mkdirs_list. destruct (σ !! p); [done|].
  unfold under. by rewrite (bool_decide_ext _ _ (elem_of_ancestors p d)).
Qed.

Lemma dirname_prefix (p : path) : dirname p `prefix_of` p.
Proof. apply prefix_take. Qed.

(** A path that exists is unaffected by [mkdir -p]; a path outside the
    chain of ancestors as well. *)
Lemma lookup_mkdirs_outside (d p : path) (σ : disk) :
  under p d = false → mkdirs d σ !! p = σ !! p.
Proof. intros Hu. rewrite lookup_mkdirs, Hu. by destruct (σ !! p). Qed.

Lemma not_under_dirname (a b q : path) :
  under a b = false → under (a ++ q) (dirname b) = false.
Proof.
  intros Hab. apply under_false. intros Hq. apply under_false in Hab.
  apply Hab. trans (a ++ q); [by exists q|]. trans (dirname b); [done|].
  apply dirname_prefix.
Qed.

Lemma lookup_mkdirs_dirname (a : path) (σ : disk) :
  a ≠ [] → σ !! a = None → mkdirs (dirname a) σ !! a = None.
Proof.
  intros Hne Ha. rewrite lookup_mkdirs, Ha.
  destruct (under a (dirname a)) eqn:Hu; [|done].
  apply under_spec, prefix_length in Hu. unfold dirname in Hu.
  rewrite length_take in Hu. destruct a as [|c a]; [done|].
  simpl in Hu. lia.
Qed.

Lemma separate_nonroot (a b : path) : separate a b → a ≠ [].
Proof.
  intros [Hab _] ->. apply under_false in Hab. apply Hab, prefix_nil.
Qed.

Section rename.
Variables src dest : path.
Hypothesis Hsep : separate src dest.

Lemma reroot_src (q : path) : reroot src dest (src ++ q) = dest ++ q.
Proof. unfold reroot. by rewrite under_app, drop_app_length. Qed.

Lemma reroot_dest (q : path) : reroot src dest (dest ++ q) = src ++ q.
Proof.
  unfold reroot. rewrite (separate_under src dest q Hsep).
  by rewrite under_app, drop_app_length.
Qed.

Lemma reroot_outside (p : path) :
  under src p = false → under dest p = false → reroot src dest p = p.
Proof. unfold reroot. by intros -> ->. Qed.

Lemma reroot_involutive (p : path) : reroot src dest (reroot src dest p) = p.
Proof.
  destruct (under src p) eqn:Hs.
  - apply under_drop in Hs. rewrite Hs at 1.
    rewrite reroot_src, reroot_dest. by symmetry.
  - destruct (under dest p) eqn:Hd.
    + apply under_drop in Hd. rewrite Hd at 1.
      rewrite reroot_dest, reroot_src. by symmetry.
    + by rewrite !(reroot_outside p Hs Hd).
Qed.

Lemma reroot_inj : Inj (=) (=) (reroot src dest).
Proof.
  intros p q Hpq.
  by rewrite <- (reroot_involutive p), Hpq, reroot_involutive.
Qed.

Lemma lookup_rename_tree (p : path) (σ : disk) :
  rename_tree src dest σ !! p =
  if under dest p then σ !! (src ++ drop (length dest) p)
  else if under src p then None
  else σ !! p.
Proof.
  unfold rename_tree.
  rewrite <- (reroot_involutive p) at 1.
  rewrite (lookup_kmap (reroot src dest) (Inj0:=reroot_inj)).
  rewrite lookup_remove_tree.
  destruct (under dest p) eqn:Hd.
  - apply under_spec in Hd as [k ->].
    rewrite reroot_dest, drop_app_length.
    by rewrite (separate_under dest src _ (separate_sym _ _ Hsep)).
  - destruct (under src p) eqn:Hs.
    + apply under_spec in Hs as [k ->].
      by rewrite reroot_src, under_app.
    + by rewrite (reroot_outside p Hs Hd), Hd.
Qed.

(** The effect of a successful [move]: the subtree is at [dest], nothing
    is left at [src], and every other path is as [mkdir -p] left it. *)
Lemma move_ok (σ : disk) :
  is_Some (σ !! src) → σ !! dest = None →
  move src dest σ = (rename_tree src dest (mkdirs (dirname dest) σ), Ok ()).
Proof.
  intros [n Hn] Hd. unfold move, bind, checkPaths, ensureDir, modify,
    pathExists, throw.
  rewrite Hn. destruct Hsep as [Hsd Hds].
  rewrite bool_decide_eq_false_2, Hsd.
  - rewrite lookup_mkdirs_dirname; [done| |done].
    apply (separate_nonroot dest src). by split.
  - intros ->. apply under_false in Hsd. by apply Hsd.
Qed.

Lemma lookup_move_dest (q : path) (σ : disk) :
  rename_tree src dest (mkdirs (dirname dest) σ) !! (dest ++ q)
  = σ !! (src ++ q).
Proof.
  rewrite lookup_rename_tree, under_app, drop_app_length.
  apply lookup_mkdirs_outside, not_under_dirname. apply Hsep.
Qed.

Lemma lookup_move_src (q : path) (σ : disk) :
  rename_tree src dest (mkdirs (dirname dest) σ) !! (src ++ q) = None.
Proof.
  rewrite lookup_rename_tree.
  rewrite (separate_under dest src _ (separate_sym _ _ Hsep)).
  by rewrite under_app.
Qed.

Lemma lookup_move_dest_root (σ : disk) :
  rename_tree src dest (mkdirs (dirname dest) σ) !! dest = σ !! src.
Proof.
  pose proof (lookup_move_dest [] σ) as Hroot.
  by rewrite 2!app_nil_r in Hroot.
Qed.

Lemma lookup_move_src_root (σ : disk) :
  rename_tree src dest (mkdirs (dirname dest) σ) !! src = None.
Proof.
  pose proof (lookup_move_src [] σ) as Hroot.
  by rewrite app_nil_r in Hroot.
Qed.

Lemma lookup_move_outside (p : path) (σ : disk) :
  under src p = false → under dest p = false →
  rename_tree src dest (mkdirs (dirname dest) σ) !! p
  = mkdirs (dirname dest) σ !! p.
Proof. intros Hs Hd. by rewrite lookup_rename_tree, Hd, Hs. Qed.
End rename.

Lemma pathExists_true (p : path) (σ : disk) :
  is_Some (σ !! p) → pathExists p σ = (σ, Ok true).
Proof. intros Hp. unfold pathExists. by rewrite bool_decide_eq_true_2. Qed.

Lemma pathExists_false (p : path) (σ : disk) :
  σ !! p = None → pathExists p σ = (σ, Ok false).
Proof.
  intros Hp. unfold pathExists. rewrite bool_decide_eq_false_2; [done|].
  rewrite Hp. by intros [??].
Qed.

Lemma bind_ok {A B} (m : M A) (k : A → M B) (σ σ' : disk) (a : A) :
  m σ = (σ', Ok a) → bind m k σ = k a σ'.
Proof. intros Hm. unfold bind. by rewrite Hm. Qed.

Lemma bind_throw {A B} (m : M A) (k : A → M B) (σ σ' : disk) (e : exn) :
  m σ = (σ', Throw e) → bind m k σ = (σ', Throw e).
Proof. intros Hm. unfold bind. by rewrite Hm. Qed.

(** ** Restoring an artifact *)

Lemma restoreFromCache_active (activePath rollingPath : path) (σ : disk) :
  is_Some (σ !! activePath) →
  restoreFromCache activePath rollingPath σ = (σ, Ok true).
Proof.
  intros Ha. unfold restoreFromCache.
  by rewrite (bind_ok _ _ _ _ _ (pathExists_true _ _ Ha)).
Qed.

Lemma restoreFromCache_miss (activePath rollingPath : path) (σ : disk) :
  σ !! activePath = None → σ !! rollingPath = None →
  restoreFromCache activePath rollingPath σ = (σ, Ok false).
Proof.
  intros Ha Hr. unfold restoreFromCache.
  rewrite (bind_ok _ _ _ _ _ (pathExists_false _ _ Ha)). simpl.
  by rewrite (bind_ok _ _ _ _ _ (pathExists_false _ _ Hr)).
Qed.

Lemma restoreFromCache_rolling (activePath rollingPath : path) (σ : disk) :
  separate rollingPath activePath →
  σ !! activePath = None → is_Some (σ !! rollingPath) →
  restoreFromCache activePath rollingPath σ =
  (rename_tree rollingPath activePath (mkdirs (dirname activePath) σ), Ok true).
Proof.
  intros Hsep Ha Hr. unfold restoreFromCache.
  rewrite (bind_ok _ _ _ _ _ (pathExists_false _ _ Ha)). simpl.
  rewrite (bind_ok _ _ _ _ _ (pathExists_true _ _ Hr)).
  by rewrite (bind_ok _ _ _ _ _ (move_ok _ _ Hsep _ Hr Ha)).
Qed.

(** C2: an artifact found only in the rolling tier is moved into the active
    tier and reported as a hit, and nothing of it is left in the rolling
    tier; an artifact of the active tier is a hit that leaves the disk as it
    is; an artifact of neither tier is a miss. *)
Theorem restoreFromCache_tiers (activePath rollingPath : path) (σ : disk) :
  separate rollingPath activePath →
  (σ !! activePath = None → is_Some (σ !! rollingPath) →
     ∃ σ', restoreFromCache activePath rollingPath σ = (σ', Ok true) ∧
       is_Some (σ' !! activePath) ∧
       (∀ q, σ' !! (activePath ++ q) = σ !! (rollingPath ++ q)) ∧
       (∀ q, σ' !! (rollingPath ++ q) = None)) ∧
  (is_Some (σ !! activePath) →
     restoreFromCache activePath rollingPath σ = (σ, Ok true)) ∧
  (σ !! activePath = None → σ !! rollingPath = None →
     restoreFromCache activePath rollingPath σ = (σ, Ok false)).
Proof.
  intros Hsep. split; [|split].
  - intros Ha Hr. eexists. split; [by apply restoreFromCache_rolling|].
    split; [|split].
    + destruct Hr as [n Hn]. exists n.
      etrans; [apply (lookup_move_dest_root _ _ Hsep)|exact Hn].
    + intros q. apply (lookup_move_dest _ _ Hsep).
    + intros q. apply (lookup_move_src _ _ Hsep).
  - apply restoreFromCache_active.
  - apply restoreFromCache_miss.
Qed.

Lemma restoreFromCache_tiers_witness :
  separate (tier_rolling ++ ["videos"; "clip-h264.mp4"])
    (tier_active ++ ["videos"; "clip-h264.mp4"]) ∧
  ∃ σ',
    restoreFromCache (tier_active ++ ["videos"; "clip-h264.mp4"])
      (tier_rolling ++ ["videos"; "clip-h264.mp4"]) disk_rolling_only
    = (σ', Ok true) ∧
    σ' !! (tier_active ++ ["videos"; "clip-h264.mp4"]) = Some (File "mp4 data") ∧
    σ' !! (tier_rolling ++ ["videos"; "clip-h264.mp4"]) = None.
Proof.
  assert (separate (tier_rolling ++ ["videos"; "clip-h264.mp4"])
            (tier_active ++ ["videos"; "clip-h264.mp4"])) as Hsep
    by (split; reflexivity).
  split; [exact Hsep|].
  destruct (restoreFromCache_tiers _ _ disk_rolling_only Hsep) as [Hmove _].
  destruct Hmove as (σ' & Hrun & _ & Hdest & Hsrc).
  - reflexivity.
  - eexists. reflexivity.
  - exists σ'. split; [exact Hrun|]. split.
    + exact (Hdest []).
    + exact (Hsrc []).
Defined.

(** ** Rotation and reconciliation of the tiers *)

Lemma remove_ok (p : path) (σ : disk) : remove p σ = (remove_tree p σ, Ok ()).
Proof. reflexivity. Qed.

Lemma lookup_remove_tree_root (root : path) (σ : disk) :
  remove_tree root σ !! root = None.
Proof.
  pose proof (under_app root []) as Hu. rewrite app_nil_r in Hu.
  by rewrite lookup_remove_tree, Hu.
Qed.

Lemma is_Some_None {A} (o : option A) : is_Some o → o = None → False.
Proof. intros [x ->]. discriminate. Qed.

(** C3: in production the reconciliation after a build leaves no rolling
    tier: a rolling tier without an active one is moved to become the active
    tier, and a rolling tier next to an active one is deleted while
    everything outside it stays. *)
Theorem onPostBuild_reconciles (cachePathActive cachePathRolling : path)
    (σ : disk) :
  separate cachePathRolling cachePathActive →
  ∃ σ',
    onPostBuild (Some "production") cachePathActive cachePathRolling σ
    = (σ', Ok ()) ∧
    σ' !! cachePathRolling = None ∧
    (σ !! cachePathActive = None → is_Some (σ !! cachePathRolling) →
       is_Some (σ' !! cachePathActive) ∧
       (∀ q, σ' !! (cachePathActive ++ q) = σ !! (cachePathRolling ++ q)) ∧
       (∀ q, σ' !! (cachePathRolling ++ q) = None)) ∧
    (is_Some (σ !! cachePathActive) → is_Some (σ !! cachePathRolling) →
       (∀ q, σ' !! (cachePathRolling ++ q) = None) ∧
       (∀ p, under cachePathRolling p = false → σ' !! p = σ !! p)).
Proof.
  intros Hsep. unfold onPostBuild.
  rewrite bool_decide_eq_true_2 by done.
  destruct (σ !! cachePathActive) as [a|] eqn:Ha;
    destruct (σ !! cachePathRolling) as [r|] eqn:Hr.
  - (* both tiers: the rolling tier is deleted *)
    rewrite (bind_ok _ _ _ _ _ (pathExists_true _ _ (mk_is_Some _ _ Ha))).
    rewrite (bind_ok _ _ _ _ _ (pathExists_true _ _ (mk_is_Some _ _ Hr))).
    simpl. unfold bind at 1, ret at 1. rewrite remove_ok.
    eexists. split; [reflexivity|]. split; [apply lookup_remove_tree_root|].
    split; [intros; discriminate|]. intros _ _. split.
    + intros q. by rewrite lookup_remove_tree, under_app.
    + intros p Hp. by rewrite lookup_remove_tree, Hp.
  - (* only the active tier *)
    rewrite (bind_ok _ _ _ _ _ (pathExists_true _ _ (mk_is_Some _ _ Ha))).
    rewrite (bind_ok _ _ _ _ _ (pathExists_false _ _ Hr)).
    simpl. unfold bind, ret. eexists. split; [reflexivity|]. split; [done|].
    split; [intros; discriminate|]. by intros _ [??].
  - (* only the rolling tier: it becomes the active tier *)
    rewrite (bind_ok _ _ _ _ _ (pathExists_false _ _ Ha)).
    rewrite (bind_ok _ _ _ _ _ (pathExists_true _ _ (mk_is_Some _ _ Hr))).
    simpl.
    rewrite (bind_ok _ _ _ _ _
               (move_ok _ _ Hsep _ (mk_is_Some _ _ Hr) Ha)).
    unfold ret. eexists. split; [reflexivity|].
    split; [apply (lookup_move_src_root _ _ Hsep)|].
    split; [|by intros [??]].
    intros _ _. split; [|split].
    + exists r. etrans; [apply (lookup_move_dest_root _ _ Hsep)|exact Hr].
    + intros q. apply (lookup_move_dest _ _ Hsep).
    + intros q. apply (lookup_move_src _ _ Hsep).
  - (* no tier at all *)
    rewrite (bind_ok _ _ _ _ _ (pathExists_false _ _ Ha)).
    rewrite (bind_ok _ _ _ _ _ (pathExists_false _ _ Hr)).
    simpl. unfold bind, ret. eexists. split; [reflexivity|]. split; [done|].
    split; by intros _ [??].
Qed.

Lemma onPostBuild_reconciles_witness :
  separate tier_rolling tier_active ∧
  ∃ σ',
    onPostBuild (Some "production") tier_active tier_rolling disk_rolling_only
    = (σ', Ok ()) ∧
    σ' !! tier_rolling = None ∧
    σ' !! (tier_active ++ ["videos"; "clip-h264.mp4"])
    = Some (File "mp4 data").
Proof.
  assert (separate tier_rolling tier_active) as Hsep by (split; reflexivity).
  split; [exact Hsep|].
  destruct (onPostBuild_reconciles tier_active tier_rolling disk_rolling_only
              Hsep) as (σ' & Hrun & Hgone & Honly & _).
  exists σ'. split; [exact Hrun|]. split; [exact Hgone|].
  destruct Honly as (_ & Hmoved & _).
  - reflexivity.
  - eexists. reflexivity.
  - exact (Hmoved ["videos"; "clip-h264.mp4"]).
Defined.

Lemma lookup_mkdirs_ancestor (d p : path) (σ : disk) :
  under p d = true → is_Some (mkdirs d σ !! p).
Proof.
  intros Hu. rewrite lookup_mkdirs, Hu. destruct (σ !! p); by eexists.
Qed.

Lemma onPreInit_nested (active q : path) (σ : disk) :
  q ≠ [] → is_Some (σ !! active) →
  onPreInit (Some "production") active (active ++ q) σ
  = (if bool_decide (is_Some (σ !! (active ++ q)))
     then remove_tree (active ++ q) σ else σ,
     Throw (Error "Cannot move or copy to a subdirectory of itself")).
Proof.
  intros Hq Hactive. unfold onPreInit.
  rewrite bool_decide_eq_true_2 by done.
  rewrite (bind_ok _ _ _ _ _ (pathExists_true _ _ Hactive)).
  unfold bind at 1. unfold pathExists at 1.
  assert (Hne : active ≠ active ++ q).
  { intros Heq. apply (f_equal length) in Heq. rewrite length_app in Heq.
    destruct q; [done|]. simpl in Heq. lia. }
  assert (Hout : under (active ++ q) active = false).
  { apply under_false. intros Hpre. apply prefix_length in Hpre.
    rewrite length_app in Hpre. destruct q; [done|]. simpl in Hpre. lia. }
  assert (Hmove : ∀ σ1 : disk, is_Some (σ1 !! active) →
            move active (active ++ q) σ1
            = (σ1, Throw (Error
                 "Cannot move or copy to a subdirectory of itself"))).
  { intros σ1 [n Hn]. unfold move. apply bind_throw. unfold checkPaths.
    unfold path in *. rewrite Hn. rewrite bool_decide_eq_false_2 by done.
    by rewrite under_app. }
  unfold path in *.
  destruct (bool_decide (is_Some (σ !! (active ++ q)))); cbn [andb].
  - unfold bind at 1. unfold remove, modify. apply Hmove.
    by rewrite lookup_remove_tree, Hout.
  - unfold bind at 1. unfold ret at 1. by apply Hmove.
Qed.

(** C4: the rotation at the start of a build runs in production only and
    rotates nothing without an active tier.  For two tier directories
    neither of which lies inside the other, a stale rolling tier is deleted
    first, then the active tier is renamed to be the rolling tier and no
    active tier is left.  For a rolling tier inside the active tier, which
    is what the cache directory option ["cache/"] gives, the stale rolling
    tier is deleted and the rename is refused: the rotation throws and the
    active tier stays where it is. *)
Theorem onPreInit_rotation (NODE_ENV : option string)
    (cachePathActive cachePathRolling : path) (σ : disk) :
  (NODE_ENV ≠ Some "production" →
     onPreInit NODE_ENV cachePathActive cachePathRolling σ = (σ, Ok ())) ∧
  (σ !! cachePathActive = None →
     onPreInit (Some "production") cachePathActive cachePathRolling σ
     = (σ, Ok ())) ∧
  (separate cachePathActive cachePathRolling →
   is_Some (σ !! cachePathActive) →
     let cleared :=
       if bool_decide (is_Some (σ !! cachePathRolling))
       then remove_tree cachePathRolling σ else σ in
     let σ' :=
       rename_tree cachePathActive cachePathRolling
         (mkdirs (dirname cachePathRolling) cleared) in
     onPreInit (Some "production") cachePathActive cachePathRolling σ
     = (σ', Ok ()) ∧
     is_Some (σ' !! cachePathRolling) ∧
     (∀ q, σ' !! (cachePathRolling ++ q) = σ !! (cachePathActive ++ q)) ∧
     (∀ q, σ' !! (cachePathActive ++ q) = None)) ∧
  (∀ q, q ≠ [] → cachePathRolling = cachePathActive ++ q →
   is_Some (σ !! cachePathActive) →
     let cleared :=
       if bool_decide (is_Some (σ !! cachePathRolling))
       then remove_tree cachePathRolling σ else σ in
     onPreInit (Some "production") cachePathActive cachePathRolling σ
     = (cleared,
        Throw (Error "Cannot move or copy to a subdirectory of itself")) ∧
     cleared !! cachePathRolling = None ∧
     cleared !! cachePathActive = σ !! cachePathActive) ∧
  (let dirs := getCacheDirs ["site"] "linux" "x64" (Some "cache/") None in
   cachePathActive_of dirs = ["site"; "cache"] ∧
   cachePathRolling_of dirs = ["site"; "cache"; "-rolling"] ∧
   ∃ σ' : disk,
     onPreInit (Some "production") (cachePathActive_of dirs)
       (cachePathRolling_of dirs) disk_nested_tiers
     = (σ', Throw (Error "Cannot move or copy to a subdirectory of itself")) ∧
     σ' !! ["site"; "cache"; "videos"; "clip-h264.mp4"]
     = Some (File "new mp4") ∧
     σ' !! ["site"; "cache"; "-rolling"] = None).
Proof.
  split; [|split; [|split; [|split]]].
  - intros Hdev. unfold onPreInit. by rewrite bool_decide_eq_false_2.
  - intros Ha. unfold onPreInit. rewrite bool_decide_eq_true_2 by done.
    rewrite (bind_ok _ _ _ _ _ (pathExists_false _ _ Ha)).
    unfold bind, pathExists, ret. simpl. by rewrite andb_false_r.
  - intros Hsep Ha. unfold onPreInit. rewrite bool_decide_eq_true_2 by done.
    rewrite (bind_ok _ _ _ _ _ (pathExists_true _ _ Ha)).
    assert (∀ cleared : disk,
              (∀ q, cleared !! (cachePathActive ++ q)
                    = σ !! (cachePathActive ++ q)) →
              cleared !! cachePathRolling = None →
              let σ' :=
                rename_tree cachePathActive cachePathRolling
                  (mkdirs (dirname cachePathRolling) cleared) in
              move cachePathActive cachePathRolling cleared = (σ', Ok ()) ∧
              is_Some (σ' !! cachePathRolling) ∧
              (∀ q, σ' !! (cachePathRolling ++ q)
                    = σ !! (cachePathActive ++ q)) ∧
              (∀ q, σ' !! (cachePathActive ++ q) = None)) as Hmove.
    { intros cleared Hsame Hfree. simpl.
      pose proof (Hsame []) as Hroot. rewrite app_nil_r in Hroot.
      split; [|split; [|split]].
      - apply (move_ok _ _ Hsep); [|done]. destruct Ha as [n Hn].
        exists n. etrans; [exact Hroot|exact Hn].
      - destruct Ha as [n Hn]. exists n.
        etrans; [apply (lookup_move_dest_root _ _ Hsep)|].
        etrans; [exact Hroot|exact Hn].
      - intros q. etrans; [apply (lookup_move_dest _ _ Hsep)|apply Hsame].
      - intros q. apply (lookup_move_src _ _ Hsep). }
    destruct (σ !! cachePathRolling) as [r|] eqn:Hr.
    + rewrite (bind_ok _ _ _ _ _ (pathExists_true _ _ (mk_is_Some _ _ Hr))).
      rewrite bool_decide_eq_true_2 by done. simpl.
      rewrite (bind_ok _ _ _ _ _ (remove_ok _ _)).
      apply Hmove; [|apply lookup_remove_tree_root].
      intros q. by rewrite lookup_remove_tree,
        (separate_under _ _ _ (separate_sym _ _ Hsep)).
    + rewrite (bind_ok _ _ _ _ _ (pathExists_false _ _ Hr)).
      rewrite bool_decide_eq_false_2 by (by intros [??]). simpl.
      unfold bind at 1, ret at 1. by apply Hmove.
  - intros q Hq -> Ha. cbv zeta. split; [by apply onPreInit_nested|].
    assert (Hout : under (cachePathActive ++ q) cachePathActive = false).
    { apply under_false. intros Hpre. apply prefix_length in Hpre.
      rewrite length_app in Hpre. destruct q; [done|]. simpl in Hpre. lia. }
    case_bool_decide as Hr.
    + split; [apply lookup_remove_tree_root|].
      by rewrite lookup_remove_tree, Hout.
    + split; [|done]. destruct (σ !! (cachePathActive ++ q)) eqn:Heq; [|done].
      destruct Hr. by eexists.
  - cbv zeta.
    change (cachePathActive_of
              (getCacheDirs ["site"] "linux" "x64" (Some "cache/") None))
      with ["site"; "cache"].
    change (cachePathRolling_of
              (getCacheDirs ["site"] "linux" "x64" (Some "cache/") None))
      with (["site"; "cache"] ++ ["-rolling"]).
    split; [done|]. split; [done|].
    assert (Hactive : is_Some (disk_nested_tiers !! ["site"; "cache"])).
    { unfold disk_nested_tiers. rewrite lookup_insert_ne by done.
      by apply lookup_mkdirs_ancestor. }
    assert (Hrolling :
      is_Some (disk_nested_tiers !! (["site"; "cache"] ++ ["-rolling"]))).
    { unfold disk_nested_tiers. rewrite lookup_insert_ne by done.
      by apply lookup_mkdirs_ancestor. }
    eexists. split; [|split].
    + rewrite (onPreInit_nested ["site"; "cache"] ["-rolling"]
                 disk_nested_tiers) by done.
      rewrite bool_decide_eq_true_2 by exact Hrolling. reflexivity.
    + rewrite lookup_remove_tree.
      change (under (["site"; "cache"] ++ ["-rolling"])
                ["site"; "cache"; "videos"; "clip-h264.mp4"]) with false.
      cbv iota. unfold disk_nested_tiers.
      rewrite lookup_insert_ne by done.
      rewrite lookup_mkdirs_outside by reflexivity.
      apply lookup_insert_eq.
    + apply (lookup_remove_tree_root (["site"; "cache"] ++ ["-rolling"])).
Qed.

Lemma onPreInit_rotation_witness :
  separate tier_active tier_rolling ∧
  ∃ σ',
    onPreInit (Some "production") tier_active tier_rolling disk_both_tiers
    = (σ', Ok ()) ∧
    σ' !! (tier_rolling ++ ["videos"; "clip-h264.mp4"]) = Some (File "new mp4") ∧
    σ' !! (tier_rolling ++ ["videos"; "old-h264.mp4"]) = None ∧
    σ' !! tier_active = None.
Proof.
  assert (separate tier_active tier_rolling) as Hsep by (split; reflexivity).
  split; [exact Hsep|].
  destruct (onPreInit_rotation (Some "production") tier_active tier_rolling
              disk_both_tiers) as (_ & _ & Hrot & _).
  destruct (Hrot Hsep) as (Hrun & _ & Hnew & Hold).
  - eexists. reflexivity.
  - eexists. split; [exact Hrun|]. split; [|split].
    + exact (Hnew ["videos"; "clip-h264.mp4"]).
    + exact (Hnew ["videos"; "old-h264.mp4"]).
    + exact (Hold []).
Defined.

(** ** The filter graph *)

Lemma stage_of_setpts (s : string) : stage_of ("setpts=" +:+ s) = Some TimeRemap.
Proof. reflexivity. Qed.

Lemma stage_of_fps (s : string) : stage_of ("fps=" +:+ s) = Some FrameRate.
Proof. reflexivity. Qed.

Lemma stage_of_scale (s : string) : stage_of ("scale=" +:+ s) = Some Scale.
Proof. reflexivity. Qed.

Lemma stage_of_saturation (s : string) :
  stage_of ("eq=saturation=" +:+ s) = Some Saturation.
Proof. reflexivity. Qed.

Lemma stage_of_overlay (s : string) : stage_of ("overlay=" +:+ s) = Some Overlay.
Proof. reflexivity. Qed.

Lemma createFilters_stages `{Runtime} (fieldArgs : DefaultTransformerFieldArgs)
    (stream0 : FfprobeStream) (rest : list FfprobeStream)
    (filters : list string) :
  createFilters fieldArgs {| streams := stream0 :: rest |} = Ok filters →
  stage_of <$> filters = requested_stages fieldArgs (duration stream0).
Proof.
  unfold createFilters, requested_stages, saturation_differs. simpl streams.
  cbv beta iota zeta.
  destruct (truthy (fa_duration fieldArgs) && truthy (duration stream0));
    destruct (truthy (fps fieldArgs));
    destruct (truthy (maxWidth fieldArgs) || truthy (maxHeight fieldArgs));
    (destruct (saturation fieldArgs) as [| |s];
       [| |destruct (PrimFloat.eqb s 1)]);
    destruct (truthy (overlay fieldArgs));
    try (destruct (overlay_coordinate "w" _ (overlayX fieldArgs)) as [x|e];
         [|discriminate];
         destruct (overlay_coordinate "h" _ (overlayY fieldArgs)) as [y|e];
         [|discriminate]);
    unfold result_bind; intros [= <-]; reflexivity.
Qed.

Lemma createFilters_total `{Runtime} (fieldArgs : DefaultTransformerFieldArgs)
    (stream0 : FfprobeStream) (rest : list FfprobeStream) :
  truthy (overlay fieldArgs) = false →
  ∃ filters, createFilters fieldArgs {| streams := stream0 :: rest |}
             = Ok filters.
Proof.
  intros Hoverlay. unfold createFilters. simpl streams. cbv beta iota zeta.
  rewrite Hoverlay. by eexists.
Qed.

Lemma toFixed6_div_nan `{Runtime} (x : float) :
  toFixed6 (PrimFloat.div x PrimFloat.nan) = "NaN".
Proof.
  unfold toFixed6. rewrite FloatAxioms.div_spec.
  change (Prim2SF PrimFloat.nan) with S754_nan.
  by destruct (Prim2SF x).
Qed.

Lemma createFilters_not_numeric `{Runtime}
    (fieldArgs : DefaultTransformerFieldArgs) (stream0 : FfprobeStream)
    (rest : list FfprobeStream) (s : string) (filters : list string) :
  duration stream0 = Some (probe_string s) → s ≠ "" → parseInt s = NaN →
  truthy (fa_duration fieldArgs) = true →
  createFilters fieldArgs {| streams := stream0 :: rest |} = Ok filters →
  ∃ later, filters = "setpts=NaN*PTS" :: later.
Proof.
  intros Hduration Hpresent Hparse Hrequested.
  unfold createFilters. simpl streams. cbv beta iota zeta.
  rewrite Hduration, Hrequested.
  assert (truthy (Some (probe_string s)) = true) as ->
    by by destruct s.
  cbn [andb from_option]. change (show (probe_string s)) with s.
  rewrite Hparse. cbn [float_of_number]. rewrite toFixed6_div_nan.
  destruct (truthy (fps fieldArgs));
    destruct (truthy (maxWidth fieldArgs) || truthy (maxHeight fieldArgs));
    (destruct (saturation fieldArgs) as [| |x];
       [| |destruct (PrimFloat.eqb x 1)]);
    destruct (truthy (overlay fieldArgs));
    try (destruct (overlay_coordinate "w" _ (overlayX fieldArgs)) as [cx|e];
         [|discriminate];
         destruct (overlay_coordinate "h" _ (overlayY fieldArgs)) as [cy|e];
         [|discriminate]);
    unfold result_bind; intros [= <-]; eexists; reflexivity.
Qed.

(** C5: for duration 2, fps 4, maxWidth 600 and saturation 1 on a source of
    10 seconds the filters are the time remap with multiplier 0.200000, then
    fps=4, then the scale stage, and no saturation stage.  In general the
    stages present are those requested, in the order time remap, frame
    rate, scale, saturation, overlay, and there is no time remap when the
    duration of the source is missing, empty or zero.  The prober reports a
    duration it does not know as "N/A": for it, as for every string that is
    no number, the time remap is not omitted but emitted with the
    multiplier NaN. *)
Theorem createFilters_order `{Runtime} :
  createFilters example_fieldArgs example_info
  = Ok ["setpts=0.200000*PTS"; "fps=4";
        "scale='min(600,iw)':-2:flags=lanczos"] ∧
  (∀ fieldArgs stream0 rest,
     (truthy (overlay fieldArgs) = false →
      ∃ filters, createFilters fieldArgs {| streams := stream0 :: rest |}
                 = Ok filters) ∧
     ∀ filters,
       createFilters fieldArgs {| streams := stream0 :: rest |} = Ok filters →
       stage_of <$> filters = requested_stages fieldArgs (duration stream0) ∧
       stage_of <$> filters `sublist_of`
         [Some TimeRemap; Some FrameRate; Some Scale; Some Saturation;
          Some Overlay] ∧
       (truthy (duration stream0) = false →
        Some TimeRemap ∉ stage_of <$> filters)) ∧
  createFilters example_fieldArgs
    {| streams := [ {| codec_type := Some "video";
                       r_frame_rate := Some "30/1";
                       duration := Some (probe_string "N/A");
                       width := Some 1280%Z;
                       height := Some 720%Z |} ] |}
  = Ok ["setpts=NaN*PTS"; "fps=4"; "scale='min(600,iw)':-2:flags=lanczos"] ∧
  (∀ fieldArgs stream0 rest s filters,
     duration stream0 = Some (probe_string s) → s ≠ "" → parseInt s = NaN →
     truthy (fa_duration fieldArgs) = true →
     createFilters fieldArgs {| streams := stream0 :: rest |} = Ok filters →
     ∃ later, filters = "setpts=NaN*PTS" :: later).
Proof.
  split; [by vm_compute|]. split; [|split; [by vm_compute|]].
  2: { intros fieldArgs stream0 rest s filters.
       apply createFilters_not_numeric. }
  intros fieldArgs stream0 rest. split; [apply createFilters_total|].
  intros filters Hrun. apply createFilters_stages in Hrun. rewrite Hrun.
  split; [done|]. unfold requested_stages. split.
  - destruct (truthy (fa_duration fieldArgs) && truthy (duration stream0));
      destruct (truthy (fps fieldArgs));
      destruct (truthy (maxWidth fieldArgs) || truthy (maxHeight fieldArgs));
      destruct (saturation_differs (saturation fieldArgs));
      destruct (truthy (overlay fieldArgs)); simpl;
      repeat first [ apply sublist_nil_l | apply sublist_skip
                   | apply sublist_cons ].
  - intros ->. rewrite andb_false_r. simpl.
    destruct (truthy (fps fieldArgs));
      destruct (truthy (maxWidth fieldArgs) || truthy (maxHeight fieldArgs));
      destruct (saturation_differs (saturation fieldArgs));
      destruct (truthy (overlay fieldArgs)); simpl;
      rewrite ?elem_of_cons, elem_of_nil; intros Hin;
      repeat destruct Hin as [Hin|Hin]; done.
Qed.

Lemma createFilters_order_witness :
  ∃ filters,
    createFilters (H := sample_runtime)
      example_fieldArgs {| streams := streams example_info |} = Ok filters ∧
    stage_of <$> filters = [Some TimeRemap; Some FrameRate; Some Scale].
Proof.
  destruct (createFilters_order (H := sample_runtime)) as (_ & Hgeneral & _).
  destruct (Hgeneral example_fieldArgs
              {| codec_type := Some "video"; r_frame_rate := Some "30/1";
                 duration := Some (probe_int 10); width := Some 1280%Z;
                 height := Some 720%Z |} []) as [Htotal Hstages].
  destruct Htotal as [filters Hrun]; [reflexivity|].
  exists filters. split; [exact Hrun|].
  destruct (Hstages filters Hrun) as (Heq & _ & _).
  rewrite Heq. reflexivity.
Defined.

(** ** The VP9 bitrate ladder *)

(** The reduction returns a candidate, the seed included, that is at least
    as close to the target as every candidate. *)
Lemma closest_from_spec (t : Z) (keys : list Z) (seed : Z) :
  closest_from (Int t) seed keys ∈ seed :: keys ∧
  ∀ k, k ∈ seed :: keys →
    (Z.abs (closest_from (Int t) seed keys - t) ≤ Z.abs (k - t))%Z.
Proof.
  revert seed. induction keys as [|key keys IH]; intros seed.
  - split; [left|]. intros k ->%list_elem_of_singleton. reflexivity.
  - change (closest_from (Int t) seed (key :: keys))
      with (closest_from (Int t)
              (if (Z.abs (key - t) <? Z.abs (seed - t))%Z then key else seed)
              keys).
    destruct (Z.ltb_spec (Z.abs (key - t)) (Z.abs (seed - t))) as [Hlt|Hge].
    + destruct (IH key) as [Hin Hmin]. split; [by right|].
      intros k Hk. apply elem_of_cons in Hk as [Hk|Hk]; [|by apply Hmin].
      subst k. trans (Z.abs (key - t)); [apply Hmin; left|lia].
    + destruct (IH seed) as [Hin Hmin]. split.
      * apply elem_of_cons in Hin as [Hin|Hin]; [rewrite Hin; left|].
        right. by right.
      * intros k Hk. apply elem_of_cons in Hk as [Hk|Hk].
        { subst k. apply Hmin. left. }
        apply elem_of_cons in Hk as [Hk|Hk].
        { subst k. trans (Z.abs (seed - t)); [apply Hmin; left|lia]. }
        apply Hmin. by right.
Qed.

(** For a minimum dimension above 120 the selected resolution is a bucket
    of the ladder, and no bucket is closer. *)
Lemma closest_resolution_bucket (dimensionMin : Z) :
  (120 < dimensionMin)%Z →
  closest (Int dimensionMin) resolutions ∈ resolutions ∧
  ∀ k, k ∈ resolutions →
    (Z.abs (closest (Int dimensionMin) resolutions - dimensionMin)
     ≤ Z.abs (k - dimensionMin))%Z.
Proof.
  intros Hbig.
  destruct (closest_from_spec dimensionMin resolutions 0) as [Hin Hmin].
  change (closest_from (Int dimensionMin) 0 resolutions)
    with (closest (Int dimensionMin) resolutions) in Hin, Hmin.
  split.
  - apply elem_of_cons in Hin as [Hzero|Hin]; [|done].
    specialize (Hmin 240%Z). rewrite Hzero in Hmin.
    assert (240%Z ∈ 0%Z :: resolutions) as H240 by (right; left).
    specialize (Hmin H240). lia.
  - intros k Hk. apply Hmin. by right.
Qed.

(** A source with minimum dimension 715 at 30 frames per second selects the
    720p/30fps bucket, and the keyframe interval is 30 * 8. *)
Example profileVP9_715 :
  result_bind (parseVideoStream (probed 1272 715 "30/1"))
    (vp9_select vp9_default_args)
  = Ok {| dimensionMin := 715; appliedFps := Int 30;
          closestResolution := 720; closestFps := 30;
          appliedBitrate := "1024k"; appliedMinrate := "512k";
          appliedMaxrate := "1485k" |} ∧
  result_bind (parseVideoStream (probed 1272 715 "30/1"))
    (λ m, result_bind
            (profileVP9 (new_session "clip.mp4") [] vp9_default_args m)
            (λ session, Ok (outputOptions session)))
  = Ok ["-crf 31"; "-b:v 1024k"; "-minrate 512k"; "-maxrate 1485k";
        "-cpu-used 1"; "-g 240"; "-pix_fmt yuv420p"].
Proof. split; by vm_compute. Qed.

(** C6: on a 160x120 source at 30 frames per second, with no explicit
    rates, the reduction keeps its seed 0, which is no bucket of the ladder
    although 240 is the closest one, and the profile throws instead of
    emitting the 240p/30fps triplet; a requested frame rate of 4 on a
    1272x715 source fails in the same way at the frame-rate bucket. *)
Theorem profileVP9_seed_selected :
  closest (Int 120) resolutions = 0%Z ∧
  result_bind (parseVideoStream (probed 160 120 "30/1"))
    (profileVP9 (new_session "clip.mp4") [] vp9_default_args)
  = Throw (TypeError "Cannot convert undefined or null to object") ∧
  result_bind (parseVideoStream (probed 1272 715 "30/1"))
    (profileVP9 (new_session "clip.mp4") []
       {| vp9_base := example_fieldArgs; vp9_crf := val 31%Z;
          bitRate := undefined; minRate := undefined; maxRate := undefined;
          cpuUsed := val 1%Z |})
  = Throw (TypeError "Cannot read properties of undefined (reading '0')").
Proof. repeat split; by vm_compute. Qed.

(** ** Rate control of H264 and H265 *)

Lemma or_number_targetFps (requested : nullable Z) (currentFps : number) :
  or_number requested currentFps = targetFps requested currentFps.
Proof.
  destruct requested as [| |z]; try done. unfold or_number, targetFps, truthy,
    truthy_Z. by destruct (z =? 0)%Z.
Qed.

Lemma truthy_crf (crf : Z) : crf ≠ 0%Z → truthy (val crf) = true.
Proof.
  intros Hcrf. unfold truthy, truthy_nullable, truthy, truthy_Z.
  by destruct (Z.eqb_spec crf 0).
Qed.

(** The keyframe interval, whatever the other arguments are. *)
Lemma h264_keyframes (fieldArgs : H264TransformerFieldArgs)
    (currentFps : number) :
  let options := h264_outputOptions fieldArgs currentFps in
  let keyframes :=
    "-g " +:+ show (floor_half
                      (targetFps (fps (h264_base fieldArgs)) currentFps)) in
  keyframes ∈ options ∧
  Forall (λ o, starts_with "-g " o = true → o = keyframes) options.
Proof.
  cbv zeta. unfold h264_outputOptions. rewrite or_number_targetFps.
  unfold filter_Boolean, and_then.
  destruct (truthy (h264_crf fieldArgs));
    destruct (truthy (h264_preset fieldArgs));
    destruct (truthy (h264_maxRate fieldArgs));
    destruct (truthy (h264_bufSize fieldArgs));
    cbn [negb andb]; simpl omap; split; options_solve.
Qed.

Lemma h265_keyframes (fieldArgs : H265TransformerFieldArgs)
    (currentFps : number) :
  let options := h265_outputOptions fieldArgs currentFps in
  let keyframes :=
    "-g " +:+ show (floor_half
                      (targetFps (fps (h265_base fieldArgs)) currentFps)) in
  keyframes ∈ options ∧
  Forall (λ o, starts_with "-g " o = true → o = keyframes) options.
Proof.
  cbv zeta. unfold h265_outputOptions. rewrite or_number_targetFps.
  unfold filter_Boolean, and_then.
  destruct (truthy (h265_crf fieldArgs));
    destruct (truthy (h265_preset fieldArgs));
    destruct (truthy (h265_maxRate fieldArgs));
    destruct (truthy (h265_bufSize fieldArgs));
    cbn [negb andb]; simpl omap; split; options_solve.
Qed.

(** A CRF that is not zero takes precedence. *)
Lemma h264_crf_given (fieldArgs : H264TransformerFieldArgs)
    (currentFps : number) (crf : Z) :
  h264_crf fieldArgs = val crf → crf ≠ 0%Z →
  let options := h264_outputOptions fieldArgs currentFps in
  ("-crf " +:+ show crf) ∈ options ∧
  Forall (λ o, starts_with "-maxrate" o = false
               ∧ starts_with "-bufsize" o = false) options.
Proof.
  intros Hcrf Hnonzero. cbv zeta. unfold h264_outputOptions.
  rewrite Hcrf, (truthy_crf _ Hnonzero).
  unfold filter_Boolean, and_then.
  destruct (truthy (h264_preset fieldArgs));
    cbn [negb andb]; simpl omap; split; options_solve.
Qed.

Lemma h265_crf_given (fieldArgs : H265TransformerFieldArgs)
    (currentFps : number) (crf : Z) :
  h265_crf fieldArgs = val crf → crf ≠ 0%Z →
  let options := h265_outputOptions fieldArgs currentFps in
  ("-crf " +:+ show crf) ∈ options ∧
  Forall (λ o, starts_with "-x265-params" o = false) options.
Proof.
  intros Hcrf Hnonzero. cbv zeta. unfold h265_outputOptions.
  rewrite Hcrf, (truthy_crf _ Hnonzero).
  unfold filter_Boolean, and_then.
  destruct (truthy (h265_preset fieldArgs));
    cbn [negb andb]; simpl omap; split; options_solve.
Qed.

(** A CRF of zero is dropped, and the rates are emitted. *)
Lemma h264_crf_zero (fieldArgs : H264TransformerFieldArgs)
    (currentFps : number) :
  h264_crf fieldArgs = val 0%Z →
  let options := h264_outputOptions fieldArgs currentFps in
  Forall (λ o, starts_with "-crf" o = false) options ∧
  (truthy (h264_maxRate fieldArgs) = true →
   ("-maxrate " +:+ show (h264_maxRate fieldArgs)) ∈ options) ∧
  (truthy (h264_bufSize fieldArgs) = true →
   ("-bufsize " +:+ show (h264_bufSize fieldArgs)) ∈ options).
Proof.
  intros Hcrf. cbv zeta. unfold h264_outputOptions. rewrite Hcrf.
  change (truthy (val 0%Z)) with false.
  unfold filter_Boolean, and_then.
  destruct (truthy (h264_preset fieldArgs));
    destruct (truthy (h264_maxRate fieldArgs));
    destruct (truthy (h264_bufSize fieldArgs));
    cbn [negb andb]; simpl omap;
    (split; [options_solve|split; intros Hgiven; first [done|options_solve]]).
Qed.

Lemma h265_crf_zero (fieldArgs : H265TransformerFieldArgs)
    (currentFps : number) :
  h265_crf fieldArgs = val 0%Z →
  let options := h265_outputOptions fieldArgs currentFps in
  Forall (λ o, starts_with "-crf" o = false) options ∧
  (truthy (h265_maxRate fieldArgs) = true →
   truthy (h265_bufSize fieldArgs) = true →
   ("-x265-params vbv-maxrate=" +:+ show (h265_maxRate fieldArgs)
      +:+ ":vbv-bufsize=" +:+ show (h265_bufSize fieldArgs)) ∈ options).
Proof.
  intros Hcrf. cbv zeta. unfold h265_outputOptions. rewrite Hcrf.
  change (truthy (val 0%Z)) with false.
  unfold filter_Boolean, and_then.
  destruct (truthy (h265_preset fieldArgs));
    destruct (truthy (h265_maxRate fieldArgs));
    destruct (truthy (h265_bufSize fieldArgs));
    cbn [negb andb]; simpl omap;
    (split; [options_solve|intros Hmax Hbuf; first [done|options_solve]]).
Qed.

(** C7: a CRF of 0 given together with a rate pair does not take
    precedence: no CRF option is emitted and the rate options are (for
    H265 the rate parameters), here and for every argument set with a CRF
    of 0.  A CRF that is not zero does take precedence: the CRF option is
    emitted and no max-rate, buffer-size or rate-parameter option,
    whatever rate pair is given.  The keyframe interval is always the
    floor of half the target frame rate, which is the requested frame rate
    or else that of the source. *)
Theorem crf_takes_precedence :
  h264_outputOptions (h264_args (val 0%Z) (val "1M") (val "2M") null) (Int 30)
  = ["-preset medium"; "-maxrate 1M"; "-bufsize 2M"; "-movflags +faststart";
     "-profile:v high"; "-bf 2" +:+ tab; "-g 15"; "-coder 1";
     "-pix_fmt yuv420p"] ∧
  h265_outputOptions (h265_args (val 0%Z) (val "1M") (val "2M") null) (Int 30)
  = ["-preset medium"; "-x265-params vbv-maxrate=1M:vbv-bufsize=2M";
     "-movflags +faststart"; "-bf 2"; "-g 15"; "-pix_fmt yuv420p";
     "-tag:v hvc1"] ∧
  ∀ (args264 : H264TransformerFieldArgs) (args265 : H265TransformerFieldArgs)
    (currentFps : number),
    let h264 := h264_outputOptions args264 currentFps in
    let h265 := h265_outputOptions args265 currentFps in
    let keyframes (base : DefaultTransformerFieldArgs) :=
      "-g " +:+ show (floor_half (targetFps (fps base) currentFps)) in
    (keyframes (h264_base args264) ∈ h264 ∧
     Forall (λ o, starts_with "-g " o = true
                  → o = keyframes (h264_base args264)) h264 ∧
     keyframes (h265_base args265) ∈ h265 ∧
     Forall (λ o, starts_with "-g " o = true
                  → o = keyframes (h265_base args265)) h265) ∧
    (∀ crf, h264_crf args264 = val crf → crf ≠ 0%Z →
       ("-crf " +:+ show crf) ∈ h264 ∧
       Forall (λ o, starts_with "-maxrate" o = false
                    ∧ starts_with "-bufsize" o = false) h264) ∧
    (∀ crf, h265_crf args265 = val crf → crf ≠ 0%Z →
       ("-crf " +:+ show crf) ∈ h265 ∧
       Forall (λ o, starts_with "-x265-params" o = false) h265) ∧
    (h264_crf args264 = val 0%Z →
       Forall (λ o, starts_with "-crf" o = false) h264 ∧
       (truthy (h264_maxRate args264) = true →
        ("-maxrate " +:+ show (h264_maxRate args264)) ∈ h264) ∧
       (truthy (h264_bufSize args264) = true →
        ("-bufsize " +:+ show (h264_bufSize args264)) ∈ h264)) ∧
    (h265_crf args265 = val 0%Z →
       Forall (λ o, starts_with "-crf" o = false) h265 ∧
       (truthy (h265_maxRate args265) = true →
        truthy (h265_bufSize args265) = true →
        ("-x265-params vbv-maxrate=" +:+ show (h265_maxRate args265)
           +:+ ":vbv-bufsize=" +:+ show (h265_bufSize args265)) ∈ h265)).
Proof.
  split; [by vm_compute|]. split; [by vm_compute|].
  intros args264 args265 currentFps. cbv zeta.
  destruct (h264_keyframes args264 currentFps) as [Hg264 Honly264].
  destruct (h265_keyframes args265 currentFps) as [Hg265 Honly265].
  split; [done|]. split; [|split; [|split]].
  - intros crf. apply h264_crf_given.
  - intros crf. apply h265_crf_given.
  - apply h264_crf_zero.
  - apply h265_crf_zero.
Qed.

Lemma crf_takes_precedence_witness :
  (28 ≠ 0)%Z ∧
  "-crf 28" ∈ h264_outputOptions
                (h264_args (val 28%Z) (val "1M") (val "2M") null) (Int 30) ∧
  "-g 15" ∈ h265_outputOptions
              (h265_args (val 28%Z) (val "1M") (val "2M") null) (Int 30).
Proof.
  assert (28 ≠ 0)%Z as Hcrf by discriminate.
  split; [exact Hcrf|].
  destruct crf_takes_precedence as (_ & _ & Hgeneral).
  destruct (Hgeneral (h264_args (val 28%Z) (val "1M") (val "2M") null)
              (h265_args (val 28%Z) (val "1M") (val "2M") null) (Int 30))
    as ((_ & _ & Hg265 & _) & Hgiven264 & _).
  split; [exact (proj1 (Hgiven264 28%Z eq_refl Hcrf))|exact Hg265].
Defined.

(** ** Cache keys *)

Lemma ascii_compare_eq (a b : ascii) : Ascii.compare a b = Eq → a = b.
Proof.
  unfold Ascii.compare. intros Heq%N.compare_eq.
  by rewrite <- (ascii_N_embedding a), <- (ascii_N_embedding b), Heq.
Qed.

Lemma ascii_compare_lt_trans (a b c : ascii) :
  Ascii.compare a b = Lt → Ascii.compare b c = Lt → Ascii.compare a c = Lt.
Proof.
  unfold Ascii.compare. rewrite !N.compare_lt_iff. lia.
Qed.

Lemma string_compare_trans (s1 s2 s3 : string) :
  String.compare s1 s2 ≠ Gt → String.compare s2 s3 ≠ Gt →
  String.compare s1 s3 ≠ Gt.
Proof.
  revert s2 s3. induction s1 as [|a s1 IH]; intros [|b s2] [|c s3];
    simpl; try done.
  destruct (Ascii.compare a b) eqn:Hab; [| |done];
    destruct (Ascii.compare b c) eqn:Hbc; try done.
  - apply ascii_compare_eq in Hab as ->. rewrite Hbc. apply IH.
  - apply ascii_compare_eq in Hab as ->. by rewrite Hbc.
  - apply ascii_compare_eq in Hbc as <-. by rewrite Hab.
  - by rewrite (ascii_compare_lt_trans a b c).
Qed.

Lemma string_leb_compare (s1 s2 : string) :
  String.leb s1 s2 = true ↔ String.compare s1 s2 ≠ Gt.
Proof. unfold String.leb. by destruct (String.compare s1 s2). Qed.

Lemma key_le_trans : Transitive key_le.
Proof.
  intros e1 e2 e3. unfold key_le. rewrite !string_leb_compare.
  apply string_compare_trans.
Qed.

Lemma key_le_total : Total key_le.
Proof. intros e1 e2. apply String.leb_total. Qed.

(** Two insertion orders of the same properties have one canonical order. *)
Lemma merge_sort_insertion_order (entries1 entries2 : JsObject) :
  NoDup entries1.*1 → entries1 ≡ₚ entries2 →
  merge_sort key_le entries1 = merge_sort key_le entries2.
Proof.
  intros Hkeys Hperm.
  pose proof key_le_trans as Htrans. pose proof key_le_total as Htotal.
  apply (StronglySorted_unique_strong key_le).
  - intros e1 e2 He1 He2 H12 H21.
    rewrite merge_sort_Permutation in He1, He2.
    rewrite <- Hperm in He2.
    assert (e1.1 = e2.1) as Hkey by by apply String.leb_antisym.
    apply list_elem_of_lookup in He1 as [i Hi], He2 as [j Hj].
    assert (i = j) as ->.
    { eapply NoDup_lookup; [exact Hkeys| |].
      - by rewrite list_lookup_fmap, Hi.
      - by rewrite list_lookup_fmap, Hj, Hkey. }
    congruence.
  - apply StronglySorted_merge_sort; apply _.
  - apply StronglySorted_merge_sort; apply _.
  - by rewrite !merge_sort_Permutation.
Qed.

Lemma analyzeAndFetchVideo_filename `{Runtime, Host} (video : VideoNode)
    (fieldArgs : JsObject) (type : string) (σ σ' : disk) (md : VideoMetadata) :
  analyzeAndFetchVideo video fieldArgs type σ = (σ', Ok md) →
  ∃ name, md_filename md =
          name +:+ "-" +:+ source_digest video type +:+ "-"
            +:+ createContentDigest (JsObj fieldArgs).
Proof.
  unfold analyzeAndFetchVideo, source_digest. unfold bind at 1.
  destruct (if truthy (base video) then _ else _) as [σ0 [basename|e]];
    [|discriminate].
  destruct (String.eqb type "ContentfulAsset").
  - unfold member. destruct (file video) as [f|]; [|discriminate].
    unfold bind, ret. simpl.
    destruct (queueFetchRemoteFile _ _ σ0) as [σ1 [fetched|e]]; [|discriminate].
    simpl. destruct (negb (truthy (Some fetched))); [discriminate|].
    destruct (executeFfprobe _ σ1) as [σ2 [probe|e]]; [|discriminate].
    intros [= _ <-]. by eexists.
  - unfold bind at 1, ret at 1. simpl.
    destruct (negb _); [discriminate|]. unfold bind, ret.
    destruct (executeFfprobe _ σ0) as [σ2 [probe|e]]; [|discriminate].
    intros [= _ <-]. by eexists.
Qed.

(** C8: two option sets with the same fields in different insertion orders
    have the same options hash, hence [analyzeAndFetchVideo] derives the
    same cache key (and does the same) for them on a given source; the key
    is the name, the source digest and the options hash, in this order. *)
Theorem cache_key_insertion_order `{Runtime, Host} (video : VideoNode)
    (type : string) (fieldArgs1 fieldArgs2 : JsObject) (σ : disk) :
  NoDup fieldArgs1.*1 → fieldArgs1 ≡ₚ fieldArgs2 →
  createContentDigest (JsObj fieldArgs1)
  = createContentDigest (JsObj fieldArgs2) ∧
  analyzeAndFetchVideo video fieldArgs1 type σ
  = analyzeAndFetchVideo video fieldArgs2 type σ ∧
  ∀ σ' md,
    analyzeAndFetchVideo video fieldArgs2 type σ = (σ', Ok md) →
    ∃ name, md_filename md =
            name +:+ "-" +:+ source_digest video type +:+ "-"
              +:+ createContentDigest (JsObj fieldArgs1).
Proof.
  intros Hkeys Hperm.
  assert (createContentDigest (JsObj fieldArgs1)
          = createContentDigest (JsObj fieldArgs2)) as Hdigest.
  { unfold createContentDigest, canonicalize.
    by rewrite (merge_sort_insertion_order _ _ Hkeys Hperm). }
  split; [exact Hdigest|]. split.
  - unfold analyzeAndFetchVideo. by rewrite Hdigest.
  - intros σ' md Hrun. rewrite Hdigest.
    by apply (analyzeAndFetchVideo_filename _ _ _ _ _ _ Hrun).
Qed.

Lemma cache_key_insertion_order_witness :
  createContentDigest (H := sample_runtime) (H0 := sample_host)
    (JsObj [("maxWidth", s_int 600); ("fps", s_int 4)])
  = createContentDigest (H := sample_runtime) (H0 := sample_host)
      (JsObj [("fps", s_int 4); ("maxWidth", s_int 600)]).
Proof.
  refine (proj1 (cache_key_insertion_order (H := sample_runtime)
                   (H0 := sample_host) (local_video (Some "video/mp4")) "File"
                   [("maxWidth", s_int 600); ("fps", s_int 4)]
                   [("fps", s_int 4); ("maxWidth", s_int 600)] ∅ _ _)).
  - apply (bool_decide_unpack _). reflexivity.
  - apply perm_swap.
Defined.

(** ** Resolution of a field *)

Lemma prepareAndAnalyzeVideo_wrong_type `{Runtime, Host} (rootDir : path)
    (video : VideoNode) (fieldArgs : JsObject) (fileType : string) (σ : disk) :
  resolved_fileType video fileType → fileType ≠ "" →
  lacks "video/" fileType = true →
  prepareAndAnalyzeVideo rootDir video fieldArgs σ
  = (σ, Throw WrongFileTypeError).
Proof.
  intros Htype Hpresent Hlacks. unfold prepareAndAnalyzeVideo.
  assert (truthy (Some fileType) = true) as Htruthy
    by by destruct fileType.
  destruct Htype as [[-> ->]|(-> & f & -> & <-)]; simpl.
  - unfold bind, ret. rewrite Htruthy. simpl. by rewrite Hlacks.
  - unfold bind, ret. rewrite Htruthy. simpl. by rewrite Hlacks.
Qed.

Lemma prepareAndAnalyzeVideo_missing_type `{Runtime, Host} (rootDir : path)
    (video : VideoNode) (fieldArgs : JsObject) (σ : disk) :
  internal_type video ≠ "ContentfulAsset" ∨ is_Some (file video) →
  (∀ fileType, resolved_fileType video fileType → fileType = "") →
  prepareAndAnalyzeVideo rootDir video fieldArgs σ
  = (σ, Throw (Error ("Unable to extract asset file type for "
                        +:+ internal_type video +:+ " (" +:+ id video
                        +:+ ")"))).
Proof.
  intros Hfile Hempty. unfold prepareAndAnalyzeVideo.
  destruct (String.eqb_spec (internal_type video) "ContentfulAsset")
    as [Hasset|Hother].
  - destruct Hfile as [?|[f Hf]]; [done|].
    assert (contentType f = "") as Hcontent.
    { apply Hempty. right. split; [done|]. by exists f. }
    rewrite Hf. unfold bind, member, ret. by rewrite Hcontent.
  - unfold bind at 1. unfold ret at 1.
    destruct (String.eqb_spec (internal_type video) "File") as [Htype|_];
      [|done].
    destruct (internal_mediaType video) as [fileType|] eqn:Hmedia; [|done].
    assert (fileType = "") as -> by (apply Hempty; left; by split).
    done.
Qed.

Lemma prepareAndAnalyzeVideo_no_file `{Runtime, Host} (rootDir : path)
    (video : VideoNode) (fieldArgs : JsObject) (σ : disk) :
  internal_type video = "ContentfulAsset" → file video = None →
  prepareAndAnalyzeVideo rootDir video fieldArgs σ
  = (σ, Throw (TypeError
                 "Cannot read properties of undefined (reading 'contentType')")).
Proof.
  intros Htype Hfile. unfold prepareAndAnalyzeVideo. by rewrite Htype, Hfile.
Qed.

(** A file type that is present but empty contains no "video/", yet the
    resolver throws: the guard on a missing file type comes first. *)
Lemma empty_file_type_throws :
  lacks "video/" "" = true ∧
  resolved_fileType (local_video (Some "")) "" ∧
  resolveVideo (H := sample_runtime) (H0 := sample_host) ["site"]
    (λ _, ret {| publicPath_of := ["site"; "public"; "videos"; "clip.mp4"] |})
    (λ videoData, ret videoData)
    (local_video (Some "")) [("publicPath", s_string "static/videos")] ∅
  = (∅, Throw (Error "Unable to extract asset file type for File (node-1)")).
Proof.
  split; [reflexivity|]. split; [by left|]. reflexivity.
Qed.

(** C9, for a file type that is present: an asset whose file type is not
    empty and does not contain "video/" resolves to null, nothing being
    thrown or written.  An asset whose file type is missing or empty does
    not: the resolver throws the error that names the type and the id of
    the asset (for a Contentful asset without file, the TypeError of the
    property access), with the disk unchanged.  Every error other than the
    typed skip condition, raised by the preparation, by the transformer or
    by the processing of its result, is thrown again as it is: it is the
    result of that call, on the disk that the failing step left, and a
    typed skip condition raised there resolves to null.  A run without
    error resolves to the processed result. *)
Theorem resolveVideo_skip_and_rethrow `{Runtime, Host} {R : Type}
    (rootDir : path) (transformer : VideoTransformerArgs → M ConvertVideoResult)
    (processResult : ConvertVideoResult → M R)
    (video : VideoNode) (fieldArgs : JsObject) (σ : disk) :
  let run := resolveVideo rootDir transformer processResult video fieldArgs σ in
  let arguments prepared :=
    {| ta_video := video; ta_publicDir := pv_publicDir prepared;
       ta_path := pv_path prepared; ta_name := pv_name prepared;
       ta_fieldArgs := fieldArgs; ta_info := pv_info prepared |} in
  (∀ fileType,
     resolved_fileType video fileType → fileType ≠ "" →
     lacks "video/" fileType = true → run = (σ, Ok null)) ∧
  (internal_type video ≠ "ContentfulAsset" ∨ is_Some (file video) →
   (∀ fileType, resolved_fileType video fileType → fileType = "") →
   run = (σ, Throw (Error ("Unable to extract asset file type for "
                             +:+ internal_type video +:+ " (" +:+ id video
                             +:+ ")")))) ∧
  (internal_type video = "ContentfulAsset" → file video = None →
   run = (σ, Throw (TypeError
               "Cannot read properties of undefined (reading 'contentType')"))) ∧
  (∀ σ1 e,
     prepareAndAnalyzeVideo rootDir video fieldArgs σ = (σ1, Throw e) →
     (e ≠ WrongFileTypeError → run = (σ1, Throw e)) ∧
     (e = WrongFileTypeError → run = (σ1, Ok null))) ∧
  (∀ σ1 prepared,
     prepareAndAnalyzeVideo rootDir video fieldArgs σ = (σ1, Ok prepared) →
     (∀ σ2 e,
        transformer (arguments prepared) σ1 = (σ2, Throw e) →
        (e ≠ WrongFileTypeError → run = (σ2, Throw e)) ∧
        (e = WrongFileTypeError → run = (σ2, Ok null))) ∧
     (∀ σ2 videoData,
        transformer (arguments prepared) σ1 = (σ2, Ok videoData) →
        (∀ σ3 e,
           processResult videoData σ2 = (σ3, Throw e) →
           (e ≠ WrongFileTypeError → run = (σ3, Throw e)) ∧
           (e = WrongFileTypeError → run = (σ3, Ok null))) ∧
        (∀ σ3 fields,
           processResult videoData σ2 = (σ3, Ok fields) →
           run = (σ3, Ok (val fields))))).
Proof.
  cbv zeta. unfold resolveVideo, try_catch.
  assert (∀ (e : exn) (σ' : disk),
            (e ≠ WrongFileTypeError →
             (if negb (instanceof_WrongFileTypeError e)
              then throw e else ret (null : nullable R)) σ'
             = (σ', Throw e)) ∧
            (e = WrongFileTypeError →
             (if negb (instanceof_WrongFileTypeError e)
              then throw e else ret (null : nullable R)) σ'
             = (σ', Ok null))) as Hcatch.
  { intros e σ'. split; [by destruct e|by intros ->]. }
  split; [|split; [|split; [|split]]].
  - intros fileType Htype Hpresent Hlacks.
    rewrite (bind_throw _ _ _ _ _
               (prepareAndAnalyzeVideo_wrong_type rootDir video fieldArgs
                  fileType σ Htype Hpresent Hlacks)).
    reflexivity.
  - intros Hfile Hempty.
    by rewrite (bind_throw _ _ _ _ _
                  (prepareAndAnalyzeVideo_missing_type rootDir video fieldArgs
                     σ Hfile Hempty)).
  - intros Htype Hfile.
    by rewrite (bind_throw _ _ _ _ _
                  (prepareAndAnalyzeVideo_no_file rootDir video fieldArgs
                     σ Htype Hfile)).
  - intros σ1 e Hprep. rewrite (bind_throw _ _ _ _ _ Hprep). apply Hcatch.
  - intros σ1 prepared Hprep. rewrite (bind_ok _ _ _ _ _ Hprep). split.
    + intros σ2 e Htrans. rewrite (bind_throw _ _ _ _ _ Htrans).
      apply Hcatch.
    + intros σ2 videoData Htrans. rewrite (bind_ok _ _ _ _ _ Htrans). split.
      * intros σ3 e Hproc. rewrite (bind_throw _ _ _ _ _ Hproc).
        apply Hcatch.
      * intros σ3 fields Hproc. by rewrite (bind_ok _ _ _ _ _ Hproc).
Qed.

Lemma resolveVideo_skip_and_rethrow_witness :
  resolved_fileType (local_video (Some "image/png")) "image/png" ∧
  resolveVideo (H := sample_runtime) (H0 := sample_host) ["site"]
    (λ _, ret {| publicPath_of := ["site"; "public"; "videos"; "clip.mp4"] |})
    (λ videoData, ret videoData)
    (local_video (Some "image/png"))
    [("publicPath", s_string "static/videos")] ∅
  = (∅, Ok null).
Proof.
  assert (resolved_fileType (local_video (Some "image/png")) "image/png")
    as Htype by (left; split; reflexivity).
  split; [exact Htype|].
  refine (proj1 (resolveVideo_skip_and_rethrow (H := sample_runtime)
                   (H0 := sample_host) ["site"] _ _ _ _ ∅)
            "image/png" Htype _ _).
  - discriminate.
  - reflexivity.
Defined.

(** ** The video stream *)

Lemma find_first {A} (f : A → bool) (pre post : list A) (x : A) :
  Forall (λ y, f y = false) pre → f x = true →
  List.find f (pre ++ x :: post) = Some x.
Proof.
  intros Hpre Hx. induction Hpre as [|y pre Hy _ IH]; simpl.
  - by rewrite Hx.
  - by rewrite Hy.
Qed.

Lemma find_none {A} (f : A → bool) (l : list A) :
  Forall (λ y, f y = false) l → List.find f l = None.
Proof. induction 1 as [|y l Hy _ IH]; simpl; [done|by rewrite Hy]. Qed.

(** A second video stream with a frame rate does not help when the first
    video stream has none. *)
Lemma later_video_stream_ignored :
  let streams :=
    [ {| codec_type := Some "video"; r_frame_rate := None; duration := None;
         width := Some 1280%Z; height := Some 720%Z |};
      {| codec_type := Some "video"; r_frame_rate := Some "30/1";
         duration := None; width := Some 1280%Z; height := Some 720%Z |} ] in
  (∃ stream, stream ∈ streams ∧ codec_type stream = Some "video"
             ∧ r_frame_rate stream = Some "30/1") ∧
  parseVideoStream streams = Throw (Error "Could not parse video").
Proof.
  split; [|reflexivity]. eexists. split; [right; left|]. by split.
Qed.

(** C10, for the first video stream: [parseVideoStream] throws when there is
    no video stream or when the first video stream has no frame rate (so
    whenever no video stream has one), and otherwise returns that stream
    with the integer parsed from the numerator of its frame rate alone:
    "30000/1001" gives 30000, from which H264 and H265 derive the keyframe
    interval 15000 and VP9 240000. *)
Theorem parseVideoStream_first_video (streams : list FfprobeStream) :
  (Forall (λ stream, is_video stream && truthy (r_frame_rate stream) = false)
     streams →
   parseVideoStream streams = Throw (Error "Could not parse video")) ∧
  (∀ pre stream post,
     streams = pre ++ stream :: post →
     Forall (λ other, is_video other = false) pre →
     is_video stream = true →
     (truthy (r_frame_rate stream) = false →
      parseVideoStream streams = Throw (Error "Could not parse video")) ∧
     (∀ rate, r_frame_rate stream = Some rate → rate ≠ "" →
        parseVideoStream streams
        = Ok {| videoStream := stream;
                currentFps := parseInt (split_head "/" rate) |})) ∧
  parseInt (split_head "/" "30000/1001") = Int 30000 ∧
  (∀ metadata,
     parseVideoStream (probed 1920 1080 "30000/1001") = Ok metadata →
     currentFps metadata = Int 30000 ∧
     "-g 15000" ∈ h264_outputOptions
                    (h264_args (val 28%Z) undefined undefined null)
                    (currentFps metadata) ∧
     "-g 15000" ∈ h265_outputOptions
                    (h265_args (val 31%Z) undefined undefined null)
                    (currentFps metadata) ∧
     ∃ selection,
       vp9_select vp9_default_args metadata = Ok selection ∧
       "-g 240000" ∈ vp9_outputOptions vp9_default_args selection).
Proof.
  split; [|split; [|split]].
  - intros Hnone. unfold parseVideoStream.
    destruct (List.find _ streams) as [stream|] eqn:Hfind; [|done].
    apply find_some in Hfind as [Hin Hvideo].
    apply list_elem_of_In in Hin.
    rewrite Forall_forall in Hnone. specialize (Hnone _ Hin).
    fold (is_video stream) in Hvideo. rewrite Hvideo in Hnone.
    simpl in Hnone. by rewrite Hnone.
  - intros pre stream post -> Hpre Hvideo. unfold parseVideoStream.
    change (λ s, bool_decide (codec_type s = Some "video")) with is_video.
    rewrite (find_first is_video pre post stream Hpre Hvideo). split.
    + by intros ->.
    + intros rate -> Hrate. by destruct rate.
  - by vm_compute.
  - intros metadata [= <-]. split; [by vm_compute|].
    split; [|split].
    + apply list_elem_of_In. vm_compute.
      repeat first [left; reflexivity | right].
    + apply list_elem_of_In. vm_compute.
      repeat first [left; reflexivity | right].
    + eexists. split; [by vm_compute|].
      apply list_elem_of_In. vm_compute.
      repeat first [left; reflexivity | right].
Qed.

Lemma parseVideoStream_first_video_witness :
  parseVideoStream
    ({| codec_type := Some "audio"; r_frame_rate := Some "0/0";
        duration := None; width := None; height := None |}
     :: probed 1920 1080 "30000/1001")
  = Ok {| videoStream :=
            {| codec_type := Some "video"; r_frame_rate := Some "30000/1001";
               duration := Some (probe_int 10); width := Some 1920%Z;
               height := Some 1080%Z |};
          currentFps := Int 30000 |}.
Proof.
  pose proof (parseVideoStream_first_video
                ({| codec_type := Some "audio"; r_frame_rate := Some "0/0";
                    duration := None; width := None; height := None |}
                 :: probed 1920 1080 "30000/1001")) as (_ & Hfirst & _).
  destruct (Hfirst
              [ {| codec_type := Some "audio"; r_frame_rate := Some "0/0";
                   duration := None; width := None; height := None |} ]
              {| codec_type := Some "video";
                 r_frame_rate := Some "30000/1001";
                 duration := Some (probe_int 10); width := Some 1920%Z;
                 height := Some 1080%Z |} [] eq_refl) as [_ Hrate].
  - repeat constructor.
  - reflexivity.
  - apply (Hrate "30000/1001" eq_refl). discriminate.
Defined.

(** ** Publishing a converted video *)

Section copying.
Variables src dest : path.
Hypothesis Hsep : separate src dest.

Lemma lookup_copy_tree (p : path) (σ : disk) :
  copy_tree src dest σ !! p =
  if under dest p then
    match σ !! (src ++ drop (length dest) p) with
    | Some n => Some n
    | None => σ !! p
    end
  else σ !! p.
Proof.
  unfold copy_tree.
  assert ((kmap (reroot src dest)
             (filter (λ entry, src `prefix_of` entry.1) σ) : disk) !! p
          = if under dest p then σ !! (src ++ drop (length dest) p) else None)
    as Hmoved.
  { rewrite <- (reroot_involutive src dest Hsep p) at 1.
    rewrite (lookup_kmap (reroot src dest) (Inj0 := reroot_inj src dest Hsep)).
    destruct (under dest p) eqn:Hd.
    - apply under_spec in Hd as [k ->].
      rewrite (reroot_dest _ _ Hsep), drop_app_length.
      destruct (σ !! (src ++ k)) as [n|] eqn:Hn.
      + apply map_lookup_filter_Some. split; [done|]. by exists k.
      + apply map_lookup_filter_None. by left.
    - apply map_lookup_filter_None. right. intros n _ Hpre. simpl in Hpre.
      destruct (under src p) eqn:Hs.
      + apply under_spec in Hs as [k ->].
        rewrite (reroot_src src dest) in Hpre. apply under_spec in Hpre.
        by rewrite (separate_under _ _ _ Hsep) in Hpre.
      + rewrite (reroot_outside _ _ p Hs Hd) in Hpre.
        apply under_spec in Hpre. congruence. }
  destruct (under dest p);
    [destruct (σ !! (src ++ drop (length dest) p)) as [n|] eqn:Hn|].
  - apply lookup_union_Some_l. by rewrite Hmoved.
  - rewrite lookup_union_r; [done|]. by rewrite Hmoved.
  - by rewrite lookup_union_r.
Qed.

Lemma copy_ok (σ : disk) :
  is_Some (σ !! src) →
  copy src dest σ = (copy_tree src dest (mkdirs (dirname dest) σ), Ok ()).
Proof.
  intros [n Hn]. unfold copy, bind, checkPaths, ensureDir, modify.
  rewrite Hn. destruct Hsep as [Hsd Hds].
  rewrite bool_decide_eq_false_2, Hsd; [done|].
  intros ->. apply under_false in Hsd. by apply Hsd.
Qed.

(** After a copy the destination holds what the source holds, and the
    source is as before. *)
Lemma lookup_copy_dest (σ : disk) (n : node) :
  σ !! src = Some n →
  copy_tree src dest (mkdirs (dirname dest) σ) !! dest = Some n.
Proof.
  intros Hn. rewrite lookup_copy_tree.
  pose proof (under_app dest []) as Hu. rewrite app_nil_r in Hu.
  rewrite Hu, drop_all, app_nil_r.
  by rewrite lookup_mkdirs, Hn.
Qed.

Lemma lookup_copy_outside (p : path) (σ : disk) :
  under dest p = false →
  copy_tree src dest (mkdirs (dirname dest) σ) !! p
  = mkdirs (dirname dest) σ !! p.
Proof. intros Hp. by rewrite lookup_copy_tree, Hp. Qed.

Lemma lookup_copy_src (σ : disk) (n : node) :
  σ !! src = Some n →
  copy_tree src dest (mkdirs (dirname dest) σ) !! src = Some n.
Proof.
  intros Hn. rewrite lookup_copy_outside.
  - by rewrite lookup_mkdirs, Hn.
  - pose proof (separate_under dest src [] (separate_sym _ _ Hsep)) as Hu.
    by rewrite app_nil_r in Hu.
Qed.

Lemma publish_missing (σ : disk) (content : string) :
  σ !! src = Some (File content) → σ !! dest = None →
  publish src dest σ
  = (copy_tree src dest (mkdirs (dirname dest) σ),
     Ok {| publicPath_of := dest |}).
Proof.
  intros Hsrc Hdest. unfold publish.
  rewrite (bind_ok _ _ _ _ _ (pathExists_false _ _ Hdest)). simpl.
  rewrite (bind_ok _ _ _ _ _ (copy_ok _ (mk_is_Some _ _ Hsrc))).
  unfold bind, stat_size, ret.
  by rewrite (lookup_copy_src _ _ Hsrc), (lookup_copy_dest _ _ Hsrc).
Qed.

Lemma publish_same_size (σ : disk) (content published : string) :
  σ !! src = Some (File content) → σ !! dest = Some (File published) →
  String.length content = String.length published →
  publish src dest σ = (σ, Ok {| publicPath_of := dest |}).
Proof.
  intros Hsrc Hdest Hsize. unfold publish.
  rewrite (bind_ok _ _ _ _ _ (pathExists_true _ _ (mk_is_Some _ _ Hdest))).
  simpl. unfold bind, stat_size, ret. rewrite Hsrc, Hdest, Hsize.
  by rewrite Nat.eqb_refl.
Qed.

Lemma publish_other_size (σ : disk) (content published : string) :
  σ !! src = Some (File content) → σ !! dest = Some (File published) →
  String.length content ≠ String.length published →
  publish src dest σ
  = (copy_tree src dest (mkdirs (dirname dest) σ),
     Ok {| publicPath_of := dest |}).
Proof.
  intros Hsrc Hdest Hsize. unfold publish.
  rewrite (bind_ok _ _ _ _ _ (pathExists_true _ _ (mk_is_Some _ _ Hdest))).
  simpl. unfold bind at 1, ret at 1.
  unfold bind at 1, stat_size at 1. rewrite Hsrc.
  unfold bind at 1, stat_size at 1. rewrite Hdest.
  apply Nat.eqb_neq in Hsize. rewrite Hsize. simpl.
  by rewrite (bind_ok _ _ _ _ _ (copy_ok _ (mk_is_Some _ _ Hsrc))).
Qed.
End copying.

(** When the lookup is a hit, the conversion goes on with the copy to the
    public directory, whatever the transcoder would do. *)
Lemma convertVideo_hit {T} `{Extends T, Runtime, Transcoder} (self : FFMPEG)
    (args : ConvertVideoArgs T) (σ σ1 : disk) :
  restoreFromCache
    (resolve (cachePathActive self) ["videos"; filename args])
    (resolve (cachePathRolling self) ["videos"; filename args]) σ
  = (σ1, Ok true) →
  convertVideo self args σ
  = publish (resolve (cachePathActive self) ["videos"; filename args])
      (resolve (publicDir args) ["videos"; filename args]) σ1.
Proof.
  intros Hhit. unfold convertVideo. rewrite (bind_ok _ _ _ _ _ Hhit).
  simpl. unfold bind at 1, ret at 1. reflexivity.
Qed.

(** ** A failed transcoder run *)

Lemma executeFfmpeg_error `{Transcoder} (ffmpegSession : FfmpegCommand)
    (cachePath : path) (σ : disk) (err : exn) (written : option string) :
  spawn_ffmpeg ffmpegSession cachePath σ = ProcessError err written →
  executeFfmpeg ffmpegSession cachePath σ
  = (match written with
     | Some partial => <[cachePath := File partial]> σ
     | None => σ
     end, Throw err).
Proof. intros Hrun. unfold executeFfmpeg. by rewrite Hrun. Qed.

(** After a run that failed with part of the output written, the lookup for
    the same key is a hit, and the next conversion of the same job
    publishes the partial file without running the transcoder. *)
Lemma partial_output_is_a_hit :
  let activePath := tier_active ++ ["videos"; "clip-0123abcd-h264.mp4"] in
  let rollingPath := tier_rolling ++ ["videos"; "clip-0123abcd-h264.mp4"] in
  let publicPath :=
    ["site"; "public"; "static"; "videos"; "videos";
     "clip-0123abcd-h264.mp4"] in
  (convertVideo (H0 := sample_runtime) (H1 := failing_transcoder)
     sample_ffmpeg sample_job ∅).2
  = Throw (Error "ffmpeg exited with code 1") ∧
  restoreFromCache activePath rollingPath disk_after_failure
  = (disk_after_failure, Ok true) ∧
  pathExists activePath disk_after_failure = (disk_after_failure, Ok true) ∧
  ∃ σ',
    convertVideo (H0 := sample_runtime) (H1 := failing_transcoder)
      sample_ffmpeg sample_job disk_after_failure
    = (σ', Ok {| publicPath_of := publicPath |}) ∧
    σ' !! publicPath = Some (File "partial").
Proof.
  cbv zeta. split; [by vm_compute|].
  assert (disk_after_failure
            !! (tier_active ++ ["videos"; "clip-0123abcd-h264.mp4"])
          = Some (File "partial")) as Hpartial by by vm_compute.
  split; [|split].
  - apply restoreFromCache_active. exact (mk_is_Some _ _ Hpartial).
  - apply pathExists_true. exact (mk_is_Some _ _ Hpartial).
  - assert (separate (tier_active ++ ["videos"; "clip-0123abcd-h264.mp4"])
              ["site"; "public"; "static"; "videos"; "videos";
               "clip-0123abcd-h264.mp4"]) as Hsep by (split; reflexivity).
    eexists. split.
    + rewrite (convertVideo_hit (H0 := sample_runtime)
                 (H1 := failing_transcoder) sample_ffmpeg sample_job
                 disk_after_failure disk_after_failure
                 (restoreFromCache_active _ _ _ (mk_is_Some _ _ Hpartial))).
      apply (publish_missing _ _ Hsep _ _ Hpartial). by vm_compute.
    + apply (lookup_copy_dest _ _ Hsep _ _ Hpartial).
Qed.

(** C1, as the code has it: when the cache misses and the transcoder
    process reports an error, the job rejects with that error; the function
    itself writes nothing to the cache and removes nothing from it, so the
    path of the artifact in the active tier holds what the failed process
    left there and every other path is as before the process started; a
    later lookup for the same key is a hit exactly when the failed process
    left an output file, and a miss when it left none. *)
Theorem convertVideo_transcoder_error {T} `{Extends T, Runtime, Transcoder}
    (self : FFMPEG) (args : ConvertVideoArgs T) (σ : disk)
    (filters : list string) (metadata : VideoStreamMetadata)
    (session : FfmpegCommand) (err : exn) (written : option string) :
  let activePath := resolve (cachePathActive self) ["videos"; filename args] in
  let rollingPath := resolve (cachePathRolling self) ["videos"; filename args] in
  let prepared := mkdirs (dirname activePath) σ in
  separate rollingPath activePath →
  σ !! activePath = None → σ !! rollingPath = None →
  createFilters (defaults (fieldArgs args)) (info args) = Ok filters →
  parseVideoStream (streams (info args)) = Ok metadata →
  profile args (new_session (sourcePath args)) filters (fieldArgs args) metadata
  = Ok session →
  spawn_ffmpeg
    (enhanceFfmpegForFilters self (defaults (fieldArgs args)) session)
    activePath prepared
  = ProcessError err written →
  ∃ σ',
    convertVideo self args σ = (σ', Throw err) ∧
    σ' !! activePath = File <$> written ∧
    (∀ p, p ≠ activePath → σ' !! p = prepared !! p) ∧
    restoreFromCache activePath rollingPath σ'
    = (σ', Ok (bool_decide (is_Some written))).
Proof.
  cbv zeta. intros Hsep Hactive Hrolling Hfilters Hmetadata Hprofile Hexit.
  set (activePath := resolve (cachePathActive self) ["videos"; filename args])
    in *.
  set (rollingPath := resolve (cachePathRolling self) ["videos"; filename args])
    in *.
  set (prepared := mkdirs (dirname activePath) σ) in *.
  set (σ' := match written with
             | Some partial => <[activePath := File partial]> prepared
             | None => prepared
             end).
  assert (prepared !! activePath = None) as Hfree.
  { apply lookup_mkdirs_dirname; [|done].
    apply (separate_nonroot activePath rollingPath), separate_sym, Hsep. }
  assert (prepared !! rollingPath = None) as Hfree_rolling.
  { unfold prepared. rewrite lookup_mkdirs_outside; [done|].
    pose proof (not_under_dirname rollingPath activePath [] (proj1 Hsep))
      as Hout. by rewrite app_nil_r in Hout. }
  exists σ'. split; [|split; [|split]].
  - unfold convertVideo. fold activePath rollingPath.
    rewrite (bind_ok _ _ _ _ _
               (restoreFromCache_miss _ _ _ Hactive Hrolling)).
    unfold bind at 1. unfold bind at 1. cbn [negb].
    unfold bind at 1. unfold ensureDir, modify. fold prepared.
    unfold bind at 1, lift at 1. rewrite Hfilters.
    unfold bind at 1, lift at 1. rewrite Hmetadata.
    unfold bind at 1, lift at 1. rewrite Hprofile.
    by rewrite (executeFfmpeg_error _ _ _ _ _ Hexit).
  - unfold σ'. destruct written; simpl; [by rewrite lookup_insert_eq|done].
  - intros p Hp. unfold σ'. destruct written; [|done].
    by rewrite lookup_insert_ne.
  - unfold σ'. destruct written as [partial|].
    + rewrite bool_decide_eq_true_2 by by eexists.
      apply restoreFromCache_active. by rewrite lookup_insert_eq.
    + rewrite bool_decide_eq_false_2 by by intros [??].
      by apply restoreFromCache_miss.
Qed.

Lemma convertVideo_transcoder_error_witness :
  let activePath := tier_active ++ ["videos"; "clip-0123abcd-h264.mp4"] in
  let rollingPath := tier_rolling ++ ["videos"; "clip-0123abcd-h264.mp4"] in
  ∃ σ',
    convertVideo (H0 := sample_runtime) (H1 := refusing_transcoder)
      sample_ffmpeg sample_job ∅
    = (σ', Throw (Error "Invalid data found when processing input")) ∧
    restoreFromCache activePath rollingPath σ' = (σ', Ok false).
Proof.
  cbv zeta.
  edestruct (convertVideo_transcoder_error (H0 := sample_runtime)
               (H1 := refusing_transcoder) sample_ffmpeg sample_job ∅)
    as (σ' & Hrun & _ & _ & Hlookup).
  - split; reflexivity.
  - reflexivity.
  - reflexivity.
  - reflexivity.
  - reflexivity.
  - reflexivity.
  - reflexivity.
  - exists σ'. split; [exact Hrun|exact Hlookup].
Defined.

(** * Further properties *)

(** ** A build cycle on the tiers *)

Lemma is_Some_eq {A} (o1 o2 : option A) : o1 = o2 → is_Some o2 → is_Some o1.
Proof. by intros ->. Qed.

Lemma separate_app (a b q q' : path) :
  separate a b → separate (a ++ q) (b ++ q').
Proof.
  intros Hsep. split; apply under_false; intros Hpre.
  - pose proof (separate_under a b q' Hsep) as Hab. apply under_false in Hab.
    apply Hab. trans (a ++ q); [by exists q|done].
  - pose proof (separate_under b a q (separate_sym _ _ Hsep)) as Hba.
    apply under_false in Hba. apply Hba. trans (b ++ q'); [by exists q'|done].
Qed.

Lemma separate_app_l (a b q : path) : separate a b → separate (a ++ q) b.
Proof.
  intros Hsep. pose proof (separate_app a b q [] Hsep) as Happ.
  by rewrite app_nil_r in Happ.
Qed.

Lemma under_app_app (root q p : path) : under (root ++ q) (root ++ p) = under q p.
Proof.
  unfold under. apply bool_decide_ext. split.
  - apply prefix_app_inv.
  - apply prefix_app.
Qed.

(** The rotation of an existing active tier, as a disk transformer. *)
Lemma onPreInit_rotates (active rolling : path) (σ : disk) :
  separate active rolling → is_Some (σ !! active) →
  ∃ σ',
    onPreInit (Some "production") active rolling σ = (σ', Ok ()) ∧
    (∀ q, σ' !! (rolling ++ q) = σ !! (active ++ q)) ∧
    (∀ q, σ' !! (active ++ q) = None).
Proof.
  intros Hsep Ha. unfold onPreInit. rewrite bool_decide_eq_true_2 by done.
  rewrite (bind_ok _ _ _ _ _ (pathExists_true _ _ Ha)).
  assert (∀ cleared : disk,
            (∀ q, cleared !! (active ++ q) = σ !! (active ++ q)) →
            cleared !! rolling = None →
            ∃ σ', move active rolling cleared = (σ', Ok ()) ∧
                  (∀ q, σ' !! (rolling ++ q) = σ !! (active ++ q)) ∧
                  (∀ q, σ' !! (active ++ q) = None)) as Hmove.
  { intros cleared Hsame Hfree.
    pose proof (Hsame []) as Hroot. rewrite app_nil_r in Hroot.
    eexists. split; [|split].
    - apply (move_ok _ _ Hsep); [|done]. destruct Ha as [n Hn].
      exists n. etrans; [exact Hroot|exact Hn].
    - intros q. etrans; [apply (lookup_move_dest _ _ Hsep)|apply Hsame].
    - intros q. apply (lookup_move_src _ _ Hsep). }
  destruct (σ !! rolling) as [r|] eqn:Hr.
  - rewrite (bind_ok _ _ _ _ _ (pathExists_true _ _ (mk_is_Some _ _ Hr))).
    simpl. rewrite (bind_ok _ _ _ _ _ (remove_ok _ _)).
    apply Hmove; [|apply lookup_remove_tree_root].
    intros q. by rewrite lookup_remove_tree,
      (separate_under _ _ _ (separate_sym _ _ Hsep)).
  - rewrite (bind_ok _ _ _ _ _ (pathExists_false _ _ Hr)).
    simpl. unfold bind at 1, ret at 1. by apply Hmove.
Qed.

Lemma onPreInit_without_active (active rolling : path) (σ : disk) :
  σ !! active = None →
  onPreInit (Some "production") active rolling σ = (σ, Ok ()).
Proof.
  intros Ha. unfold onPreInit. rewrite bool_decide_eq_true_2 by done.
  rewrite (bind_ok _ _ _ _ _ (pathExists_false _ _ Ha)).
  unfold bind, pathExists, ret. simpl. by rewrite andb_false_r.
Qed.

Lemma onPostBuild_promotes (active rolling : path) (σ : disk) :
  separate rolling active → σ !! active = None → is_Some (σ !! rolling) →
  onPostBuild (Some "production") active rolling σ
  = (rename_tree rolling active (mkdirs (dirname active) σ), Ok ()).
Proof.
  intros Hsep Ha Hr. unfold onPostBuild.
  rewrite (bind_ok _ _ _ _ _ (pathExists_false _ _ Ha)).
  rewrite (bind_ok _ _ _ _ _ (pathExists_true _ _ Hr)). simpl.
  by rewrite (bind_ok _ _ _ _ _ (move_ok _ _ Hsep _ Hr Ha)).
Qed.

Lemma onPostBuild_deletes (active rolling : path) (σ : disk) :
  is_Some (σ !! active) → is_Some (σ !! rolling) →
  onPostBuild (Some "production") active rolling σ
  = (remove_tree rolling σ, Ok ()).
Proof.
  intros Ha Hr. unfold onPostBuild.
  rewrite (bind_ok _ _ _ _ _ (pathExists_true _ _ Ha)).
  rewrite (bind_ok _ _ _ _ _ (pathExists_true _ _ Hr)). simpl.
  unfold bind at 1, ret at 1. by rewrite remove_ok.
Qed.

(** X1: an artifact of the active tier survives the rotation at the start
    of a production build when it is requested: the lookup after the
    rotation is a hit, the artifact (a file, or a folder with all it
    contains) is back at its path in the active tier, and nothing of it is
    left in the rolling tier. *)
Theorem rotation_then_restore (active rolling q : path) (σ : disk) :
  separate active rolling →
  is_Some (σ !! active) → is_Some (σ !! (active ++ q)) →
  ∃ σ',
    (onPreInit (Some "production") active rolling;;
     restoreFromCache (active ++ q) (rolling ++ q)) σ = (σ', Ok true) ∧
    (∀ q', σ' !! (active ++ q ++ q') = σ !! (active ++ q ++ q')) ∧
    (∀ q', σ' !! (rolling ++ q ++ q') = None).
Proof.
  intros Hsep Ha Hq.
  destruct (onPreInit_rotates active rolling σ Hsep Ha)
    as (σ1 & Hrun & Hrolling & Hactive).
  rewrite (bind_ok _ _ _ _ _ Hrun).
  assert (separate (rolling ++ q) (active ++ q)) as Hsepq
    by apply separate_app, separate_sym, Hsep.
  assert (is_Some (σ1 !! (rolling ++ q))) as Hr
    by exact (is_Some_eq _ _ (Hrolling q) Hq).
  eexists. split; [apply (restoreFromCache_rolling _ _ _ Hsepq (Hactive q) Hr)|].
  split; intros q'; rewrite !(assoc_L (++)).
  - rewrite (lookup_move_dest _ _ Hsepq), <- !(assoc_L (++)). apply Hrolling.
  - apply (lookup_move_src _ _ Hsepq).
Qed.

Lemma rotation_then_restore_witness :
  ∃ σ',
    (onPreInit (Some "production") tier_active tier_rolling;;
     restoreFromCache (tier_active ++ ["videos"; "clip-h264.mp4"])
       (tier_rolling ++ ["videos"; "clip-h264.mp4"])) disk_both_tiers
    = (σ', Ok true) ∧
    σ' !! (tier_active ++ ["videos"; "clip-h264.mp4"]) = Some (File "new mp4").
Proof.
  destruct (rotation_then_restore tier_active tier_rolling
              ["videos"; "clip-h264.mp4"] disk_both_tiers)
    as (σ' & Hrun & Hkept & _).
  - split; reflexivity.
  - eexists. reflexivity.
  - eexists. reflexivity.
  - exists σ'. split; [exact Hrun|]. exact (Hkept []).
Defined.

(** X2: a production build that requests nothing (or is aborted before it
    does) loses nothing: after the rotation and the reconciliation the
    active tier is as it was before the build, and there is no rolling
    tier. *)
Theorem rotation_then_reconciliation (active rolling : path) (σ : disk) :
  separate active rolling → is_Some (σ !! active) →
  ∃ σ',
    (onPreInit (Some "production") active rolling;;
     onPostBuild (Some "production") active rolling) σ = (σ', Ok ()) ∧
    (∀ q, σ' !! (active ++ q) = σ !! (active ++ q)) ∧
    (∀ q, σ' !! (rolling ++ q) = None).
Proof.
  intros Hsep Ha.
  destruct (onPreInit_rotates active rolling σ Hsep Ha)
    as (σ1 & Hrun & Hrolling & Hactive).
  rewrite (bind_ok _ _ _ _ _ Hrun).
  pose proof (Hactive []) as Hgone. pose proof (Hrolling []) as Hroot.
  rewrite app_nil_r in Hgone. rewrite !app_nil_r in Hroot.
  assert (is_Some (σ1 !! rolling)) as Hr by exact (is_Some_eq _ _ Hroot Ha).
  pose proof (separate_sym _ _ Hsep) as Hsep'.
  rewrite (onPostBuild_promotes _ _ _ Hsep' Hgone Hr).
  eexists. split; [reflexivity|]. split; intros q.
  - rewrite (lookup_move_dest _ _ Hsep'). apply Hrolling.
  - apply (lookup_move_src _ _ Hsep').
Qed.

Lemma rotation_then_reconciliation_witness :
  ∃ σ',
    (onPreInit (Some "production") tier_active tier_rolling;;
     onPostBuild (Some "production") tier_active tier_rolling) disk_both_tiers
    = (σ', Ok ()) ∧
    σ' !! (tier_active ++ ["videos"; "clip-h264.mp4"]) = Some (File "new mp4") ∧
    σ' !! tier_rolling = None.
Proof.
  destruct (rotation_then_reconciliation tier_active tier_rolling
              disk_both_tiers) as (σ' & Hrun & Hkept & Hgone).
  - split; reflexivity.
  - eexists. reflexivity.
  - exists σ'. split; [exact Hrun|]. split.
    + exact (Hkept ["videos"; "clip-h264.mp4"]).
    + exact (Hgone []).
Defined.

Lemma dirname_app (root q : path) :
  q ≠ [] → dirname (root ++ q) = root ++ dirname q.
Proof.
  intros Hq. unfold dirname. rewrite length_app.
  assert (length q ≠ 0) as Hlen by by destruct q.
  rewrite take_app. rewrite take_ge by lia.
  f_equal. f_equal. lia.
Qed.

Lemma under_root_dirname (root q : path) :
  q ≠ [] → under root (dirname (root ++ q)) = true.
Proof. intros Hq. rewrite (dirname_app _ _ Hq). apply under_app. Qed.

Lemma under_longer (root q : path) : q ≠ [] → under (root ++ q) root = false.
Proof.
  intros Hq. apply under_false. intros Hpre%prefix_length.
  rewrite length_app in Hpre. destruct q; [done|]. simpl in Hpre. lia.
Qed.

(** X3: in a production build the artifacts requested are kept and the
    others are evicted: after the rotation, the lookup for one artifact and
    the reconciliation, that artifact is in the active tier as before, every
    entry of the previous active tier that is neither inside it nor one of
    the folders above it is gone, and there is no rolling tier. *)
Theorem unrequested_artifacts_are_evicted (active rolling q : path) (σ : disk) :
  separate active rolling → q ≠ [] →
  is_Some (σ !! active) → is_Some (σ !! (active ++ q)) →
  ∃ σ',
    (onPreInit (Some "production") active rolling;;
     restoreFromCache (active ++ q) (rolling ++ q);;
     onPostBuild (Some "production") active rolling) σ = (σ', Ok ()) ∧
    (∀ q', σ' !! (active ++ q ++ q') = σ !! (active ++ q ++ q')) ∧
    (∀ other, under q other = false → under other q = false →
              σ' !! (active ++ other) = None) ∧
    (∀ q', σ' !! (rolling ++ q') = None).
Proof.
  intros Hsep Hq Ha Hartifact. unfold path in *.
  destruct (onPreInit_rotates active rolling σ Hsep Ha)
    as (σ1 & Hrun & Hrolling & Hactive).
  rewrite (bind_ok _ _ _ _ _ Hrun).
  assert (separate (rolling ++ q) (active ++ q)) as Hsepq
    by apply separate_app, separate_sym, Hsep.
  assert (is_Some (σ1 !! (rolling ++ q))) as Hr
    by exact (is_Some_eq _ _ (Hrolling q) Hartifact).
  rewrite (bind_ok _ _ _ _ _
             (restoreFromCache_rolling _ _ _ Hsepq (Hactive q) Hr)).
  set (σ2 := rename_tree (rolling ++ q) (active ++ q)
               (mkdirs (dirname (active ++ q)) σ1)).
  pose proof (Hactive []) as Hgone. pose proof (Hrolling []) as Hroot.
  rewrite app_nil_r in Hgone. rewrite !app_nil_r in Hroot.
  assert (σ2 !! active = Some Dir) as Hactive2.
  { unfold σ2. rewrite (lookup_move_outside _ _ Hsepq).
    - rewrite lookup_mkdirs. unfold path in *.
      by rewrite Hgone, under_root_dirname.
    - exact (proj1 (separate_app_l rolling active q (separate_sym _ _ Hsep))).
    - by apply under_longer. }
  assert (σ2 !! rolling = σ !! active) as Hrolling2.
  { unfold σ2. rewrite (lookup_move_outside _ _ Hsepq).
    - rewrite lookup_mkdirs_outside; [done|].
      rewrite (dirname_app _ _ Hq).
      apply (separate_under rolling active _ (separate_sym _ _ Hsep)).
    - by apply under_longer.
    - exact (proj1 (separate_app_l active rolling q Hsep)). }
  rewrite (onPostBuild_deletes active rolling σ2);
    [|exact (mk_is_Some _ _ Hactive2)|exact (is_Some_eq _ _ Hrolling2 Ha)].
  eexists. split; [reflexivity|]. split; [|split].
  - intros q'. rewrite lookup_remove_tree, (separate_under _ _ _
      (separate_sym _ _ Hsep)).
    unfold σ2. rewrite !(assoc_L (++)).
    rewrite (lookup_move_dest _ _ Hsepq), <- !(assoc_L (++)). apply Hrolling.
  - intros other Hqo Hoq. rewrite lookup_remove_tree, (separate_under _ _ _
      (separate_sym _ _ Hsep)).
    unfold σ2. rewrite (lookup_move_outside _ _ Hsepq).
    + rewrite lookup_mkdirs, Hactive.
      rewrite (dirname_app _ _ Hq), under_app_app.
      destruct (under other (dirname q)) eqn:Hu; [|done].
      apply under_spec in Hu. apply under_false in Hoq.
      destruct Hoq. trans (dirname q); [done|apply dirname_prefix].
    + exact (proj1 (separate_app rolling active q other
                      (separate_sym _ _ Hsep))).
    + by rewrite under_app_app.
  - intros q'. by rewrite lookup_remove_tree, under_app.
Qed.

Lemma unrequested_artifacts_are_evicted_witness :
  ∃ σ',
    (onPreInit (Some "production") tier_active tier_rolling;;
     restoreFromCache (tier_active ++ ["videos"; "clip-h264.mp4"])
       (tier_rolling ++ ["videos"; "clip-h264.mp4"]);;
     onPostBuild (Some "production") tier_active tier_rolling)
      (<[tier_active ++ ["videos"; "unused-vp9.webm"] := File "webm"]>
         disk_both_tiers)
    = (σ', Ok ()) ∧
    σ' !! (tier_active ++ ["videos"; "clip-h264.mp4"]) = Some (File "new mp4") ∧
    σ' !! (tier_active ++ ["videos"; "unused-vp9.webm"]) = None ∧
    σ' !! tier_rolling = None.
Proof.
  destruct (unrequested_artifacts_are_evicted tier_active tier_rolling
              ["videos"; "clip-h264.mp4"]
              (<[tier_active ++ ["videos"; "unused-vp9.webm"] := File "webm"]>
                 disk_both_tiers))
    as (σ' & Hrun & Hkept & Hevicted & Hgone).
  - split; reflexivity.
  - discriminate.
  - eexists. reflexivity.
  - eexists. reflexivity.
  - exists σ'. split; [exact Hrun|]. split; [exact (Hkept [])|]. split.
    + apply (Hevicted ["videos"; "unused-vp9.webm"]); reflexivity.
    + exact (Hgone []).
Defined.

(** X4: the rotation is idempotent: started a second time before anything
    was converted (a build that failed early and is started again), it
    finds no active tier and leaves the rolling tier of the first start as
    it is. *)
Theorem onPreInit_twice (active rolling : path) (σ : disk) :
  separate active rolling →
  (onPreInit (Some "production") active rolling;;
   onPreInit (Some "production") active rolling) σ
  = onPreInit (Some "production") active rolling σ.
Proof.
  intros Hsep. destruct (σ !! active) as [n|] eqn:Ha.
  - destruct (onPreInit_rotates active rolling σ Hsep (mk_is_Some _ _ Ha))
      as (σ1 & Hrun & _ & Hactive).
    rewrite (bind_ok _ _ _ _ _ Hrun), Hrun.
    apply onPreInit_without_active.
    pose proof (Hactive []) as Hgone. by rewrite app_nil_r in Hgone.
  - rewrite (bind_ok _ _ _ _ _ (onPreInit_without_active _ _ _ Ha)).
    reflexivity.
Qed.

Lemma onPreInit_twice_witness :
  (onPreInit (Some "production") tier_active tier_rolling;;
   onPreInit (Some "production") tier_active tier_rolling) disk_both_tiers
  = onPreInit (Some "production") tier_active tier_rolling disk_both_tiers.
Proof.
  apply onPreInit_twice. split; reflexivity.
Defined.

Lemma convertVideo_miss_end {T} `{Extends T, Runtime, Transcoder}
    (self : FFMPEG) (args : ConvertVideoArgs T) (σ : disk)
    (filters : list string) (metadata : VideoStreamMetadata)
    (session : FfmpegCommand) (output : string) :
  let activePath := resolve (cachePathActive self) ["videos"; filename args] in
  let rollingPath := resolve (cachePathRolling self) ["videos"; filename args] in
  let publicPath := resolve (publicDir args) ["videos"; filename args] in
  let prepared := mkdirs (dirname activePath) σ in
  σ !! activePath = None → σ !! rollingPath = None →
  createFilters (defaults (fieldArgs args)) (info args) = Ok filters →
  parseVideoStream (streams (info args)) = Ok metadata →
  profile args (new_session (sourcePath args)) filters (fieldArgs args) metadata
  = Ok session →
  spawn_ffmpeg
    (enhanceFfmpegForFilters self (defaults (fieldArgs args)) session)
    activePath prepared
  = ProcessEnd output →
  convertVideo self args σ
  = publish activePath publicPath (<[activePath := File output]> prepared).
Proof.
  cbv zeta. intros Hactive Hrolling Hfilters Hmetadata Hprofile Hexit.
  unfold convertVideo.
  rewrite (bind_ok _ _ _ _ _ (restoreFromCache_miss _ _ _ Hactive Hrolling)).
  unfold bind at 1. unfold bind at 1. cbn [negb].
  unfold bind at 1. unfold ensureDir, modify.
  unfold bind at 1, lift at 1. rewrite Hfilters.
  unfold bind at 1, lift at 1. rewrite Hmetadata.
  unfold bind at 1, lift at 1. rewrite Hprofile.
  unfold executeFfmpeg. rewrite Hexit. reflexivity.
Qed.

(** X5: when the active tier holds the artifact and the public directory
    does not hold the file, the conversion does not run the transcoder (its
    outcome is the same for every transcoder): it copies the cached file to
    the public path and returns that path; the cached file stays, and
    outside the public path only missing folders above it are created. *)
Theorem convertVideo_hit_publishes {T} `{Extends T, Runtime} (self : FFMPEG)
    (args : ConvertVideoArgs T) (σ : disk) (content : string) :
  let activePath := resolve (cachePathActive self) ["videos"; filename args] in
  let publicPath := resolve (publicDir args) ["videos"; filename args] in
  separate activePath publicPath →
  σ !! activePath = Some (File content) → σ !! publicPath = None →
  ∃ σ',
    (∀ transcoder : Transcoder,
       convertVideo (H1 := transcoder) self args σ
       = (σ', Ok {| publicPath_of := publicPath |})) ∧
    σ' !! publicPath = Some (File content) ∧
    σ' !! activePath = Some (File content) ∧
    (∀ p, under publicPath p = false →
          σ' !! p = mkdirs (dirname publicPath) σ !! p).
Proof.
  cbv zeta. intros Hsep Hactive Hpublic. eexists. split; [|split; [|split]].
  - intros transcoder.
    rewrite (convertVideo_hit (H1 := transcoder) self args σ σ
               (restoreFromCache_active _ _ _ (mk_is_Some _ _ Hactive))).
    apply (publish_missing _ _ Hsep _ _ Hactive Hpublic).
  - apply (lookup_copy_dest _ _ Hsep _ _ Hactive).
  - apply (lookup_copy_src _ _ Hsep _ _ Hactive).
  - intros p Hp. by apply (lookup_copy_outside _ _ Hsep).
Qed.

(** A disk with a converted video in the active tier only. *)
Lemma convertVideo_hit_publishes_witness :
  let σ : disk :=
    <[tier_active ++ ["videos"; "clip-0123abcd-h264.mp4"] := File "mp4 data"]>
      (mkdirs (tier_active ++ ["videos"]) ∅) in
  ∃ σ',
    convertVideo (H0 := sample_runtime) (H1 := failing_transcoder)
      sample_ffmpeg sample_job σ
    = (σ', Ok {| publicPath_of :=
                   ["site"; "public"; "static"; "videos"; "videos";
                    "clip-0123abcd-h264.mp4"] |}) ∧
    σ' !! ["site"; "public"; "static"; "videos"; "videos";
           "clip-0123abcd-h264.mp4"] = Some (File "mp4 data").
Proof.
  cbv zeta.
  edestruct (convertVideo_hit_publishes (H0 := sample_runtime) sample_ffmpeg
               sample_job
               (<[tier_active ++ ["videos"; "clip-0123abcd-h264.mp4"]
                    := File "mp4 data"]> (mkdirs (tier_active ++ ["videos"]) ∅))
               "mp4 data") as (σ' & Hrun & Hpublic & _).
  - split; reflexivity.
  - reflexivity.
  - reflexivity.
  - exists σ'. split; [exact (Hrun failing_transcoder)|exact Hpublic].
Defined.

(** X6: a published file is refreshed by size only: with the artifact in
    the active tier and a file at the public path, the conversion runs no
    transcoder and returns the public path; a public file of another size
    is replaced by the cached one, and a public file of the same size is
    left as it is, whatever it contains. *)
Theorem convertVideo_hit_compares_sizes {T} `{Extends T, Runtime}
    (self : FFMPEG) (args : ConvertVideoArgs T) (σ : disk)
    (content published : string) :
  let activePath := resolve (cachePathActive self) ["videos"; filename args] in
  let publicPath := resolve (publicDir args) ["videos"; filename args] in
  separate activePath publicPath →
  σ !! activePath = Some (File content) →
  σ !! publicPath = Some (File published) →
  ∃ σ',
    (∀ transcoder : Transcoder,
       convertVideo (H1 := transcoder) self args σ
       = (σ', Ok {| publicPath_of := publicPath |})) ∧
    σ' !! activePath = Some (File content) ∧
    (String.length content = String.length published → σ' = σ) ∧
    (String.length content ≠ String.length published →
     σ' !! publicPath = Some (File content)).
Proof.
  cbv zeta. intros Hsep Hactive Hpublic.
  destruct (decide (String.length content = String.length published))
    as [Hsize|Hsize].
  - exists σ. split; [|done].
    intros transcoder.
    rewrite (convertVideo_hit (H1 := transcoder) self args σ σ
               (restoreFromCache_active _ _ _ (mk_is_Some _ _ Hactive))).
    apply (publish_same_size _ _ _ _ _ Hactive Hpublic Hsize).
  - eexists. split; [|split; [|split]].
    + intros transcoder.
      rewrite (convertVideo_hit (H1 := transcoder) self args σ σ
                 (restoreFromCache_active _ _ _ (mk_is_Some _ _ Hactive))).
      apply (publish_other_size _ _ Hsep _ _ _ Hactive Hpublic Hsize).
    + apply (lookup_copy_src _ _ Hsep _ _ Hactive).
    + done.
    + intros _. apply (lookup_copy_dest _ _ Hsep _ _ Hactive).
Qed.

Lemma convertVideo_hit_compares_sizes_witness :
  let publicPath :=
    ["site"; "public"; "static"; "videos"; "videos";
     "clip-0123abcd-h264.mp4"] in
  let σ : disk :=
    <[publicPath := File "mp4 date"]>
      (<[tier_active ++ ["videos"; "clip-0123abcd-h264.mp4"]
           := File "mp4 data"]> ∅) in
  convertVideo (H0 := sample_runtime) (H1 := failing_transcoder)
    sample_ffmpeg sample_job σ
  = (σ, Ok {| publicPath_of := publicPath |}).
Proof.
  cbv zeta.
  edestruct (convertVideo_hit_compares_sizes (H0 := sample_runtime)
               sample_ffmpeg sample_job
               (<[["site"; "public"; "static"; "videos"; "videos";
                   "clip-0123abcd-h264.mp4"] := File "mp4 date"]>
                  (<[tier_active ++ ["videos"; "clip-0123abcd-h264.mp4"]
                       := File "mp4 data"]> ∅))
               "mp4 data" "mp4 date") as (σ' & Hrun & _ & Hsame & _).
  - split; reflexivity.
  - reflexivity.
  - reflexivity.
  - rewrite (Hrun failing_transcoder). f_equal. by apply Hsame.
Defined.

(** X7: an artifact that is only in the rolling tier is not converted
    again: for every transcoder the conversion moves it to the active tier,
    copies it to the public path, which it returns, and leaves nothing of it
    in the rolling tier. *)
Theorem convertVideo_promotes_rolling {T} `{Extends T, Runtime}
    (self : FFMPEG) (args : ConvertVideoArgs T) (σ : disk) (content : string) :
  let activePath := resolve (cachePathActive self) ["videos"; filename args] in
  let rollingPath := resolve (cachePathRolling self) ["videos"; filename args] in
  let publicPath := resolve (publicDir args) ["videos"; filename args] in
  separate rollingPath activePath → separate activePath publicPath →
  separate rollingPath publicPath →
  σ !! activePath = None → σ !! rollingPath = Some (File content) →
  σ !! publicPath = None →
  ∃ σ',
    (∀ transcoder : Transcoder,
       convertVideo (H1 := transcoder) self args σ
       = (σ', Ok {| publicPath_of := publicPath |})) ∧
    σ' !! activePath = Some (File content) ∧
    σ' !! publicPath = Some (File content) ∧
    σ' !! rollingPath = None.
Proof.
  cbv zeta. intros Hra Hap Hrp Hactive Hrolling Hpublic.
  set (activePath := resolve (cachePathActive self) ["videos"; filename args])
    in *.
  set (rollingPath := resolve (cachePathRolling self) ["videos"; filename args])
    in *.
  set (publicPath := resolve (publicDir args) ["videos"; filename args]) in *.
  set (σ1 := rename_tree rollingPath activePath
               (mkdirs (dirname activePath) σ)).
  assert (σ1 !! activePath = Some (File content)) as Hactive1.
  { unfold σ1. by rewrite (lookup_move_dest_root _ _ Hra). }
  assert (σ1 !! publicPath = None) as Hpublic1.
  { unfold σ1. rewrite (lookup_move_outside _ _ Hra).
    - rewrite lookup_mkdirs_outside; [done|].
      pose proof (not_under_dirname publicPath activePath [] (proj2 Hap))
        as Hu. by rewrite app_nil_r in Hu.
    - apply Hrp.
    - apply Hap. }
  eexists. split; [|split; [|split]].
  - intros transcoder.
    rewrite (convertVideo_hit (H1 := transcoder) self args σ σ1
               (restoreFromCache_rolling _ _ _ Hra Hactive
                  (mk_is_Some _ _ Hrolling))).
    apply (publish_missing _ _ Hap _ _ Hactive1 Hpublic1).
  - apply (lookup_copy_src _ _ Hap _ _ Hactive1).
  - apply (lookup_copy_dest _ _ Hap _ _ Hactive1).
  - rewrite (lookup_copy_outside _ _ Hap); [|apply Hrp].
    rewrite lookup_mkdirs_outside.
    + apply (lookup_move_src_root _ _ Hra).
    + pose proof (not_under_dirname rollingPath publicPath [] (proj1 Hrp))
        as Hu. by rewrite app_nil_r in Hu.
Qed.

Lemma convertVideo_promotes_rolling_witness :
  let σ : disk :=
    <[tier_rolling ++ ["videos"; "clip-0123abcd-h264.mp4"] := File "mp4 data"]>
      (mkdirs (tier_rolling ++ ["videos"]) ∅) in
  ∃ σ',
    convertVideo (H0 := sample_runtime) (H1 := failing_transcoder)
      sample_ffmpeg sample_job σ
    = (σ', Ok {| publicPath_of :=
                   ["site"; "public"; "static"; "videos"; "videos";
                    "clip-0123abcd-h264.mp4"] |}) ∧
    σ' !! (tier_active ++ ["videos"; "clip-0123abcd-h264.mp4"])
    = Some (File "mp4 data") ∧
    σ' !! (tier_rolling ++ ["videos"; "clip-0123abcd-h264.mp4"]) = None.
Proof.
  cbv zeta.
  edestruct (convertVideo_promotes_rolling (H0 := sample_runtime)
               sample_ffmpeg sample_job
               (<[tier_rolling ++ ["videos"; "clip-0123abcd-h264.mp4"]
                    := File "mp4 data"]> (mkdirs (tier_rolling ++ ["videos"]) ∅))
               "mp4 data")
    as (σ' & Hrun & Hactive & _ & Hrolling).
  - split; reflexivity.
  - split; reflexivity.
  - split; reflexivity.
  - reflexivity.
  - reflexivity.
  - reflexivity.
  - exists σ'. split; [exact (Hrun failing_transcoder)|].
    split; [exact Hactive|exact Hrolling].
Defined.

(** X8: a video is converted once: when both tiers and the public
    directory lack it and the transcoder ends normally, the conversion
    returns the public path with the output of the transcoder both in the
    active tier and at the public path; run again on the resulting disk it
    returns the same path for every transcoder, also a failing one, and
    changes nothing. *)
Theorem convertVideo_converts_once {T} `{Extends T, Runtime, Transcoder}
    (self : FFMPEG) (args : ConvertVideoArgs T) (σ : disk)
    (filters : list string) (metadata : VideoStreamMetadata)
    (session : FfmpegCommand) (output : string) :
  let activePath := resolve (cachePathActive self) ["videos"; filename args] in
  let rollingPath := resolve (cachePathRolling self) ["videos"; filename args] in
  let publicPath := resolve (publicDir args) ["videos"; filename args] in
  separate rollingPath activePath → separate activePath publicPath →
  σ !! activePath = None → σ !! rollingPath = None → σ !! publicPath = None →
  createFilters (defaults (fieldArgs args)) (info args) = Ok filters →
  parseVideoStream (streams (info args)) = Ok metadata →
  profile args (new_session (sourcePath args)) filters (fieldArgs args) metadata
  = Ok session →
  spawn_ffmpeg
    (enhanceFfmpegForFilters self (defaults (fieldArgs args)) session)
    activePath (mkdirs (dirname activePath) σ)
  = ProcessEnd output →
  ∃ σ',
    convertVideo self args σ = (σ', Ok {| publicPath_of := publicPath |}) ∧
    σ' !! activePath = Some (File output) ∧
    σ' !! publicPath = Some (File output) ∧
    ∀ transcoder : Transcoder,
      convertVideo (H1 := transcoder) self args σ'
      = (σ', Ok {| publicPath_of := publicPath |}).
Proof.
  cbv zeta.
  intros Hra Hap Hactive Hrolling Hpublic Hfilters Hmetadata Hprofile Hexit.
  rewrite (convertVideo_miss_end self args σ filters metadata session output
             Hactive Hrolling Hfilters Hmetadata Hprofile Hexit).
  set (activePath := resolve (cachePathActive self) ["videos"; filename args])
    in *.
  set (publicPath := resolve (publicDir args) ["videos"; filename args]) in *.
  set (σ1 := <[activePath := File output]> (mkdirs (dirname activePath) σ)).
  assert (σ1 !! activePath = Some (File output)) as Hactive1
    by apply lookup_insert_eq.
  assert (σ1 !! publicPath = None) as Hpublic1.
  { unfold σ1. rewrite lookup_insert_ne.
    - rewrite lookup_mkdirs_outside; [done|].
      pose proof (not_under_dirname publicPath activePath [] (proj2 Hap))
        as Hu. by rewrite app_nil_r in Hu.
    - intros Heq. destruct Hap as [Hu _]. apply under_false in Hu.
      apply Hu. by rewrite Heq. }
  pose proof (lookup_copy_src _ _ Hap _ _ Hactive1) as Hactive2.
  pose proof (lookup_copy_dest _ _ Hap _ _ Hactive1) as Hpublic2.
  eexists. split; [apply (publish_missing _ _ Hap _ _ Hactive1 Hpublic1)|].
  split; [exact Hactive2|]. split; [exact Hpublic2|].
  intros transcoder.
  rewrite (convertVideo_hit (H1 := transcoder) self args _ _
             (restoreFromCache_active _ _ _ (mk_is_Some _ _ Hactive2))).
  by apply (publish_same_size _ _ _ _ _ Hactive2 Hpublic2).
Qed.

(** A transcoder that ends normally. *)
Lemma convertVideo_converts_once_witness :
  let transcoder : Transcoder := λ _ _ _, ProcessEnd "mp4 data" in
  ∃ σ',
    convertVideo (H0 := sample_runtime) (H1 := transcoder)
      sample_ffmpeg sample_job ∅
    = (σ', Ok {| publicPath_of :=
                   ["site"; "public"; "static"; "videos"; "videos";
                    "clip-0123abcd-h264.mp4"] |}) ∧
    convertVideo (H0 := sample_runtime) (H1 := failing_transcoder)
      sample_ffmpeg sample_job σ'
    = (σ', Ok {| publicPath_of :=
                   ["site"; "public"; "static"; "videos"; "videos";
                    "clip-0123abcd-h264.mp4"] |}).
Proof.
  cbv zeta.
  edestruct (convertVideo_converts_once (H0 := sample_runtime)
               (H1 := λ _ _ _, ProcessEnd "mp4 data") sample_ffmpeg sample_job ∅)
    as (σ' & Hrun & _ & _ & Hagain).
  - split; reflexivity.
  - split; reflexivity.
  - reflexivity.
  - reflexivity.
  - reflexivity.
  - reflexivity.
  - reflexivity.
  - reflexivity.
  - reflexivity.
  - exists σ'. split; [exact Hrun|exact (Hagain failing_transcoder)].
Defined.

(** X9: a job that cannot be set up never reaches the transcoder: on a
    cache miss, an error of [createFilters], of [parseVideoStream] (no video
    stream) or of the profile rejects the job with that error for every
    transcoder; by then only the folder of the artifact has been created,
    and there is no file at the artifact's path. *)
Theorem convertVideo_setup_error {T} `{Extends T, Runtime} (self : FFMPEG)
    (args : ConvertVideoArgs T) (σ : disk) (err : exn) :
  let activePath := resolve (cachePathActive self) ["videos"; filename args] in
  let rollingPath := resolve (cachePathRolling self) ["videos"; filename args] in
  separate rollingPath activePath →
  σ !! activePath = None → σ !! rollingPath = None →
  (createFilters (defaults (fieldArgs args)) (info args) = Throw err ∨
   (∃ filters,
      createFilters (defaults (fieldArgs args)) (info args) = Ok filters ∧
      (parseVideoStream (streams (info args)) = Throw err ∨
       ∃ metadata,
         parseVideoStream (streams (info args)) = Ok metadata ∧
         profile args (new_session (sourcePath args)) filters (fieldArgs args)
           metadata = Throw err))) →
  (∀ transcoder : Transcoder,
     convertVideo (H1 := transcoder) self args σ
     = (mkdirs (dirname activePath) σ, Throw err)) ∧
  mkdirs (dirname activePath) σ !! activePath = None.
Proof.
  cbv zeta. intros Hsep Hactive Hrolling Herr. split.
  - intros transcoder. unfold convertVideo.
    rewrite (bind_ok _ _ _ _ _ (restoreFromCache_miss _ _ _ Hactive Hrolling)).
    unfold bind at 1. unfold bind at 1. cbn [negb].
    unfold bind at 1. unfold ensureDir, modify.
    unfold bind at 1, lift at 1.
    destruct Herr as [->|(filters & -> & Herr)]; [done|].
    unfold bind at 1, lift at 1.
    destruct Herr as [->|(metadata & -> & Herr)]; [done|].
    unfold bind at 1, lift at 1. by rewrite Herr.
  - apply lookup_mkdirs_dirname; [|done].
    apply (separate_nonroot _ _ (separate_sym _ _ Hsep)).
Qed.

Lemma convertVideo_setup_error_witness :
  convertVideo (H0 := sample_runtime) (H1 := failing_transcoder) sample_ffmpeg
    {| profile := profile sample_job; filename := filename sample_job;
       sourcePath := sourcePath sample_job; publicDir := publicDir sample_job;
       fieldArgs := fieldArgs sample_job;
       info := {| streams :=
                    [ {| codec_type := Some "audio"; r_frame_rate := Some "0/0";
                         duration := Some (probe_int 10); width := None;
                         height := None |} ] |} |} ∅
  = (mkdirs (tier_active ++ ["videos"]) ∅,
     Throw (Error "Could not parse video")).
Proof.
  edestruct (convertVideo_setup_error (H0 := sample_runtime) sample_ffmpeg
               {| profile := profile sample_job; filename := filename sample_job;
                  sourcePath := sourcePath sample_job;
                  publicDir := publicDir sample_job;
                  fieldArgs := fieldArgs sample_job;
                  info := {| streams :=
                               [ {| codec_type := Some "audio";
                                    r_frame_rate := Some "0/0";
                                    duration := Some (probe_int 10);
                                    width := None; height := None |} ] |} |}
               ∅ (Error "Could not parse video")) as [Hrun _].
  - split; reflexivity.
  - reflexivity.
  - reflexivity.
  - right. eexists. split; [reflexivity|]. left. reflexivity.
  - exact (Hrun failing_transcoder).
Defined.

(** ** Filters and the session that is executed *)

(** X10: the overlay stage and the overlay input go together: when an
    overlay is requested, the filters that [createFilters] returns end with
    the overlay stage and [enhanceFfmpegForFilters] adds the overlay image,
    resolved against the root directory, as the last input; when none is
    requested there is no overlay stage and the inputs are unchanged. *)
Theorem overlay_stage_and_input `{Runtime} (self : FFMPEG)
    (fieldArgs : DefaultTransformerFieldArgs) (info : FfprobeData)
    (filters : list string) (session : FfmpegCommand) :
  createFilters fieldArgs info = Ok filters →
  (truthy (overlay fieldArgs) = true →
     last (stage_of <$> filters) = Some (Some Overlay) ∧
     ∃ image, overlay fieldArgs = val image ∧
       inputs (enhanceFfmpegForFilters self fieldArgs session)
       = inputs session ++ [path_string (resolve (rootDir self) [image])]) ∧
  (truthy (overlay fieldArgs) = false →
     (Some Overlay ∉ stage_of <$> filters) ∧
     inputs (enhanceFfmpegForFilters self fieldArgs session) = inputs session).
Proof.
  intros Hrun. destruct info as [[|stream0 rest]]; [discriminate|].
  apply createFilters_stages in Hrun. rewrite Hrun.
  unfold requested_stages, enhanceFfmpegForFilters. split.
  - intros Hoverlay. rewrite Hoverlay. split.
    + destruct (truthy (fa_duration fieldArgs) && truthy (duration stream0));
        destruct (truthy (fps fieldArgs));
        destruct (truthy (maxWidth fieldArgs) || truthy (maxHeight fieldArgs));
        destruct (saturation_differs (saturation fieldArgs)); reflexivity.
    + destruct (overlay fieldArgs) as [| |image]; try discriminate.
      exists image. split; [done|].
      change (truthy (val image)) with (truthy image) in Hoverlay.
      rewrite Hoverlay.
      destruct (fa_duration fieldArgs) as [| |d]; try reflexivity.
      by destruct (truthy d).
  - intros Hoverlay. rewrite Hoverlay. split.
    + destruct (truthy (fa_duration fieldArgs) && truthy (duration stream0));
        destruct (truthy (fps fieldArgs));
        destruct (truthy (maxWidth fieldArgs) || truthy (maxHeight fieldArgs));
        destruct (saturation_differs (saturation fieldArgs)); simpl;
        rewrite ?elem_of_cons, elem_of_nil; intros Hin;
        repeat destruct Hin as [Hin|Hin]; done.
    + destruct (overlay fieldArgs) as [| |image].
      * destruct (fa_duration fieldArgs) as [| |d]; try reflexivity.
        by destruct (truthy d).
      * destruct (fa_duration fieldArgs) as [| |d]; try reflexivity.
        by destruct (truthy d).
      * change (truthy (val image)) with (truthy image) in Hoverlay.
        rewrite Hoverlay.
        destruct (fa_duration fieldArgs) as [| |d]; try reflexivity.
        by destruct (truthy d).
Qed.

Lemma overlay_stage_and_input_witness :
  createFilters (H := sample_runtime) overlay_fieldArgs example_info
  = Ok ["scale='min(600,iw)':-2:flags=lanczos";
        "overlay=x=main_w-overlay_w-10:y=10"] ∧
  inputs (enhanceFfmpegForFilters sample_ffmpeg overlay_fieldArgs
            (new_session "/site/content/clip.mov"))
  = ["/site/content/clip.mov"; "/site/logo.png"].
Proof.
  split; [reflexivity|].
  destruct (overlay_stage_and_input (H := sample_runtime) sample_ffmpeg
              overlay_fieldArgs example_info
              ["scale='min(600,iw)':-2:flags=lanczos";
               "overlay=x=main_w-overlay_w-10:y=10"]
              (new_session "/site/content/clip.mov") eq_refl) as [Hwith _].
  destruct (Hwith eq_refl) as (_ & image & Himage & Hinputs).
  injection Himage as <-. exact Hinputs.
Defined.

(** X11: a requested duration silences the output whatever the profile
    chose: [enhanceFfmpegForFilters] runs after the profile, and with a
    duration it limits the output to that duration and removes the audio
    codec, quality and channels (for H264: the stereo AAC track); without a
    duration the audio settings of the profile are kept.  The video codec,
    the filter graph and the output options of the profile are never
    changed. *)
Theorem duration_removes_audio (self : FFMPEG)
    (fieldArgs : H264TransformerFieldArgs) (session : FfmpegCommand)
    (filters : list string) (metadata : VideoStreamMetadata) :
  let configured := profileH264 session filters fieldArgs metadata in
  let final := enhanceFfmpegForFilters self (defaults fieldArgs) configured in
  (videoCodec final = Some "libx264" ∧
   complexFilter final = [join filters] ∧
   outputOptions final = outputOptions configured) ∧
  (truthy (fa_duration (h264_base fieldArgs)) = true →
     ∃ d, fa_duration (h264_base fieldArgs) = val d ∧
          outputDuration final = Some d ∧ noAudio final = true ∧
          audioCodec final = None ∧ audioQuality final = None ∧
          audioChannels final = None) ∧
  (truthy (fa_duration (h264_base fieldArgs)) = false →
     outputDuration final = outputDuration session ∧
     noAudio final = noAudio session ∧
     audioCodec final = Some "aac" ∧ audioQuality final = Some 5%Z ∧
     audioChannels final = Some 2%Z).
Proof.
  cbv zeta. unfold enhanceFfmpegForFilters, defaults, extends_h264.
  destruct (fa_duration (h264_base fieldArgs)) as [| |d] eqn:Hd;
    [| |change (truthy (val d)) with (truthy d); destruct (truthy d) eqn:Ht];
    (destruct (overlay (h264_base fieldArgs)) as [| |image];
       [| |destruct (truthy image)]);
    (split; [done|]); (split; [intros [=]|intros [=]]);
    try done; by exists d.
Qed.

Lemma duration_removes_audio_witness :
  audioCodec
    (enhanceFfmpegForFilters sample_ffmpeg example_fieldArgs
       (profileH264 (new_session "/site/content/clip.mov") []
          {| h264_base := example_fieldArgs; h264_crf := val 28%Z;
             h264_preset := val "medium"; h264_maxRate := undefined;
             h264_bufSize := undefined |}
          {| videoStream := {| codec_type := Some "video";
                               r_frame_rate := Some "30/1";
                               duration := Some (probe_int 10);
                               width := Some 1280%Z; height := Some 720%Z |};
             currentFps := Int 30 |}))
  = None.
Proof.
  destruct (duration_removes_audio sample_ffmpeg
              {| h264_base := example_fieldArgs; h264_crf := val 28%Z;
                 h264_preset := val "medium"; h264_maxRate := undefined;
                 h264_bufSize := undefined |}
              (new_session "/site/content/clip.mov") []
              {| videoStream := {| codec_type := Some "video";
                                   r_frame_rate := Some "30/1";
                                   duration := Some (probe_int 10);
                                   width := Some 1280%Z;
                                   height := Some 720%Z |};
                 currentFps := Int 30 |}) as (_ & Hsilent & _).
  destruct (Hsilent eq_refl) as (d & _ & _ & _ & Haudio & _).
  exact Haudio.
Defined.

(** ** Rate control for every argument set *)

(** X12: the rate-control options are decided by truthiness alone, for
    every argument set: a CRF option is present exactly when the CRF is
    given and not zero; H264 emits its max-rate option exactly when there is
    no such CRF and a max rate is given, and its buffer-size option
    likewise, each on its own; H265 emits its rate parameters exactly when
    there is no such CRF and both the max rate and the buffer size are
    given, so a max rate alone is dropped.  In particular no argument set
    yields a CRF option together with a rate option. *)
Theorem rate_control_options (preset maxRate bufSize : nullable string)
    (crf : nullable Z) (base : DefaultTransformerFieldArgs)
    (currentFps : number) :
  let h264 := h264_outputOptions
                {| h264_base := base; h264_crf := crf; h264_preset := preset;
                   h264_maxRate := maxRate; h264_bufSize := bufSize |}
                currentFps in
  let h265 := h265_outputOptions
                {| h265_base := base; h265_crf := crf; h265_preset := preset;
                   h265_maxRate := maxRate; h265_bufSize := bufSize |}
                currentFps in
  has_option "-crf " h264 = truthy crf ∧
  has_option "-maxrate " h264 = negb (truthy crf) && truthy maxRate ∧
  has_option "-bufsize " h264 = negb (truthy crf) && truthy bufSize ∧
  has_option "-crf " h265 = truthy crf ∧
  has_option "-x265-params " h265
  = negb (truthy crf) && truthy maxRate && truthy bufSize ∧
  has_option "-maxrate " h265 = false ∧
  has_option "-bufsize " h265 = false.
Proof.
  cbv zeta. unfold h264_outputOptions, h265_outputOptions.
  cbn [h264_crf h264_preset h264_maxRate h264_bufSize h264_base h265_crf
       h265_preset h265_maxRate h265_bufSize h265_base].
  unfold filter_Boolean, and_then.
  destruct (truthy crf); destruct (truthy preset); destruct (truthy maxRate);
    destruct (truthy bufSize); repeat split; reflexivity.
Qed.

(** ** The VP9 ladder on every source it serves *)

Lemma get_elem_of {V} (obj : list (Z * V)) (key : Z) :
  key ∈ obj.*1 → ∃ v, get obj key = Some v ∧ (key, v) ∈ obj.
Proof.
  induction obj as [|[k v] obj IH]; simpl.
  - by intros ?%elem_of_nil.
  - intros Hin. destruct (Z.eqb_spec k key) as [->|Hne].
    + exists v. split; [done|left].
    + apply elem_of_cons in Hin as [Heq|Hin]; [by destruct Hne|].
      destruct (IH Hin) as (w & Hget & Hw). exists w. split; [done|by right].
Qed.

Lemma applied_rate_ladder (explicit : nullable string) (resolution fps : Z)
    (pick : string * string * string → string) (bucket : BitRate)
    (rates : string * string * string) :
  truthy explicit = false →
  get bitrateMap resolution = Some bucket → get bucket fps = Some rates →
  applied_rate explicit resolution fps pick = Ok (pick rates).
Proof.
  intros Hexplicit Hbucket Hrates. unfold applied_rate.
  rewrite Hbucket. simpl. rewrite Hrates.
  destruct explicit as [| |s]; try done.
  change (truthy (val s)) with (truthy s) in Hexplicit. by rewrite Hexplicit.
Qed.

(** Every bucket of the ladder has an entry for 30 frames per second. *)
Lemma bucket_has_30 (resolution : Z) (bucket : BitRate) :
  (resolution, bucket) ∈ bitrateMap → 30%Z ∈ bucket.*1.
Proof.
  unfold bitrateMap. rewrite !elem_of_cons, elem_of_nil.
  intros Hin. repeat destruct Hin as [Hin|Hin]; try done;
    injection Hin as -> ->; left.
Qed.

Lemma closest_fps_bucket (f : Z) (keys : list Z) :
  (15 < f)%Z → 30%Z ∈ keys →
  closest (Int f) keys ∈ keys ∧
  ∀ k, k ∈ keys → (Z.abs (closest (Int f) keys - f) ≤ Z.abs (k - f))%Z.
Proof.
  intros Hf H30. destruct (closest_from_spec f keys 0) as [Hin Hmin].
  change (closest_from (Int f) 0 keys) with (closest (Int f) keys) in Hin, Hmin.
  split.
  - apply elem_of_cons in Hin as [Hzero|Hin]; [|done].
    assert (30%Z ∈ 0%Z :: keys) as H30' by by right.
    specialize (Hmin _ H30'). rewrite Hzero in Hmin. lia.
  - intros k Hk. apply Hmin. by right.
Qed.

(** X13: for every source whose smaller dimension is above 120 and whose
    applied frame rate (the requested one, else that of the source) is above
    15, and without explicit rates, the VP9 profile does not throw: the
    resolution it selects is a bucket of the ladder and no bucket is closer
    to the smaller dimension, the frame rate it selects is an entry of that
    bucket and no entry is closer to the applied frame rate, the three rates
    are those of that entry, and the keyframe interval is eight times the
    applied frame rate. *)
Theorem profileVP9_closest_bucket (fieldArgs : VP9TransformerFieldArgs)
    (metadata : VideoStreamMetadata) (f : Z) :
  let d := Z.min (default 0%Z (width (videoStream metadata)))
             (default 0%Z (height (videoStream metadata))) in
  (120 < d)%Z →
  or_number (fps (vp9_base fieldArgs)) (currentFps metadata) = Int f →
  (15 < f)%Z →
  truthy (bitRate fieldArgs) = false → truthy (minRate fieldArgs) = false →
  truthy (maxRate fieldArgs) = false →
  ∃ selection bucket,
    vp9_select fieldArgs metadata = Ok selection ∧
    closestResolution selection ∈ resolutions ∧
    (∀ k, k ∈ resolutions →
          (Z.abs (closestResolution selection - d) ≤ Z.abs (k - d))%Z) ∧
    get bitrateMap (closestResolution selection) = Some bucket ∧
    closestFps selection ∈ bucket.*1 ∧
    (∀ k, k ∈ bucket.*1 →
          (Z.abs (closestFps selection - f) ≤ Z.abs (k - f))%Z) ∧
    get bucket (closestFps selection)
    = Some (appliedBitrate selection, appliedMinrate selection,
            appliedMaxrate selection) ∧
    ("-g " +:+ show (f * 8)%Z) ∈ vp9_outputOptions fieldArgs selection.
Proof.
  cbv zeta. intros Hd Hfps Hf Hbit Hmin Hmax.
  set (d := Z.min _ _) in *.
  destruct (closest_resolution_bucket d Hd) as [Hres Hres_min].
  destruct (get_elem_of bitrateMap _ Hres) as (bucket & Hbucket & Hin).
  pose proof (closest_fps_bucket f bucket.*1 Hf (bucket_has_30 _ _ Hin))
    as [Hcfps Hcfps_min].
  destruct (get_elem_of bucket _ Hcfps) as (rates & Hrates & _).
  eexists _, bucket.
  split; [|split; [|split; [|split; [|split; [|split; [|split]]]]]].
  - unfold vp9_select. cbn [result_bind Object_keys].
    fold resolutions. fold d. rewrite Hbucket. cbn [result_bind Object_keys].
    rewrite Hfps.
    rewrite (applied_rate_ladder _ _ _ _ _ _ Hbit Hbucket Hrates).
    rewrite (applied_rate_ladder _ _ _ _ _ _ Hmin Hbucket Hrates).
    rewrite (applied_rate_ladder _ _ _ _ _ _ Hmax Hbucket Hrates).
    reflexivity.
  - exact Hres.
  - exact Hres_min.
  - exact Hbucket.
  - exact Hcfps.
  - exact Hcfps_min.
  - cbn [closestFps closestResolution appliedBitrate appliedMinrate
         appliedMaxrate]. rewrite Hrates. by destruct rates as [[??]?].
  - unfold vp9_outputOptions, filter_Boolean, and_then. simpl appliedFps.
    destruct (truthy (vp9_crf fieldArgs)); simpl omap;
      rewrite ?elem_of_cons; repeat first [left; reflexivity | right].
Qed.

Lemma profileVP9_closest_bucket_witness :
  ∃ selection,
    result_bind (parseVideoStream (probed 1272 715 "30/1"))
      (vp9_select vp9_default_args) = Ok selection ∧
    closestResolution selection = 720%Z ∧ closestFps selection = 30%Z ∧
    appliedBitrate selection = "1024k".
Proof.
  destruct (profileVP9_closest_bucket vp9_default_args
              {| videoStream :=
                   {| codec_type := Some "video"; r_frame_rate := Some "30/1";
                      duration := Some (probe_int 10); width := Some 1272%Z;
                      height := Some 715%Z |};
                 currentFps := Int 30 |} 30)
    as (selection & bucket & Hrun & _); try reflexivity.
  exists selection. split; [exact Hrun|].
  injection Hrun as <-. repeat split; reflexivity.
Defined.

(** The reduction returns its seed or something strictly closer, and among
    equally close candidates of an ascending list it returns the lowest. *)
Lemma closest_from_lowest (t : Z) (keys : list Z) (seed : Z) :
  Forall (Z.le seed) keys → StronglySorted Z.le keys →
  (closest_from (Int t) seed keys = seed ∨
   (Z.abs (closest_from (Int t) seed keys - t) < Z.abs (seed - t))%Z) ∧
  ∀ k, k ∈ seed :: keys →
       Z.abs (k - t) = Z.abs (closest_from (Int t) seed keys - t) →
       (closest_from (Int t) seed keys ≤ k)%Z.
Proof.
  revert seed. induction keys as [|key keys IH]; intros seed Hseed Hsorted.
  - split; [by left|]. intros k ->%list_elem_of_singleton _. reflexivity.
  - apply Forall_cons in Hseed as [Hkey Hseed].
    apply StronglySorted_inv in Hsorted as [Hsorted Hle].
    change (closest_from (Int t) seed (key :: keys))
      with (closest_from (Int t)
              (if (Z.abs (key - t) <? Z.abs (seed - t))%Z then key else seed)
              keys).
    destruct (Z.ltb_spec (Z.abs (key - t)) (Z.abs (seed - t))) as [Hlt|Hge].
    + destruct (IH key Hle Hsorted) as [Hstrict Hties]. split.
      * right. destruct Hstrict as [->|Hstrict]; lia.
      * intros k Hk Htie. apply elem_of_cons in Hk as [->|Hk].
        -- destruct Hstrict as [Heq|Hstrict]; [rewrite Heq in Htie|]; lia.
        -- by apply Hties.
    + destruct (IH seed Hseed Hsorted) as [Hstrict Hties]. split; [done|].
      intros k Hk Htie. apply elem_of_cons in Hk as [->|Hk].
      * apply Hties; [left|done].
      * apply elem_of_cons in Hk as [->|Hk].
        -- destruct Hstrict as [->|Hstrict]; lia.
        -- apply Hties; [by right|done].
Qed.

(** X14: ties go to the lower bucket: when two resolutions of the ladder
    are equally close to the smaller dimension of the source, the lower one
    is selected, and likewise for the frame rates of every bucket; a
    smaller dimension of 300, as far from 240 as from 360, selects 240. *)
Theorem closest_prefers_lower (target : Z) :
  (∀ k, k ∈ resolutions →
     Z.abs (k - target) = Z.abs (closest (Int target) resolutions - target) →
     (closest (Int target) resolutions ≤ k)%Z) ∧
  (∀ resolution bucket k,
     (resolution, bucket) ∈ bitrateMap → k ∈ bucket.*1 →
     Z.abs (k - target) = Z.abs (closest (Int target) bucket.*1 - target) →
     (closest (Int target) bucket.*1 ≤ k)%Z) ∧
  closest (Int 300) resolutions = 240%Z.
Proof.
  split; [|split; [|reflexivity]].
  - intros k Hk Htie.
    destruct (closest_from_lowest target resolutions 0) as [_ Hties].
    + unfold resolutions. simpl.
      repeat first [ apply SSorted_cons | apply SSorted_nil
                   | apply List.Forall_cons | apply List.Forall_nil | lia ].
    + unfold resolutions. simpl.
      repeat first [ apply SSorted_cons | apply SSorted_nil
                   | apply List.Forall_cons | apply List.Forall_nil | lia ].
    + apply Hties; [by right|done].
  - intros resolution bucket k Hin Hk Htie.
    destruct (closest_from_lowest target bucket.*1 0) as [_ Hties].
    + revert Hin. unfold bitrateMap. rewrite !elem_of_cons, elem_of_nil.
      intros Hin. repeat destruct Hin as [Hin|Hin]; try done;
        injection Hin as -> ->; simpl;
        repeat first [ apply SSorted_cons | apply SSorted_nil
                     | apply List.Forall_cons | apply List.Forall_nil | lia ].
    + revert Hin. unfold bitrateMap. rewrite !elem_of_cons, elem_of_nil.
      intros Hin. repeat destruct Hin as [Hin|Hin]; try done;
        injection Hin as -> ->; simpl;
        repeat first [ apply SSorted_cons | apply SSorted_nil
                     | apply List.Forall_cons | apply List.Forall_nil | lia ].
    + apply Hties; [by right|done].
Qed.

Lemma closest_prefers_lower_witness :
  (closest (Int 45) [30; 60]%Z ≤ 60)%Z.
Proof.
  destruct (closest_prefers_lower 45) as (_ & Hfps & _).
  apply (Hfps 720%Z [(30, ("1024k", "512k", "1485k"));
                     (60, ("1800k", "900k", "2610k"))]%Z 60%Z).
  - right. right. right. left.
  - right. left.
  - reflexivity.
Defined.


(** ** The two versions of the gif profile *)

Lemma string_app_assoc (a b c : string) : a +:+ (b +:+ c) = (a +:+ b) +:+ c.
Proof.
  induction a as [|x a IH]; [done|].
  change (String x a +:+ (b +:+ c)) with (String x (a +:+ (b +:+ c))).
  by rewrite IH.
Qed.

Lemma string_app_nil_r (a : string) : a +:+ "" = a.
Proof.
  induction a as [|x a IH]; [done|].
  change (String x a +:+ "") with (String x (a +:+ "")). by rewrite IH.
Qed.

Lemma string_length_app (a b : string) :
  String.length (a +:+ b) = String.length a + String.length b.
Proof.
  induction a as [|x a IH]; [done|].
  change (String x a +:+ b) with (String x (a +:+ b)). simpl. by rewrite IH.
Qed.

Lemma join_app (l l' : list string) :
  l ≠ [] → l' ≠ [] → join (l ++ l') = join l +:+ "," +:+ join l'.
Proof.
  intros Hl Hl'. induction l as [|s [|s' l] IH]; [done| |].
  - destruct l' as [|s' l']; [done|]. reflexivity.
  - change (join ((s :: s' :: l) ++ l'))
      with (s +:+ "," +:+ join ((s' :: l) ++ l')).
    rewrite IH by done.
    change (join (s :: s' :: l)) with (s +:+ "," +:+ join (s' :: l)).
    by rewrite <- !string_app_assoc.
Qed.

(** X15: the gif profile that spreads the filters and the older one that
    nests them build the same command exactly when there is at least one
    filter; with none the older one starts its filter graph with a comma. *)
Theorem gif_profiles_agree (ffmpegSession : FfmpegCommand)
    (filters : list string) (fieldArgs : DefaultTransformerFieldArgs)
    (videoStreamMetadata : VideoStreamMetadata) :
  profileGif ffmpegSession filters fieldArgs videoStreamMetadata
  = profileGif_nested ffmpegSession filters
  ↔ filters ≠ [].
Proof.
  unfold profileGif, profileGif_nested. split.
  - intros Heq ->. by inversion Heq.
  - intros Hne. rewrite join_app by done. reflexivity.
Qed.

(** ** The cache directories *)

Lemma split_on_nonempty (sep : ascii) (s : string) : split_on sep s ≠ [].
Proof.
  destruct s as [|a s]; [done|]. simpl.
  destruct (Ascii.eqb a sep); [done|]. by destruct (split_on sep s).
Qed.

Lemma split_on_plain_cons (sep a : ascii) (s : string) :
  split_on sep (String a s) = [String a s] →
  Ascii.eqb a sep = false ∧ split_on sep s = [s].
Proof.
  simpl. destruct (Ascii.eqb a sep); [by intros [=]|].
  pose proof (split_on_nonempty sep s) as Hne.
  destruct (split_on sep s) as [|first rest]; [done|].
  by intros [= -> ->].
Qed.

Lemma split_on_app (sep : ascii) (a b : string) :
  split_on sep a = [a] →
  split_on sep (a +:+ b)
  = match split_on sep b with
    | first :: rest => (a +:+ first) :: rest
    | [] => [a]
    end.
Proof.
  induction a as [|c a IH]; intros Hplain.
  - change ("" +:+ b) with b.
    pose proof (split_on_nonempty sep b) as Hne.
    by destruct (split_on sep b).
  - apply split_on_plain_cons in Hplain as [Hc Ha].
    change (String c a +:+ b) with (String c (a +:+ b)).
    simpl. rewrite Hc, (IH Ha).
    pose proof (split_on_nonempty sep b) as Hne.
    by destruct (split_on sep b).
Qed.

Lemma append_nonempty (a b : string) : b ≠ "" → a +:+ b ≠ a.
Proof.
  intros Hb Heq. apply (f_equal String.length) in Heq.
  rewrite string_length_app in Heq.
  destruct b; [done|]. simpl in Heq. lia.
Qed.

Lemma plain_relative (name : string) :
  plain name → starts_with "/" name = false.
Proof.
  intros [Hsplit [Hne _]]. destruct name as [|a name]; [done|].
  apply split_on_plain_cons in Hsplit as [Ha _]. cbn [starts_with].
  rewrite Ascii.eqb_sym. by rewrite Ha.
Qed.

Lemma normalize_step_plain (p : path) (name : string) :
  name ≠ "" → name ≠ "." → name ≠ ".." →
  normalize_step p name = p ++ [name].
Proof.
  intros H0 H1 H2. unfold normalize_step.
  apply String.eqb_neq in H0, H1, H2. by rewrite H0, H1, H2.
Qed.

Lemma resolve_plain (cwd : path) (name : string) :
  plain name → resolve cwd [name] = cwd ++ [name].
Proof.
  intros Hplain. pose proof (plain_relative _ Hplain) as Hrel.
  destruct Hplain as (Hsplit & H0 & H1 & H2).
  unfold resolve. cbn [foldl]. rewrite Hrel, Hsplit. cbn [foldl].
  by apply normalize_step_plain.
Qed.

Lemma plain_rolling (name : string) : plain name → plain (name +:+ "-rolling").
Proof.
  intros (Hsplit & H0 & H1 & H2). split; [|split; [|split]].
  - by rewrite (split_on_app _ _ _ Hsplit).
  - intros Heq. apply (f_equal String.length) in Heq.
    rewrite string_length_app in Heq. simpl in Heq. lia.
  - intros Heq. apply (f_equal String.length) in Heq.
    rewrite string_length_app in Heq. simpl in Heq. lia.
  - intros Heq. apply (f_equal String.length) in Heq.
    rewrite string_length_app in Heq. simpl in Heq. lia.
Qed.

Lemma separate_siblings (cwd : path) (a b : string) :
  a ≠ b → separate (cwd ++ [a]) (cwd ++ [b]).
Proof.
  intros Hne. split; rewrite under_app_app; apply under_false;
    intros [q Hq]; simpl in Hq; by simplify_eq.
Qed.

(** X16: for a cache directory option that is one plain name (and for the
    default), the two tiers are siblings in the working directory, the
    rolling one named after the active one, and neither lies inside the
    other. *)
Theorem getCacheDirs_sibling_tiers (cwd : path) (platform arch : string)
    (cacheDirectory cacheDirectoryBin : option string) :
  plain (default ".cache-video" cacheDirectory) →
  let dirs := getCacheDirs cwd platform arch cacheDirectory cacheDirectoryBin in
  cachePathActive_of dirs = cwd ++ [default ".cache-video" cacheDirectory] ∧
  cachePathRolling_of dirs
  = cwd ++ [default ".cache-video" cacheDirectory +:+ "-rolling"] ∧
  separate (cachePathActive_of dirs) (cachePathRolling_of dirs).
Proof.
  intros Hplain dirs. subst dirs. unfold getCacheDirs.
  cbn [cachePathActive_of cachePathRolling_of].
  rewrite (resolve_plain _ _ Hplain).
  rewrite (resolve_plain _ _ (plain_rolling _ Hplain)).
  split; [done|split; [done|]].
  apply separate_siblings. intros Heq. symmetry in Heq.
  by apply append_nonempty in Heq.
Qed.

Lemma getCacheDirs_sibling_tiers_witness :
  let dirs := getCacheDirs ["site"] "linux" "x64" None None in
  cachePathActive_of dirs = ["site"; ".cache-video"] ∧
  cachePathRolling_of dirs = ["site"; ".cache-video-rolling"] ∧
  separate (cachePathActive_of dirs) (cachePathRolling_of dirs).
Proof.
  apply (getCacheDirs_sibling_tiers ["site"] "linux" "x64" None None).
  by vm_compute.
Defined.

Lemma getCacheDirs_slash (cwd : path) (platform arch : string)
    (name : string) (cacheDirectoryBin : option string) :
  plain name →
  let dirs :=
    getCacheDirs cwd platform arch (Some (name +:+ "/")) cacheDirectoryBin in
  cachePathActive_of dirs = cwd ++ [name] ∧
  cachePathRolling_of dirs = (cwd ++ [name]) ++ ["-rolling"].
Proof.
  intros Hplain dirs. subst dirs.
  pose proof (plain_relative _ Hplain) as Hrel.
  destruct Hplain as (Hsplit & H0 & H1 & H2).
  assert (Hrel' : ∀ rest, starts_with "/" (name +:+ rest) = false).
  { intros rest. destruct name as [|a name]; [done|]. exact Hrel. }
  unfold getCacheDirs. cbn [cachePathActive_of cachePathRolling_of].
  cbv beta iota zeta delta [from_option Datatypes.id].
  split.
  - unfold resolve. cbn [foldl]. rewrite Hrel'.
    rewrite (split_on_app _ _ _ Hsplit).
    change (split_on "/" "/") with [""; ""]. cbv iota beta.
    rewrite string_app_nil_r.
    cbn [foldl]. by rewrite (normalize_step_plain cwd name).
  - unfold resolve. cbn [foldl]. rewrite <- string_app_assoc, Hrel'.
    rewrite (split_on_app _ _ _ Hsplit).
    change (split_on "/" ("/" +:+ "-rolling")) with [""; "-rolling"].
    cbv iota beta. rewrite string_app_nil_r.
    cbn [foldl]. rewrite (normalize_step_plain cwd name) by done.
    by rewrite normalize_step_plain.
Qed.

(** X17: a cache directory option that ends in a slash puts the rolling
    tier inside the active tier, as its subdirectory [-rolling]. *)
Theorem getCacheDirs_trailing_slash (cwd : path) (platform arch : string)
    (name : string) (cacheDirectoryBin : option string) :
  plain name →
  let dirs :=
    getCacheDirs cwd platform arch (Some (name +:+ "/")) cacheDirectoryBin in
  cachePathActive_of dirs = cwd ++ [name] ∧
  cachePathRolling_of dirs = cachePathActive_of dirs ++ ["-rolling"] ∧
  under (cachePathActive_of dirs) (cachePathRolling_of dirs) = true.
Proof.
  intros Hplain dirs.
  destruct (getCacheDirs_slash cwd platform arch name cacheDirectoryBin Hplain)
    as [Hactive Hrolling].
  fold dirs in Hactive, Hrolling. rewrite Hrolling, Hactive.
  split; [done|]. split; [done|]. apply under_app.
Qed.

Lemma getCacheDirs_trailing_slash_witness :
  let dirs := getCacheDirs ["site"] "linux" "x64" (Some "cache/") None in
  cachePathActive_of dirs = ["site"; "cache"] ∧
  cachePathRolling_of dirs = cachePathActive_of dirs ++ ["-rolling"] ∧
  under (cachePathActive_of dirs) (cachePathRolling_of dirs) = true.
Proof.
  apply (getCacheDirs_trailing_slash ["site"] "linux" "x64" "cache" None).
  by vm_compute.
Defined.


(** ** Custom profiles *)

(** X18: the custom profile field checks the profile before anything else:
    an unknown name, a profile without extension, an inherited member of
    the options object and a profile without converter are each refused
    with their own message, and the disk is as before. *)
Theorem videoProfile_validation `{Runtime, Transcoder} (ffmpeg : FFMPEG)
    (profiles : gmap string (ProfileConfig CustomFieldArgs))
    (args : TransformerArgs CustomFieldArgs) (σ : disk) :
  let profileName := show (custom_profile (tr_fieldArgs args)) in
  (profiles !! profileName = None → profileName ∉ Object_prototype →
   videoProfile ffmpeg profiles args σ
   = (σ, Throw (Error ("Unable to locate FFMPEG profile " +:+ profileName))))
  ∧ (profiles !! profileName = None → profileName ∈ Object_prototype →
     videoProfile ffmpeg profiles args σ
     = (σ, Throw (Error ("FFMPEG profile " +:+ profileName
                           +:+ " has no extension specified"))))
  ∧ (∀ profile, profiles !! profileName = Some profile →
     truthy (extension profile) = false →
     videoProfile ffmpeg profiles args σ
     = (σ, Throw (Error ("FFMPEG profile " +:+ profileName
                           +:+ " has no extension specified"))))
  ∧ (∀ profile, profiles !! profileName = Some profile →
     truthy (extension profile) = true → converter profile = None →
     videoProfile ffmpeg profiles args σ
     = (σ, Throw (Error ("FFMPEG profile " +:+ profileName
                           +:+ " has no converter function specified")))).
Proof.
  intros profileName. subst profileName.
  unfold videoProfile, profile_named. repeat split.
  - intros -> Hnot. by rewrite bool_decide_eq_false_2.
  - intros -> Hin. by rewrite bool_decide_eq_true_2.
  - intros profile -> Hext. by rewrite Hext.
  - intros profile -> Hext Hconv. by rewrite Hext, Hconv.
Qed.

(** ** Locating the source video *)

(** X19: for a node that is neither a local file with a path nor a
    Contentful asset, [analyzeAndFetchVideo] throws the error that names the
    type and the id of the node; nothing is fetched or probed, whatever the
    host, and the disk is as before. *)
Theorem analyzeAndFetchVideo_unlocated `{Runtime, Host} (video : VideoNode)
    (fieldArgs : JsObject) (type : string) (σ : disk) :
  type ≠ "ContentfulAsset" →
  (type = "File" → truthy (absolutePath video) = false) →
  truthy (base video) = true ∨ is_Some (file video) →
  analyzeAndFetchVideo video fieldArgs type σ
  = (σ, Throw (Error ("Unable to locate video file for " +:+ type +:+ " ("
                        +:+ id video +:+ ")"))).
Proof.
  intros Hasset Hfile Hname. unfold analyzeAndFetchVideo.
  apply String.eqb_neq in Hasset. rewrite Hasset.
  assert (Hpath : truthy (if String.eqb type "File" then absolutePath video
                          else None) = false).
  { destruct (String.eqb_spec type "File") as [Heq|_]; [by apply Hfile|done]. }
  destruct (truthy (base video)) eqn:Hbase.
  - unfold bind, ret. cbn [fst snd]. by rewrite Hpath.
  - destruct Hname as [|[f Hf]]; [done|]. rewrite Hf.
    unfold bind, ret, member. cbn [fst snd]. by rewrite Hpath.
Qed.

Lemma analyzeAndFetchVideo_unlocated_witness :
  analyzeAndFetchVideo (H := sample_runtime) (H0 := sample_host)
    foreign_video [] "SanityAsset" ∅
  = (∅, Throw (Error "Unable to locate video file for SanityAsset (node-3)")).
Proof.
  apply (analyzeAndFetchVideo_unlocated (H := sample_runtime)
           (H0 := sample_host) foreign_video [] "SanityAsset" ∅).
  - done.
  - done.
  - by left.
Defined.

(** X20: for a Contentful asset the digest, the path and the media type of
    the node do not reach the result: two nodes with the same asset, names
    and ids are fetched, named and probed alike. *)
Theorem contentful_key_ignores_node_digest `{Runtime, Host}
    (video video' : VideoNode) (fieldArgs : JsObject) (σ : disk) :
  file video = file video' →
  contentful_id video = contentful_id video' →
  base video = base video' →
  id video = id video' →
  analyzeAndFetchVideo video fieldArgs "ContentfulAsset" σ
  = analyzeAndFetchVideo video' fieldArgs "ContentfulAsset" σ.
Proof.
  intros Hfile Hcid Hbase Hid. unfold analyzeAndFetchVideo.
  change (String.eqb "ContentfulAsset" "File") with false.
  change (String.eqb "ContentfulAsset" "ContentfulAsset") with true.
  cbv iota. by rewrite Hfile, Hcid, Hbase, Hid.
Qed.

Lemma contentful_key_ignores_node_digest_witness :
  analyzeAndFetchVideo (H := sample_runtime) (H0 := sample_host)
    contentful_video [] "ContentfulAsset" ∅
  = analyzeAndFetchVideo (H := sample_runtime) (H0 := sample_host)
      {| internal_type := "ContentfulAsset";
         internal_contentDigest := "89abcdef";
         internal_mediaType := Some "video/mp4";
         id := "node-2";
         absolutePath := Some "/site/content/clip.mp4";
         file := file contentful_video;
         contentful_id := Some "asset-1";
         base := None |}
      [] "ContentfulAsset" ∅.
Proof.
  apply (contentful_key_ignores_node_digest (H := sample_runtime)
           (H0 := sample_host)); reflexivity.
Defined.

(** ** The download with retries *)

Lemma queuedDownload_step `{Downloader} (fuel tries : nat) (url : string)
    (target : path) (σ : disk) :
  queuedDownload (S fuel) tries url target σ
  = match download tries ("https:" +:+ url) target σ with
    | (σ', Ok _) => (σ', Ok (Some target))
    | (σ', Throw e) =>
        if S tries =? 3 then
          (σ', Throw (Error ("Download of " +:+ url
                               +:+ " failed after three times:"
                               +:+ newline +:+ newline +:+ exn_toString e)))
        else queuedDownload fuel (S tries) url target σ'
    end.
Proof.
  cbn [queuedDownload]. unfold try_catch, bind, ret.
  destruct (download tries ("https:" +:+ url) target σ) as [σ' [[]|e]];
    [done|].
  by destruct (S tries =? 3).
Qed.

(** X21: when three requests in a row fail, the download gives up with an
    error that quotes the third failure, whatever bound of at least three
    iterations the loop is given. *)
Theorem queuedDownload_gives_up `{Downloader} (extra : nat) (url : string)
    (target : path) (σ σ1 σ2 σ3 : disk) (e1 e2 e3 : exn) :
  download 0 ("https:" +:+ url) target σ = (σ1, Throw e1) →
  download 1 ("https:" +:+ url) target σ1 = (σ2, Throw e2) →
  download 2 ("https:" +:+ url) target σ2 = (σ3, Throw e3) →
  queuedDownload (3 + extra) 0 url target σ
  = (σ3, Throw (Error ("Download of " +:+ url
                         +:+ " failed after three times:"
                         +:+ newline +:+ newline +:+ exn_toString e3))).
Proof.
  intros H1 H2 H3. change (3 + extra) with (S (S (S extra))).
  rewrite queuedDownload_step, H1. cbn [Nat.eqb].
  rewrite queuedDownload_step, H2. cbn [Nat.eqb].
  by rewrite queuedDownload_step, H3.
Qed.

Lemma queuedDownload_gives_up_witness :
  queuedDownload (H := offline) 3 0 "//videos.ctfassets.net/clip.mp4"
    ["cache"; "clip.mp4"] ∅
  = (∅, Throw (Error ("Download of //videos.ctfassets.net/clip.mp4"
                        +:+ " failed after three times:"
                        +:+ newline +:+ newline
                        +:+ "Error: connect ECONNREFUSED"))).
Proof.
  apply (queuedDownload_gives_up (H := offline) 0
           "//videos.ctfassets.net/clip.mp4" ["cache"; "clip.mp4"]
           ∅ ∅ ∅ ∅ (Error "connect ECONNREFUSED")
           (Error "connect ECONNREFUSED") (Error "connect ECONNREFUSED"));
    reflexivity.
Defined.

(** X22: three iterations are enough for the loop: with any larger bound
    it gives what it gives with three, which is the path or an error, and
    requests after the third are never made. *)
Theorem queuedDownload_three_tries `{Downloader} (extra : nat) (url : string)
    (target : path) (σ : disk) :
  queuedDownload (3 + extra) 0 url target σ = queuedDownload 3 0 url target σ
  ∧ ((∃ σ', queuedDownload 3 0 url target σ = (σ', Ok (Some target)))
     ∨ (∃ σ' message,
          queuedDownload 3 0 url target σ = (σ', Throw (Error message)))).
Proof.
  change (3 + extra) with (S (S (S extra))).
  rewrite !(queuedDownload_step _ 0).
  destruct (download 0 ("https:" +:+ url) target σ) as [σ1 [[]|e1]];
    [split; [done|left; by eexists]|].
  cbn [Nat.eqb]. rewrite !(queuedDownload_step _ 1).
  destruct (download 1 ("https:" +:+ url) target σ1) as [σ2 [[]|e2]];
    [split; [done|left; by eexists]|].
  cbn [Nat.eqb]. rewrite !(queuedDownload_step _ 2).
  destruct (download 2 ("https:" +:+ url) target σ2) as [σ3 [[]|e3]];
    [split; [done|left; by eexists]|].
  cbn [Nat.eqb]. split; [done|right; by do 2 eexists].
Qed.

(** X23: a retry that succeeds hides the failure before it: the path is
    returned and the disk is the one the successful request left. *)
Theorem queuedDownload_retry_succeeds `{Downloader} (extra : nat)
    (url : string) (target : path) (σ σ1 σ2 : disk) (e1 : exn) :
  download 0 ("https:" +:+ url) target σ = (σ1, Throw e1) →
  download 1 ("https:" +:+ url) target σ1 = (σ2, Ok ()) →
  queuedDownload (2 + extra) 0 url target σ = (σ2, Ok (Some target)).
Proof.
  intros H1 H2. change (2 + extra) with (S (S extra)).
  rewrite queuedDownload_step, H1. cbn [Nat.eqb].
  by rewrite queuedDownload_step, H2.
Qed.

Lemma queuedDownload_retry_succeeds_witness :
  queuedDownload (H := flaky) 3 0 "//videos.ctfassets.net/clip.mp4"
    ["cache"; "clip.mp4"] ∅
  = (<[["cache"; "clip.mp4"] := File "video"]> ∅,
     Ok (Some ["cache"; "clip.mp4"])).
Proof.
  apply (queuedDownload_retry_succeeds (H := flaky) 1
           "//videos.ctfassets.net/clip.mp4" ["cache"; "clip.mp4"]
           ∅ ∅ (<[["cache"; "clip.mp4"] := File "video"]> ∅)
           (Error "socket hang up"));
    reflexivity.
Defined.

(** X24: a download that failed is remembered. As long as the file is not
    on the disk, asking again for the same video gives the same error
    without a further request, whatever the downloader would answer now. *)
Theorem failed_download_is_remembered `{Host} (first again : Downloader)
    (fuel fuel' : nat) (video : VideoNode) (file0 : VideoNodeContentfulFile)
    (cacheDir : path) (contentDigest : string)
    (downloadCache downloadCache' : DownloadCache) (σ σ' : disk) (e : exn) :
  file video = Some file0 →
  cacheContentfulVideo (H0 := first) fuel video cacheDir contentDigest
    downloadCache σ
  = (σ', downloadCache', Throw e) →
  σ' !! download_path cacheDir contentDigest file0 = None →
  cacheContentfulVideo (H0 := again) fuel' video cacheDir contentDigest
    downloadCache' σ'
  = (σ', downloadCache', Throw e).
Proof.
  intros Hfile Hfirst Hmissing. unfold cacheContentfulVideo in *.
  rewrite Hfile in *. unfold download_path in Hmissing.
  assert (Hnot : bool_decide
                   (is_Some (σ' !! resolve cacheDir
                      [contentDigest +:+ "."
                         +:+ parsed_ext (parse (fileName file0))])) = false).
  { apply bool_decide_eq_false_2. unfold path in *. rewrite Hmissing.
    by intros [??]. }
  rewrite Hnot.
  destruct (bool_decide (is_Some (σ !! _))); [done|].
  destruct (downloadCache !! url file0) as [promise|] eqn:Hcached.
  - destruct promise as [p|e']; simpl in Hfirst; [done|].
    injection Hfirst as -> -> ->. by rewrite Hcached.
  - destruct (queuedDownload fuel 0 (url file0) _ σ) as [σ0 [[p|]|e']];
      [done|done|].
    injection Hfirst as -> <- ->. by rewrite lookup_insert_eq.
Qed.

Lemma failed_download_is_remembered_witness :
  cacheContentfulVideo (H := sample_host) (H0 := flaky) 3 contentful_video
    ["cache"] "0123abcd"
    (<["//videos.ctfassets.net/clip.mp4" :=
         Throw (Error ("Download of //videos.ctfassets.net/clip.mp4"
                         +:+ " failed after three times:"
                         +:+ newline +:+ newline
                         +:+ "Error: connect ECONNREFUSED"))]> ∅) ∅
  = (∅,
     <["//videos.ctfassets.net/clip.mp4" :=
         Throw (Error ("Download of //videos.ctfassets.net/clip.mp4"
                         +:+ " failed after three times:"
                         +:+ newline +:+ newline
                         +:+ "Error: connect ECONNREFUSED"))]> ∅,
     Throw (Error ("Download of //videos.ctfassets.net/clip.mp4"
                     +:+ " failed after three times:"
                     +:+ newline +:+ newline
                     +:+ "Error: connect ECONNREFUSED"))).
Proof.
  apply (failed_download_is_remembered (H := sample_host) offline flaky 3 3
           contentful_video
           {| url := "//videos.ctfassets.net/clip.mp4";
              fileName := "clip.mp4";
              details_size := "1024";
              contentType := "video/mp4" |}
           ["cache"] "0123abcd" ∅ _ ∅ ∅ _).
  - reflexivity.
  - unfold cacheContentfulVideo. cbn [file contentful_video].
    rewrite !lookup_empty.
    rewrite bool_decide_eq_false_2 by (by intros [??]).
    rewrite !queuedDownload_step. reflexivity.
  - apply lookup_empty.
Defined.


(** ** Screenshots *)

Lemma lacks_empty : lacks "video/" "" = true.
Proof. reflexivity. Qed.

(** X25: the screenshots field skips what is not a video without throwing:
    for a node whose file type is missing, empty or without "video/" --
    also where the video fields throw -- it returns null and leaves the
    disk as it is, whatever the host and the tools. *)
Theorem takeScreenshots_skips_non_video {N}
    `{Runtime, Host, ScreenshotHost, ScreenshotTools N} (self : FFMPEG)
    (video : VideoNode) (fieldArgs : ScreenshotTransformerFieldArgs)
    (σ : disk) :
  is_Some (file video)
  ∨ (truthy (base video) = true ∧ internal_type video ≠ "ContentfulAsset") →
  (∀ fileType,
     resolved_fileType video fileType → lacks "video/" fileType = true) →
  takeScreenshots self video fieldArgs σ = (σ, Ok null).
Proof.
  intros Hname Htype. unfold takeScreenshots, generateTaskLabel.
  assert (Hbasename : ∃ basename,
            (if truthy (base video) then ret (default "" (base video))
             else member "fileName" (file video) fileName) σ
            = (σ, Ok basename)).
  { destruct (truthy (base video)); [by eexists|].
    destruct Hname as [[f Hf]|[? _]]; [|done]. rewrite Hf. by eexists. }
  destruct Hbasename as [basename Hbasename].
  unfold bind at 1. unfold bind at 1. rewrite Hbasename. unfold ret at 1.
  unfold bind at 1. rewrite Hbasename.
  destruct (String.eqb_spec (internal_type video) "ContentfulAsset")
    as [Hasset|Hother].
  - destruct Hname as [[f Hf]|[_ ?]]; [|done].
    assert (Hlacks : lacks "video/" (contentType f) = true).
    { apply Htype. right. split; [done|]. by exists f. }
    rewrite Hf. unfold bind, member, ret.
    cbv beta iota delta [from_option Datatypes.id].
    rewrite Hlacks. by rewrite orb_true_r.
  - unfold bind at 1. unfold ret at 1.
    destruct (String.eqb_spec (internal_type video) "File") as [Hfile|_].
    + destruct (internal_mediaType video) as [fileType|] eqn:Hmedia; [|done].
      assert (Hlacks : lacks "video/" fileType = true).
      { apply Htype. left. by split. }
      cbv beta iota delta [from_option Datatypes.id].
      rewrite Hlacks. by rewrite orb_true_r.
    + done.
Qed.

Lemma takeScreenshots_skips_non_video_witness :
  takeScreenshots (H := sample_runtime) (H0 := sample_host)
    (H1 := sample_screenshot_host) (H2 := working_tools) sample_ffmpeg
    (local_video (Some "")) screenshot_args ∅
  = (∅, Ok null).
Proof.
  apply (takeScreenshots_skips_non_video (H := sample_runtime)
           (H0 := sample_host) (H1 := sample_screenshot_host)
           (H2 := working_tools)).
  - right. by split.
  - intros fileType [[_ [= <-]]|[[=] _]]. reflexivity.
Defined.

(** What [takeScreenshots] does for a local video file, with the folders
    named. *)
Lemma takeScreenshots_local {N}
    `{Runtime, Host, ScreenshotHost, ScreenshotTools N} (self : FFMPEG)
    (video : VideoNode) (fieldArgs : ScreenshotTransformerFieldArgs)
    (σ : disk) :
  local_video_file video →
  let activePath := screenshots_folder (cachePathActive self) video fieldArgs in
  let rollingPath :=
    screenshots_folder (cachePathRolling self) video fieldArgs in
  let tmpDir := screenshots_tmpDir video fieldArgs in
  takeScreenshots self video fieldArgs σ
  = (let! screenshotPaths :=
       try_catch
         (restoreFromCache activePath rollingPath;;
          let! screenshotNames := readdir activePath in
          ret ((λ name, resolve activePath [name]) <$> screenshotNames))
         (λ err,
            ensureDir tmpDir;;
            let! screenshotRawNames :=
              takeRawScreenshots (absolutePath video)
                {| config_filename := "%ss.png";
                   config_folder := tmpDir;
                   config_timestamps := timestamps fieldArgs;
                   config_size := show (shot_width fieldArgs) +:+ "x?" |} in
            ensureDir activePath;;
            processScreenshots self tmpDir activePath screenshotRawNames []) in
     let! screenshotNodes := createScreenshotNodes video screenshotPaths [] in
     ret (val screenshotNodes)) σ.
Proof.
  intros (Htype & Hbase & fileType & Hmedia & Hpresent & Hlacks).
  cbv zeta. unfold takeScreenshots, generateTaskLabel.
  unfold screenshots_folder, screenshots_tmpDir, screenshots_foldername.
  rewrite Htype, Hbase, Hmedia.
  change (String.eqb "File" "File") with true.
  change (String.eqb "File" "ContentfulAsset") with false.
  cbv iota.
  assert (Htruthy : truthy (Some fileType) = true) by by destruct fileType.
  unfold bind at 1. unfold bind at 1. unfold ret at 1. unfold ret at 1.
  unfold bind at 1. unfold ret at 1.
  unfold bind at 1. unfold ret at 1.
  rewrite Htruthy. cbv beta iota delta [from_option Datatypes.id negb orb].
  rewrite Hlacks.
  unfold bind at 1. unfold ret at 1. cbn [fst snd]. reflexivity.
Qed.

Lemma omap_all_None {A B} (f : A → option B) (l : list A) :
  (∀ x, x ∈ l → f x = None) → omap f l = [].
Proof.
  induction l as [|x l IH]; intros Hall; [done|]. cbn [omap list_omap].
  rewrite (Hall x) by left. apply IH. intros y Hy. apply Hall. by right.
Qed.

Lemma dirname_snoc (p : path) (name : string) : dirname (p ++ [name]) = p.
Proof.
  unfold dirname. rewrite length_app. simpl.
  replace (length p + 1 - 1) with (length p) by lia.
  by rewrite take_app_length.
Qed.

Lemma children_nil (p : path) (σ : disk) :
  (∀ name, σ !! (p ++ [name]) = None) → children p σ = [].
Proof.
  intros Hnone. unfold children. apply omap_all_None. intros entry Hentry.
  apply list_elem_of_fmap in Hentry as ([entry' n] & -> & Hin).
  apply elem_of_map_to_list in Hin. simpl in *.
  case_bool_decide as Hdir; [|done].
  destruct entry' as [|c entry'] using rev_ind; [done|].
  rewrite dirname_snoc in Hdir. subst p. by rewrite Hnone in Hin.
Qed.

Lemma lookup_write_files_outside (folder p : path)
    (written : list (string * string)) (σ : disk) :
  (∀ name, folder ++ [name] ≠ p) →
  write_files folder written σ !! p = σ !! p.
Proof.
  intros Hout. unfold write_files. revert σ.
  induction written as [|file written IH]; intros σ; [done|].
  cbn [foldl]. rewrite IH. by rewrite lookup_insert_ne.
Qed.

(** The disk on which the raw screenshots are processed keeps the folder of
    the artifact empty when it was missing before. *)
Lemma lookup_before_processing (tmpDir activePath : path)
    (written : list (string * string)) (σ : disk) :
  separate tmpDir activePath →
  σ !! activePath = None →
  (∀ name, σ !! (activePath ++ [name]) = None) →
  let σ' := mkdirs activePath (write_files tmpDir written (mkdirs tmpDir σ)) in
  σ' !! activePath = Some Dir ∧ ∀ name, σ' !! (activePath ++ [name]) = None.
Proof.
  intros Hsep Hactive Hchildren σ'. subst σ'.
  pose proof Hsep as [Hta Hat].
  assert (Hwritten : ∀ q name, tmpDir ++ [name] ≠ activePath ++ q).
  { intros q name Heq.
    pose proof (separate_under activePath tmpDir [name]
                  (separate_sym _ _ Hsep)) as Hu.
    apply under_false in Hu. apply Hu. rewrite Heq. by exists q. }
  assert (Hmk : ∀ q, under (activePath ++ q) tmpDir = false).
  { intros q. apply under_false. intros Hpre. apply under_false in Hat.
    apply Hat. trans (activePath ++ q); [by exists q|done]. }
  split.
  - rewrite lookup_mkdirs, lookup_write_files_outside.
    + pose proof (Hmk []) as Hmk0. rewrite app_nil_r in Hmk0.
      rewrite (lookup_mkdirs_outside _ _ _ Hmk0). unfold path in *.
      rewrite Hactive. pose proof (under_app activePath []) as Hself.
      rewrite app_nil_r in Hself. by rewrite Hself.
    + intros name Heq. apply (Hwritten [] name). by rewrite app_nil_r.
  - intros name. rewrite lookup_mkdirs, lookup_write_files_outside.
    + rewrite (lookup_mkdirs_outside _ _ _ (Hmk [name])). unfold path in *.
      rewrite Hchildren.
      destruct (under (activePath ++ [name]) activePath) eqn:Hu; [|done].
      apply under_spec, prefix_length in Hu. rewrite length_app in Hu.
      simpl in Hu. lia.
    + intros name'. apply Hwritten.
Qed.

Lemma lookup_after_capture (tmpDir activePath : path)
    (written : list (string * string)) (σ : disk) :
  separate tmpDir activePath →
  σ !! activePath = None →
  write_files tmpDir written (mkdirs tmpDir σ) !! activePath = None.
Proof.
  intros Hsep Hactive. pose proof Hsep as [Hta Hat].
  rewrite lookup_write_files_outside.
  - by rewrite (lookup_mkdirs_outside _ _ _ Hat).
  - intros name Heq.
    pose proof (separate_under activePath tmpDir [name]
                  (separate_sym _ _ Hsep)) as Hu.
    apply under_false in Hu. apply Hu. by rewrite Heq.
Qed.

Lemma screenshots_lookup_miss (activePath rollingPath : path)
    (f : string → path) (σ : disk) :
  σ !! activePath = None → σ !! rollingPath = None →
  (restoreFromCache activePath rollingPath;;
   let! screenshotNames := readdir activePath in
   ret (f <$> screenshotNames)) σ
  = (σ, Throw (Error "ENOENT: no such file or directory")).
Proof.
  intros Hactive Hrolling.
  rewrite (bind_ok _ _ _ _ _ (restoreFromCache_miss _ _ _ Hactive Hrolling)).
  unfold bind, readdir. unfold path in *. by rewrite Hactive.
Qed.

Lemma screenshots_lookup_hit (activePath rollingPath : path)
    (f : string → path) (σ : disk) :
  σ !! activePath = Some Dir →
  (restoreFromCache activePath rollingPath;;
   let! screenshotNames := readdir activePath in
   ret (f <$> screenshotNames)) σ
  = (σ, Ok (f <$> children activePath σ)).
Proof.
  intros Hactive.
  rewrite (bind_ok _ _ _ _ _
             (restoreFromCache_active _ rollingPath _ (mk_is_Some _ _ Hactive))).
  unfold bind, readdir, ret. unfold path in *. by rewrite Hactive.
Qed.

(** X26: when the folder of the screenshots is in the active tier, no
    screenshot is taken or processed: the result is made of the files that
    are in the folder, and the disk changes only by what the creation of
    the nodes does. *)
Theorem takeScreenshots_hit {N}
    `{Runtime, Host, ScreenshotHost, ScreenshotTools N} (self : FFMPEG)
    (video : VideoNode) (fieldArgs : ScreenshotTransformerFieldArgs)
    (σ : disk) :
  let activePath := screenshots_folder (cachePathActive self) video fieldArgs in
  local_video_file video →
  σ !! activePath = Some Dir →
  takeScreenshots self video fieldArgs σ
  = (let! screenshotNodes :=
       createScreenshotNodes video
         ((λ name, resolve activePath [name]) <$> children activePath σ) [] in
     ret (val screenshotNodes)) σ.
Proof.
  intros activePath Hlocal Hactive. subst activePath.
  rewrite (takeScreenshots_local self video fieldArgs σ Hlocal).
  unfold bind at 1. unfold try_catch.
  by rewrite (screenshots_lookup_hit _ _ _ _ Hactive).
Qed.

Lemma takeScreenshots_hit_witness :
  let activePath :=
    screenshots_folder (H := sample_host) (H0 := sample_screenshot_host)
      tier_active (local_video (Some "video/mp4")) screenshot_args in
  takeScreenshots (H := sample_runtime) (H0 := sample_host)
    (H1 := sample_screenshot_host) (H2 := no_transcoder) sample_ffmpeg
    (local_video (Some "video/mp4")) screenshot_args
    (<[activePath := Dir]> ∅)
  = (<[activePath := Dir]> ∅, Ok (val [])).
Proof.
  intros activePath.
  rewrite (takeScreenshots_hit (H := sample_runtime) (H0 := sample_host)
             (H1 := sample_screenshot_host) (H2 := no_transcoder)
             sample_ffmpeg (local_video (Some "video/mp4")) screenshot_args
             (<[activePath := Dir]> ∅)).
  - change (screenshots_folder (cachePathActive sample_ffmpeg)
              (local_video (Some "video/mp4")) screenshot_args)
      with activePath.
    rewrite (children_nil activePath); [reflexivity|].
    intros name. rewrite lookup_insert_ne; [apply lookup_empty|].
    intros Heq. apply (f_equal length) in Heq. rewrite length_app in Heq.
    simpl in Heq. lia.
  - split; [reflexivity|]. split; [reflexivity|].
    exists "video/mp4". by repeat split.
  - apply lookup_insert_eq.
Defined.

(** X27: a failure while the first raw screenshot is processed leaves the
    folder of the screenshots in the active tier, empty. From then on the
    video has no screenshots: the next call finds the folder and returns
    the empty list, whatever the tools, without taking any screenshot. *)
Theorem failed_processing_poisons_cache {N} `{Runtime, Host, ScreenshotHost}
    (first again : ScreenshotTools N) (self : FFMPEG) (video : VideoNode)
    (fieldArgs : ScreenshotTransformerFieldArgs) (σ : disk)
    (raw : string) (rest : list string) (written : list (string * string))
    (e : exn) :
  let activePath := screenshots_folder (cachePathActive self) video fieldArgs in
  let rollingPath :=
    screenshots_folder (cachePathRolling self) video fieldArgs in
  let tmpDir := screenshots_tmpDir video fieldArgs in
  let σ' := mkdirs activePath (write_files tmpDir written (mkdirs tmpDir σ)) in
  local_video_file video →
  separate tmpDir activePath →
  σ !! activePath = None →
  σ !! rollingPath = None →
  (∀ name, σ !! (activePath ++ [name]) = None) →
  spawn_screenshots (ScreenshotTools := first) (absolutePath video)
    {| config_filename := "%ss.png";
       config_folder := tmpDir;
       config_timestamps := timestamps fieldArgs;
       config_size := show (shot_width fieldArgs) +:+ "x?" |}
    (mkdirs tmpDir σ)
  = ScreenshotsEnd (raw :: rest) written →
  sharp_jpeg (ScreenshotTools := first) (resolve tmpDir [raw]) σ' = Throw e →
  takeScreenshots (H2 := first) self video fieldArgs σ = (σ', Throw e) ∧
  takeScreenshots (H2 := again) self video fieldArgs σ' = (σ', Ok (val [])).
Proof.
  intros activePath rollingPath tmpDir σ' Hlocal Hsep Hactive Hrolling
    Hchildren Hspawn Hsharp.
  destruct (lookup_before_processing tmpDir activePath written σ
              Hsep Hactive Hchildren) as [Hfolder Hempty].
  fold σ' in Hfolder, Hempty.
  split.
  - rewrite (takeScreenshots_local (H2 := first) self video fieldArgs σ Hlocal).
    fold activePath rollingPath tmpDir.
    unfold bind at 1. unfold try_catch.
    rewrite (screenshots_lookup_miss _ _ _ _ Hactive Hrolling).
    unfold bind at 1. unfold ensureDir at 1, modify at 1.
    unfold bind at 1. unfold takeRawScreenshots.
    cbn [config_folder]. rewrite Hspawn.
    unfold bind at 1. unfold ensureDir at 1, modify at 1.
    fold σ'. cbn [processScreenshots]. unfold bind at 1.
    by rewrite Hsharp.
  - rewrite (takeScreenshots_local (H2 := again) self video fieldArgs σ' Hlocal).
    fold activePath rollingPath tmpDir.
    unfold bind at 1. unfold try_catch.
    rewrite (screenshots_lookup_hit _ _ _ _ Hfolder).
    by rewrite (children_nil _ _ Hempty).
Qed.

Lemma failed_processing_poisons_cache_witness :
  ∃ σ' : disk,
    takeScreenshots (H := sample_runtime) (H0 := sample_host)
      (H1 := sample_screenshot_host) (H2 := broken_sharp) sample_ffmpeg
      (local_video (Some "video/mp4")) screenshot_args ∅
    = (σ', Throw (Error "Input file contains unsupported image format")) ∧
    takeScreenshots (H := sample_runtime) (H0 := sample_host)
      (H1 := sample_screenshot_host) (H2 := working_tools) sample_ffmpeg
      (local_video (Some "video/mp4")) screenshot_args σ'
    = (σ', Ok (val [])).
Proof.
  eexists.
  apply (failed_processing_poisons_cache (H := sample_runtime)
           (H0 := sample_host) (H1 := sample_screenshot_host)
           broken_sharp working_tools sample_ffmpeg
           (local_video (Some "video/mp4")) screenshot_args ∅
           "1s.png" ["2s.png"] [("1s.png", "raw1"); ("2s.png", "raw2")]
           (Error "Input file contains unsupported image format")).
  - split; [reflexivity|]. split; [reflexivity|].
    exists "video/mp4". by repeat split.
  - split; by vm_compute.
  - apply lookup_empty.
  - apply lookup_empty.
  - intros name. apply lookup_empty.
  - reflexivity.
  - reflexivity.
Defined.

(** X28: a transcoder that fails to take the screenshots is not cached:
    the call throws the error of the transcoder, and the folder of the
    screenshots is still missing in the active tier, so that the next call
    takes them again. *)
Theorem failed_capture_is_not_cached {N}
    `{Runtime, Host, ScreenshotHost, ScreenshotTools N} (self : FFMPEG)
    (video : VideoNode) (fieldArgs : ScreenshotTransformerFieldArgs)
    (σ : disk) (written : list (string * string)) (err : exn) :
  let activePath := screenshots_folder (cachePathActive self) video fieldArgs in
  let rollingPath :=
    screenshots_folder (cachePathRolling self) video fieldArgs in
  let tmpDir := screenshots_tmpDir video fieldArgs in
  let σ' := write_files tmpDir written (mkdirs tmpDir σ) in
  local_video_file video →
  separate tmpDir activePath →
  σ !! activePath = None →
  σ !! rollingPath = None →
  spawn_screenshots (absolutePath video)
    {| config_filename := "%ss.png";
       config_folder := tmpDir;
       config_timestamps := timestamps fieldArgs;
       config_size := show (shot_width fieldArgs) +:+ "x?" |}
    (mkdirs tmpDir σ)
  = ScreenshotsError err written →
  takeScreenshots self video fieldArgs σ = (σ', Throw err) ∧
  σ' !! activePath = None.
Proof.
  intros activePath rollingPath tmpDir σ' Hlocal Hsep Hactive Hrolling Hspawn.
  split.
  - rewrite (takeScreenshots_local self video fieldArgs σ Hlocal).
    fold activePath rollingPath tmpDir.
    unfold bind at 1. unfold try_catch.
    rewrite (screenshots_lookup_miss _ _ _ _ Hactive Hrolling).
    unfold bind at 1. unfold ensureDir at 1, modify at 1.
    unfold bind at 1. unfold takeRawScreenshots.
    cbn [config_folder]. by rewrite Hspawn.
  - by apply lookup_after_capture.
Qed.

Lemma failed_capture_is_not_cached_witness :
  let activePath :=
    screenshots_folder (H := sample_host) (H0 := sample_screenshot_host)
      tier_active (local_video (Some "video/mp4")) screenshot_args in
  let tmpDir :=
    screenshots_tmpDir (H := sample_host) (H0 := sample_screenshot_host)
      (local_video (Some "video/mp4")) screenshot_args in
  takeScreenshots (H := sample_runtime) (H0 := sample_host)
    (H1 := sample_screenshot_host) (H2 := no_transcoder) sample_ffmpeg
    (local_video (Some "video/mp4")) screenshot_args ∅
  = (write_files tmpDir [] (mkdirs tmpDir ∅),
     Throw (Error "Cannot find ffmpeg")) ∧
  write_files tmpDir [] (mkdirs tmpDir ∅) !! activePath = None.
Proof.
  apply (failed_capture_is_not_cached (H := sample_runtime)
           (H0 := sample_host) (H1 := sample_screenshot_host)
           (H2 := no_transcoder) sample_ffmpeg
           (local_video (Some "video/mp4")) screenshot_args ∅ []
           (Error "Cannot find ffmpeg")).
  - split; [reflexivity|]. split; [reflexivity|].
    exists "video/mp4". by repeat split.
  - split; by vm_compute.
  - apply lookup_empty.
  - apply lookup_empty.
  - reflexivity.
Defined.


(** ** A rolling tier inside the active tier *)

(** X29: with a cache directory option that ends in a slash, the rotation
    at the start of a production build fails whenever there is an active
    tier: the rolling tier, which lies inside the active one, is deleted if
    it exists, and the move of the active tier into itself is refused. *)
Theorem trailing_slash_breaks_rotation (cwd : path) (platform arch : string)
    (name : string) (cacheDirectoryBin : option string) (σ : disk) :
  plain name →
  let dirs :=
    getCacheDirs cwd platform arch (Some (name +:+ "/")) cacheDirectoryBin in
  is_Some (σ !! cachePathActive_of dirs) →
  onPreInit (Some "production") (cachePathActive_of dirs)
    (cachePathRolling_of dirs) σ
  = (if bool_decide (is_Some (σ !! cachePathRolling_of dirs))
     then remove_tree (cachePathRolling_of dirs) σ else σ,
     Throw (Error "Cannot move or copy to a subdirectory of itself")).
Proof.
  intros Hplain dirs.
  destruct (getCacheDirs_slash cwd platform arch name cacheDirectoryBin Hplain)
    as [Hactive Hrolling].
  fold dirs in Hactive, Hrolling. rewrite Hrolling, Hactive.
  intros Hexists. by apply onPreInit_nested.
Qed.

Lemma trailing_slash_breaks_rotation_witness :
  let dirs := getCacheDirs ["site"] "linux" "x64" (Some "cache/") None in
  onPreInit (Some "production") (cachePathActive_of dirs)
    (cachePathRolling_of dirs) (<[["site"; "cache"] := Dir]> ∅)
  = (if bool_decide
          (is_Some ((<[["site"; "cache"] := Dir]> ∅ : disk)
                      !! cachePathRolling_of dirs))
     then remove_tree (cachePathRolling_of dirs)
            (<[["site"; "cache"] := Dir]> ∅)
     else <[["site"; "cache"] := Dir]> ∅,
     Throw (Error "Cannot move or copy to a subdirectory of itself")).
Proof.
  apply (trailing_slash_breaks_rotation ["site"] "linux" "x64" "cache" None
           (<[["site"; "cache"] := Dir]> ∅)).
  - by vm_compute.
  - change (cachePathActive_of
              (getCacheDirs ["site"] "linux" "x64" (Some ("cache" +:+ "/"))
                 None))
      with ["site"; "cache"].
    rewrite lookup_insert_eq. by eexists.
Defined.
